(** * Graph insights: a shallow embedding of [theauditor/insights/graph.py]

    The module scores a dependency graph: degree counting, a fixed-iteration
    PageRank-style centrality, a weighted hotspot ranking, a health and a
    fragility score, recommendation strings and an impact ratio.

    Python [int] is [Z]; Python [float] is an instance of the interface
    [PyFloat] below, of which there are three: the exact rationals [Q]
    (finite values, no rounding), the extended rationals [XQ] (the same
    with [nan], [inf] and [-inf] and the IEEE rules for them), and IEEE
    binary64 itself.  Statements that depend on how values compare only are
    proved for every instance that obeys the laws [FloatOrder], which all
    three do; statements about special values are proved on [XQ]; bounds
    that need arithmetic are proved in exact arithmetic; the scenarios are
    replayed on binary64.  Dictionaries keyed by strings are
    [gmap string _], sets of strings are [gset string]; a [KeyError] or
    [TypeError] that the Python code can raise is [None].

    The methods are read twice.  The functional reading (section
    [Insights]) takes its arguments as values and serves the statements
    about results.  The module [Store] replays the same statements on
    objects with identity and serves the statements about what a call
    changes; examples check that the two readings return the same records. *)

From Stdlib Require Import ZArith QArith Qabs Qround Lqa Lia.
From Stdlib Require Import Floats.PrimFloat Floats.FloatOps Floats.SpecFloat Uint63.
From Stdlib Require Import Floats.FloatAxioms.
From stdpp Require Import gmap strings list fin_maps fin_sets pretty sorting.

Set Default Proof Using "Type".

(* ===================================================================== *)
(** ** Numbers *)
(* ===================================================================== *)

(** The operations the module applies to Python floats. *)
Class PyFloat (F : Type) := {
  of_int : Z → F;              (* float(n), the coercion of an int operand *)
  fadd : F → F → F;
  fsub : F → F → F;
  fmul : F → F → F;
  fdiv : F → F → F;
  flt : F → F → bool;          (* a < b *)
  fle : F → F → bool;          (* a <= b *)
  format_2f : F → string;      (* "{:.2f}".format(a) *)
}.

Declare Scope pyfloat_scope.
Delimit Scope pyfloat_scope with F.
Infix "+" := fadd : pyfloat_scope.
Infix "-" := fsub : pyfloat_scope.
Infix "*" := fmul : pyfloat_scope.
Infix "/" := fdiv : pyfloat_scope.

(** Round a non-negative rational to the nearest integer, ties to even. *)
Definition round_half_even (q : Q) : Z :=
  let a := Qnum q in
  let b := Z.pos (Qden q) in
  let f := (a / b)%Z in
  let r := (a mod b)%Z in
  match (2 * r ?= b)%Z with
  | Lt => f
  | Gt => (f + 1)%Z
  | Eq => if Z.even f then f else (f + 1)%Z
  end.

Definition two_digits (n : Z) : string :=
  if (n <? 10)%Z then "0" +:+ pretty n else pretty n.

(** [format(q, ".2f")] on the exact value [q]: the digits are those of the
    rational itself, where Python prints the digits of the double nearest
    to it (the two differ on ties such as 0.355). *)
Definition Q_format_2f (q : Q) : string :=
  let n := round_half_even (Qabs q * 100) in
  (if Qlt_le_dec q 0 then "-" else "") +:+
  pretty (n / 100)%Z +:+ "." +:+ two_digits (n mod 100)%Z.

Definition Qltb (a b : Q) : bool := negb (Qle_bool b a).

#[export] Instance Q_float : PyFloat Q := {|
  of_int := inject_Z;
  fadd := Qplus;
  fsub := Qminus;
  fmul := Qmult;
  fdiv := Qdiv;
  flt := Qltb;
  fle := Qle_bool;
  format_2f := Q_format_2f;
|}.

(** *** Special values *)

(** A Python float with its three special values.  Arithmetic on finite
    values is exact; the special values follow IEEE 754: [nan] is
    contagious and compares false with everything, [inf - inf] and
    [inf * 0] are [nan].  A division by zero, which raises
    [ZeroDivisionError] in Python, is never reached: every division of the
    module has a divisor that its guard makes non-zero. *)
Inductive XQ := XNum (q : Q) | XInf (negative : bool) | XNaN.

Definition Xadd (a b : XQ) : XQ :=
  match a, b with
  | XNaN, _ | _, XNaN => XNaN
  | XInf s, XInf t => if Bool.eqb s t then XInf s else XNaN
  | XInf s, XNum _ => XInf s
  | XNum _, XInf t => XInf t
  | XNum x, XNum y => XNum (x + y)
  end.

Definition Xopp (a : XQ) : XQ :=
  match a with
  | XNaN => XNaN
  | XInf s => XInf (negb s)
  | XNum x => XNum (- x)
  end.

Definition Xsub (a b : XQ) : XQ :=
  match a, b with
  | XNum x, XNum y => XNum (x - y)
  | _, _ => Xadd a (Xopp b)
  end.

Definition Xmul (a b : XQ) : XQ :=
  match a, b with
  | XNaN, _ | _, XNaN => XNaN
  | XInf s, XInf t => XInf (xorb s t)
  | XInf s, XNum y => if Qeq_bool y 0 then XNaN else XInf (xorb s (Qltb y 0))
  | XNum x, XInf t => if Qeq_bool x 0 then XNaN else XInf (xorb (Qltb x 0) t)
  | XNum x, XNum y => XNum (x * y)
  end.

Definition Xdiv (a b : XQ) : XQ :=
  match a, b with
  | XNaN, _ | _, XNaN => XNaN
  | XInf _, XInf _ => XNaN
  | XInf s, XNum y => XInf (xorb s (Qltb y 0))
  | XNum _, XInf _ => XNum 0
  | XNum x, XNum y => XNum (x / y)
  end.

Definition Xlt (a b : XQ) : bool :=
  match a, b with
  | XNaN, _ | _, XNaN => false
  | XInf s, XInf t => s && negb t
  | XInf s, XNum _ => s
  | XNum _, XInf t => negb t
  | XNum x, XNum y => Qltb x y
  end.

Definition Xle (a b : XQ) : bool :=
  match a, b with
  | XNaN, _ | _, XNaN => false
  | XInf s, XInf t => s || negb t
  | XInf s, XNum _ => s
  | XNum _, XInf t => negb t
  | XNum x, XNum y => Qle_bool x y
  end.

Definition X_format_2f (a : XQ) : string :=
  match a with
  | XNaN => "nan"
  | XInf s => if s then "-inf" else "inf"
  | XNum x => Q_format_2f x
  end.

#[export] Instance XQ_float : PyFloat XQ := {|
  of_int z := XNum (inject_Z z);
  fadd := Xadd;
  fsub := Xsub;
  fmul := Xmul;
  fdiv := Xdiv;
  flt := Xlt;
  fle := Xle;
  format_2f := X_format_2f;
|}.

(** IEEE binary64.  [of_int] is the double nearest to the integer (ties to
    even), exact for [|n| < 2^53].  An integer beyond the range of a double
    becomes an infinity here, where Python raises [OverflowError]; and a
    quotient of two ints is taken on their doubles, which is Python's
    single correctly rounded division when both are below [2^53]. *)
Definition float_of_Z (z : Z) : float :=
  SF2Prim (binary_normalize prec emax z 0 false).

(** The exact value of a finite double. *)
Definition float_to_Q (x : float) : option Q :=
  match Prim2SF x with
  | S754_zero _ => Some 0%Q
  | S754_finite s m e =>
      let v := (inject_Z (Z.pos m) * (2 ^ e))%Q in
      Some (if s then Qopp v else v)
  | _ => None
  end.

Definition float_format_2f (x : float) : string :=
  match float_to_Q x with
  | Some q =>
      (if PrimFloat.get_sign x then
         if Qlt_le_dec q 0 then "" else "-"
       else "") +:+ Q_format_2f q
  | None =>
      if PrimFloat.is_nan x then "nan"
      else if PrimFloat.get_sign x then "-inf" else "inf"
  end.

#[export] Instance binary64 : PyFloat float := {|
  of_int := float_of_Z;
  fadd := PrimFloat.add;
  fsub := PrimFloat.sub;
  fmul := PrimFloat.mul;
  fdiv := PrimFloat.div;
  flt := PrimFloat.ltb;
  fle := PrimFloat.leb;
  format_2f := float_format_2f;
|}.

Section Numbers.
Context {F : Type} `{PyFloat F}.

(** A decimal literal [n / d], e.g. [0.85 = 85 / 100]: the double nearest
    to the decimal is the correctly rounded quotient of two small ints. *)
Definition lit (n d : Z) : F := (of_int n / of_int d)%F.

(** Python's two-argument [min] and [max]: the first argument unless the
    second is strictly smaller (larger). *)
Definition fmin (a b : F) : F := if flt b a then b else a.
Definition fmax (a b : F) : F := if flt a b then b else a.

(** [max(xs)] of a non-empty iterable; [ValueError] on an empty one. *)
Definition max_of (xs : list F) : option F :=
  match xs with
  | [] => None
  | x :: xs => Some (foldl fmax x xs)
  end.
End Numbers.

(** *** Order laws *)

(** [a == a]: false for [nan] only. *)
Definition is_number {F : Type} `{PyFloat F} (a : F) : bool := fle a a.

(** [a == b] through the two comparisons the interface has. *)
Definition tie {F : Type} `{PyFloat F} (a b : F) : bool := fle a b && fle b a.

(** What the comparisons [<] and [<=] of Python floats obey: on numbers
    they are a total preorder and its strict part; a [nan] makes every
    comparison false. *)
Class FloatOrder (F : Type) `{PyFloat F} : Prop := {
  flt_fle (a b : F) : flt a b = true → fle a b = true;
  flt_not_fle (a b : F) : flt a b = true → fle b a = false;
  not_flt_fle (a b : F) :
    is_number a = true → is_number b = true → flt a b = false → fle b a = true;
  fle_trans (a b c : F) : fle a b = true → fle b c = true → fle a c = true;
  fle_number (a b : F) : fle a b = true → is_number a = true ∧ is_number b = true;
}.

(** Where a double stands among the doubles: its class, then exponent and
    mantissa, both negated for a negative value. *)
Definition SFrank (x : spec_float) : Z * Z * Z :=
  match x with
  | S754_nan => (0, 0, 0)
  | S754_infinity true => (-2, 0, 0)
  | S754_finite true m e => (-1, - e, - Z.pos m)
  | S754_zero _ => (0, 0, 0)
  | S754_finite false m e => (1, e, Z.pos m)
  | S754_infinity false => (2, 0, 0)
  end%Z.

Definition lex_compare (a b : Z * Z * Z) : comparison :=
  match (a.1.1 ?= b.1.1)%Z with
  | Eq => match (a.1.2 ?= b.1.2)%Z with
          | Eq => (a.2 ?= b.2)%Z
          | c => c
          end
  | c => c
  end.

(** The strict order of the ranks. *)
Definition lex_lt (a b : Z * Z * Z) : Prop :=
  (a.1.1 < b.1.1 ∨ (a.1.1 = b.1.1 ∧ (a.1.2 < b.1.2 ∨ (a.1.2 = b.1.2 ∧ a.2 < b.2))))%Z.

(* ===================================================================== *)
(** ** Data model *)
(* ===================================================================== *)

(** [{"id": str, "churn"?: int, "loc"?: int}]; an absent key and a [None]
    value are both [None] ([node.get("churn", 0) or 0] reads either as 0). *)
Record Node := { node_id : string; node_churn : option Z; node_loc : option Z }.

(** An int that a double can hold.  [churn / 100] and [loc / 1000] raise
    [OverflowError] in Python when the quotient is beyond the range of a
    double; the functional reading takes these quotients as total, so the
    statements about how a method fails are stated for node lists within
    this range. *)
Definition in_float_range (z : Z) : Prop := (Z.abs z < 2 ^ 1023)%Z.

Definition metrics_in_range (n : Node) : Prop :=
  in_float_range (default 0%Z (node_churn n)) ∧ in_float_range (default 0%Z (node_loc n)).

(** [{"source": str, "target": str}] *)
Record Edge := { source : string; target : string }.

(** [{"nodes": [...], "edges": [...]}]; an absent key reads as the empty
    list ([graph.get("edges", [])]).  An optional graph argument is [None]
    when the Python argument is falsy, that is [None] or the empty
    dictionary [{}], and [Some g] when it is a dictionary with a key. *)
Record Graph := { nodes : list Node; edges : list Edge }.

(** [{"nodes": [str, ...], "size": int}], from the external cycle detector. *)
Record Cycle := { cycle_nodes : list string; cycle_size : Z }.

(** A dictionary key: an [int] or a [str].  For the layer dictionary the
    annotation of the module says [str], while the comparison
    [max(layers.keys()) < 10] needs [int]. *)
Inductive Key := KInt (z : Z) | KStr (s : string).

#[export] Instance Key_eq_dec : EqDecision Key.
Proof. solve_decision. Defined.

(** The layer dictionary in insertion order, keys pairwise distinct. *)
Definition Layers := list (Key * list string).

Section Insights.
Context {F : Type} `{PyFloat F}.

(** A hotspot record, as [rank_hotspots] builds it. *)
Record Hotspot := {
  h_id : string;
  h_in_degree : Z;
  h_out_degree : Z;
  h_centrality : F;
  h_churn : Z;
  h_loc : Z;
  h_score : F;
}.

Record HealthMetrics := {
  health_score : F;
  health_grade : string;
  fragility_score : F;
  hm_density : F;
  cycle_free : bool;
  well_layered : bool;
  loosely_coupled : bool;
  no_god_objects : bool;
}.

(** The instance state: [self.weights]. *)
Record GraphInsights := { weights : gmap string F }.

Definition DEFAULT_WEIGHTS : gmap string F :=
  <["in_degree" := lit 3 10]> (<["out_degree" := lit 2 10]>
  (<["centrality" := lit 3 10]> (<["churn" := lit 1 10]>
  (<["loc" := lit 1 10]> ∅)))).

(** [self.weights = weights or self.DEFAULT_WEIGHTS]: [None] and the empty
    dictionary are both falsy. *)
Definition __init__ (weights : option (gmap string F)) : GraphInsights :=
  {| weights :=
       match weights with
       | Some w => if decide (w = ∅) then DEFAULT_WEIGHTS else w
       | None => DEFAULT_WEIGHTS
       end |}.

(** *** Degree counter *)

(** Reading a [defaultdict(int)]. *)
Definition dd_get (d : gmap string Z) (k : string) : Z := default 0%Z (d !! k).

(** One pass of [for edge in graph.get("edges", [])] over the pair
    [(in_degree, out_degree)]. *)
Definition count_degrees (deg : gmap string Z * gmap string Z) (es : list Edge)
  : gmap string Z * gmap string Z :=
  foldl (λ '(in_degree, out_degree) edge,
           let out_degree := <[source edge := (dd_get out_degree (source edge) + 1)%Z]> out_degree in
           let in_degree := <[target edge := (dd_get in_degree (target edge) + 1)%Z]> in_degree in
           (in_degree, out_degree))
        deg es.

(** *** Centrality engine *)

Definition damping : F := lit 85 100.
Definition iterations : nat := 10.

(** Reading the [defaultdict(list)]. *)
Definition adj_get (adj : gmap string (list string)) (k : string) : list string :=
  default [] (adj !! k).

(** The first loop: [adj[source].append(target)], [nodes.add(source)],
    [nodes.add(target)]. *)
Definition build_adjacency (es : list Edge) : gmap string (list string) * gset string :=
  foldl (λ '(adj, nodes) edge,
           let adj := <[source edge := adj_get adj (source edge) ++ [target edge]]> adj in
           let nodes := nodes ∪ {[source edge]} in
           let nodes := nodes ∪ {[target edge]} in
           (adj, nodes))
        (∅, ∅) es.

(** [scores[source]]; every key read is a key of [scores] (lemma
    [power_step_dom]), so the default is never used. *)
Definition score_get (scores : gmap string F) (k : string) : F :=
  default (of_int 0) (scores !! k).

(** The body of [for node in nodes]: the inner loop over [source].  A set
    is iterated in the order [elements] lists it; Python iterates it in
    hash order, which varies from run to run.  The sum is the same in any
    order in exact arithmetic, and may differ in the last bits on doubles. *)
Definition node_score (adj : gmap string (list string)) (nodes : gset string)
    (scores : gmap string F) (node : string) : F :=
  foldl (λ score source,
           if bool_decide (node ∈ adj_get adj source) then
             let out_count :=
               if decide (length (adj_get adj source) = 0)%nat then 1%Z
               else Z.of_nat (length (adj_get adj source)) in
             (score + damping * score_get scores source / of_int out_count)%F
           else score)
        (of_int 1 - damping)%F (elements nodes).

(** One iteration of the outer loop: [new_scores], built from [scores]. *)
Definition power_step (adj : gmap string (list string)) (nodes : gset string)
    (scores : gmap string F) : gmap string F :=
  foldl (λ new_scores node, <[node := node_score adj nodes scores node]> new_scores)
        ∅ (elements nodes).

(** [{node: 1.0 for node in nodes}] *)
Definition initial_scores (nodes : gset string) : gmap string F :=
  gset_to_gmap (of_int 1) nodes.

(** The scores when the loop [for _ in range(iterations)] ends. *)
Definition power_iteration (graph : Graph) : gmap string F :=
  let '(adj, nodes) := build_adjacency (edges graph) in
  Nat.iter iterations (power_step adj nodes) (initial_scores nodes).

(** The last block: divide by the maximum when there is one and it is
    positive. *)
Definition normalize (scores : gmap string F) : gmap string F :=
  if decide (scores = ∅) then scores
  else match max_of (map_to_list scores).*2 with
       | Some max_score =>
           if flt (of_int 0) max_score
           then (λ v, v / max_score)%F <$> scores
           else scores
       | None => scores
       end.

Definition _calculate_centrality (graph : Graph) : gmap string F :=
  normalize (power_iteration graph).

(** *** Hotspot ranker *)

(** The body of [for node in import_graph.get("nodes", [])]; a weight that
    the configured dictionary lacks is a [KeyError].  The quotients
    [churn / 100] and [loc / 1000] are total here; in Python they raise
    [OverflowError] for an int outside [in_float_range]. *)
Definition hotspot_of (self : GraphInsights) (in_degree out_degree : gmap string Z)
    (centrality : gmap string F) (node : Node) : option Hotspot :=
  let in_deg := dd_get in_degree (node_id node) in
  let out_deg := dd_get out_degree (node_id node) in
  let cent := default (of_int 0) (centrality !! node_id node) in
  let churn := default 0%Z (node_churn node) in
  let loc := default 0%Z (node_loc node) in
  w_in ← weights self !! "in_degree";
  w_out ← weights self !! "out_degree";
  w_cent ← weights self !! "centrality";
  w_churn ← weights self !! "churn";
  w_loc ← weights self !! "loc";
  let score :=
    (w_in * of_int in_deg + w_out * of_int out_deg + w_cent * cent
     + w_churn * (of_int churn / of_int 100)
     + w_loc * (of_int loc / of_int 1000))%F in
  Some {| h_id := node_id node; h_in_degree := in_deg; h_out_degree := out_deg;
          h_centrality := cent; h_churn := churn; h_loc := loc; h_score := score |}.

(** [list.sort(key=lambda h: h["score"], reverse=True)]: Python's sort is
    stable, also under [reverse=True]; it compares keys with [<] only.
    A record goes in front of the first one whose score is not larger. *)
Fixpoint insert_by_score (h : Hotspot) (l : list Hotspot) : list Hotspot :=
  match l with
  | [] => [h]
  | x :: l' =>
      if flt (h_score h) (h_score x) then x :: insert_by_score h l'
      else h :: x :: l'
  end.

Definition sort_by_score (l : list Hotspot) : list Hotspot :=
  foldr insert_by_score [] l.

(** The list [hotspots] before it is sorted. *)
Definition unsorted_hotspots (self : GraphInsights) (import_graph : Graph)
    (call_graph : option Graph) : option (list Hotspot) :=
  let deg := count_degrees (∅, ∅) (edges import_graph) in
  let '(in_degree, out_degree) :=
    match call_graph with
    | Some cg => count_degrees deg (edges cg)
    | None => deg
    end in
  let centrality := _calculate_centrality import_graph in
  mapM (hotspot_of self in_degree out_degree centrality) (nodes import_graph).

Definition rank_hotspots (self : GraphInsights) (import_graph : Graph)
    (call_graph : option Graph) : option (list Hotspot) :=
  sort_by_score <$> unsorted_hotspots self import_graph call_graph.

(** *** Health scorer *)

(** The density every method recomputes:
    [max_edges = n * (n - 1) if n > 1 else 1],
    [density = edges_count / max_edges if max_edges > 0 else 0]. *)
Definition graph_density (import_graph : Graph) : F :=
  let nodes_count := Z.of_nat (length (nodes import_graph)) in
  let edges_count := Z.of_nat (length (edges import_graph)) in
  let max_edges :=
    if (1 <? nodes_count)%Z then (nodes_count * (nodes_count - 1))%Z else 1%Z in
  if (0 <? max_edges)%Z then (of_int edges_count / of_int max_edges)%F
  else of_int 0.

(** Truthiness of an optional list: [None] and [[]] are falsy. *)
Definition truthy {A} (l : option (list A)) : bool :=
  match l with Some (_ :: _) => true | _ => false end.

(** [hotspots[0]] under the guard [hotspots and ...]. *)
Definition top_hotspot (hotspots : option (list Hotspot)) : option Hotspot :=
  match hotspots with Some (h :: _) => Some h | _ => None end.

Definition count (cycles : option (list Cycle)) : Z :=
  Z.of_nat (length (default [] cycles)).

(** The three penalties, as the local variables of the method. *)
Definition cycle_penalty (cycles : option (list Cycle)) : Z :=
  Z.min (count cycles * 5) 30.
Definition density_penalty (density : F) : F :=
  fmin ((density - lit 3 10) * of_int 100)%F (of_int 20).
Definition hotspot_penalty (h0 : Hotspot) : Z :=
  Z.min (h_in_degree h0 / 10) 20.

(** [health_score] after the three penalties, before the floor. *)
Definition penalized_health (import_graph : Graph) (cycles : option (list Cycle))
    (hotspots : option (list Hotspot)) : F :=
  let density := graph_density import_graph in
  let health_score : F := of_int 100 in
  let health_score :=
    if truthy cycles then (health_score - of_int (cycle_penalty cycles))%F
    else health_score in
  let health_score :=
    if flt (lit 3 10) density then (health_score - density_penalty density)%F
    else health_score in
  match top_hotspot hotspots with
  | Some h0 =>
      if (50 <? h_in_degree h0)%Z
      then (health_score - of_int (hotspot_penalty h0))%F
      else health_score
  | None => health_score
  end.

Definition grade_of (health_score : F) : string :=
  if fle (of_int 90) health_score then "A"
  else if fle (of_int 80) health_score then "B"
  else if fle (of_int 70) health_score then "C"
  else if fle (of_int 60) health_score then "D"
  else "F".

(** [fragility] before the cap at 100. *)
Definition raw_fragility (import_graph : Graph) (cycles : option (list Cycle))
    (hotspots : option (list Hotspot)) : F :=
  let density := graph_density import_graph in
  let fragility : F := of_int 0 in
  let fragility :=
    match top_hotspot hotspots with
    | Some h0 =>
        let top_hotspot_score := h_score h0 in
        (fragility + fmin (top_hotspot_score * of_int 10)%F (of_int 40))%F
    | None => fragility
    end in
  let fragility :=
    if truthy cycles then (fragility + of_int (Z.min (count cycles * 3) 30))%F
    else fragility in
  (fragility + fmin (density * of_int 100)%F (of_int 30))%F.

(** [max(layers.keys())], then [... < 10]: it needs integer keys, any
    string key ends in a [TypeError]. *)
Definition int_keys (layers : Layers) : option (list Z) :=
  mapM (λ kv, match kv.1 with KInt z => Some z | KStr _ => None end) layers.

Definition max_int (zs : list Z) : option Z :=
  match zs with [] => None | z :: zs => Some (foldl Z.max z zs) end.

(** [len(layers) > 2 and max(layers.keys()) < 10 if layers else False] *)
Definition compute_well_layered (layers : option Layers) : option bool :=
  match layers with
  | Some ((_ :: _) as ls) =>
      if (2 <? length ls)%nat then
        keys ← int_keys ls; m ← max_int keys; Some (m <? 10)%Z
      else Some false
  | _ => Some false
  end.

Definition calculate_health_metrics (self : GraphInsights) (import_graph : Graph)
    (cycles : option (list Cycle)) (hotspots : option (list Hotspot))
    (layers : option Layers) : option HealthMetrics :=
  let density := graph_density import_graph in
  let health_score := penalized_health import_graph cycles hotspots in
  let health_grade := grade_of health_score in
  let fragility := raw_fragility import_graph cycles hotspots in
  wl ← compute_well_layered layers;
  Some {| health_score := fmax health_score (of_int 0);
          health_grade := health_grade;
          fragility_score := fmin fragility (of_int 100);
          hm_density := density;
          cycle_free := negb (truthy cycles);
          well_layered := wl;
          loosely_coupled := flt density (lit 2 10);
          no_god_objects :=
            match top_hotspot hotspots with
            | Some h0 => (h_in_degree h0 <? 30)%Z
            | None => true
            end |}.

(** *** Recommendation generator *)

Definition cycle_breaking (n : nat) : string :=
  "Break " +:+ pretty n +:+ " dependency cycles to improve maintainability".
Definition coupling_reduction (density : F) : string :=
  "Reduce coupling between modules (current density: " +:+ format_2f density +:+ ")".
Definition hotspot_refactor (h0 : Hotspot) : string :=
  "Refactor hotspot '" +:+ h_id h0 +:+ "' with " +:+ pretty (h_in_degree h0)
    +:+ " dependencies".
Definition layering_suggestion : string :=
  "Consider introducing more architectural layers for better separation".

Definition generate_recommendations (self : GraphInsights) (import_graph : Graph)
    (cycles : option (list Cycle)) (hotspots : option (list Hotspot))
    (layers : option Layers) : list string :=
  let recommendations : list string := [] in
  let density := graph_density import_graph in
  let recommendations :=
    if truthy cycles && bool_decide (0 < length (default [] cycles))%nat
    then recommendations ++ [cycle_breaking (length (default [] cycles))]
    else recommendations in
  let recommendations :=
    if flt (lit 3 10) density
    then recommendations ++ [coupling_reduction density]
    else recommendations in
  let recommendations :=
    match top_hotspot hotspots with
    | Some h0 =>
        if (30 <? h_in_degree h0)%Z
        then recommendations ++ [hotspot_refactor h0]
        else recommendations
    | None => recommendations
    end in
  let recommendations :=
    match layers with
    | Some ((_ :: _) as ls) =>
        if (length ls <=? 2)%nat
        then recommendations ++ [layering_suggestion]
        else recommendations
    | _ => recommendations
    end in
  recommendations.

(** *** Impact ratio *)

Definition calculate_impact_ratio (self : GraphInsights) (targets : list string)
    (all_impacted : gset string) (total_nodes : Z) : F :=
  if (total_nodes =? 0)%Z then of_int 0
  else (of_int (Z.of_nat (size all_impacted)) / of_int total_nodes)%F.

(** *** Summary orchestrator *)

(** The collaborator [theauditor.graph.analyzer.XGraphAnalyzer] is outside
    this module; [summarize] takes its two methods as they are called. *)
Record XGraphAnalyzer := {
  detect_cycles : Graph → list Cycle;
  identify_layers : Graph → Layers;
}.

Record GraphCounts := { gc_nodes : nat; gc_edges : nat }.
Record CycleSummary := { total : nat; largest : Z; nodes_in_cycles : nat }.
Record HotspotSummary := {
  top_5 : list string; max_in_degree : Z; max_out_degree : Z }.
Record LayerSummary := { layer_count : nat; distribution : list (Key * nat) }.

Record Summary := {
  s_import_graph : GraphCounts;
  s_import_density : F;
  s_call_graph : option GraphCounts;
  s_cycles : CycleSummary;
  s_hotspots : HotspotSummary;
  s_layers : LayerSummary;
  s_health_metrics : HealthMetrics;
  s_recommendations : list string;
}.

(** [max((... for h in hotspots), default=0)] *)
Definition max_default0 (zs : list Z) : Z := default 0%Z (max_int zs).

(** The dictionary stored under [summary["cycles"]]. *)
Definition cycles_entry (cycles : list Cycle) : CycleSummary :=
  {| total := length cycles;
     largest := match cycles with c :: _ => cycle_size c | [] => 0%Z end;
     nodes_in_cycles :=
       size (list_to_set (C := gset string) (concat (cycle_nodes <$> cycles))) |}.

Definition summarize (analyzer : XGraphAnalyzer) (self : GraphInsights)
    (import_graph : Graph) (call_graph : option Graph)
    (cycles : option (list Cycle)) (hotspots : option (list Hotspot))
    : option Summary :=
  let counts g := {| gc_nodes := length (nodes g); gc_edges := length (edges g) |} in
  let density := graph_density import_graph in
  let cycles := match cycles with
                | None => detect_cycles analyzer import_graph
                | Some cs => cs
                end in
  let cycles_summary := cycles_entry cycles in
  hotspots ← match hotspots with
             | None => rank_hotspots self import_graph call_graph
             | Some hs => Some hs
             end;
  let hotspots_summary :=
    {| top_5 := h_id <$> take 5 hotspots;
       max_in_degree := max_default0 (h_in_degree <$> hotspots);
       max_out_degree := max_default0 (h_out_degree <$> hotspots) |} in
  let layers := identify_layers analyzer import_graph in
  let layers_summary :=
    {| layer_count := length layers;
       distribution := (λ kv, (kv.1, length kv.2)) <$> layers |} in
  health ← calculate_health_metrics self import_graph (Some cycles) (Some hotspots)
             (Some layers);
  Some {| s_import_graph := counts import_graph;
          s_import_density := density;
          s_call_graph := counts <$> call_graph;
          s_cycles := cycles_summary;
          s_hotspots := hotspots_summary;
          s_layers := layers_summary;
          s_health_metrics := health;
          s_recommendations :=
            generate_recommendations self import_graph (Some cycles) (Some hotspots)
              (Some layers) |}.
End Insights.

Arguments Hotspot : clear implicits.
Arguments HealthMetrics : clear implicits.
Arguments GraphInsights : clear implicits.
Arguments XGraphAnalyzer : clear implicits.
Arguments Summary : clear implicits.

(* ===================================================================== *)
(** ** The centrality update in the words of the specification *)
(* ===================================================================== *)

Definition Qsum (l : list Q) : Q := foldr Qplus 0%Q l.

Section CentralitySpecification.
Variable graph : Graph.

(** Every node referenced by any edge. *)
Definition edge_nodes : gset string :=
  list_to_set (source <$> edges graph) ∪ list_to_set (target <$> edges graph).

(** [adj[s]]: the targets of the edges leaving [s], in edge order. *)
Definition targets_of (s : string) : list string :=
  target <$> filter (λ e, source e = s) (edges graph).

(** The sources [s] with [n ∈ adj[s]]. *)
Definition sources_into (n : string) : list string :=
  filter (λ s, n ∈ targets_of s) (elements edge_nodes).

(** [new_score[n] = (1 - 0.85) + 0.85 * Σ score[s] / max(|adj[s]|, 1)] *)
Definition update (score : string → Q) (n : string) : Q :=
  ((1 - (85 # 100))
   + (85 # 100)
     * Qsum ((λ s, score s / inject_Z (Z.of_nat (length (targets_of s)) `max` 1))
               <$> sources_into n))%Q.

(** [k] synchronous rounds from the all-ones scores. *)
Fixpoint synchronous (k : nat) : string → Q :=
  match k with
  | O => λ _, 1%Q
  | S k => update (synchronous k)
  end.
End CentralitySpecification.

(* ===================================================================== *)
(** ** The rule table and the default score in the words of the
       specification *)
(* ===================================================================== *)

Section RuleTable.
Context {F : Type} `{PyFloat F}.

(** The rules of the recommendation generator, in the order of the
    specification: each rule is a condition and the string it emits. *)
Definition recommendation_rules (import_graph : Graph) (cycles : option (list Cycle))
    (hotspots : option (list (Hotspot F))) (layers : option Layers) : list (bool * string) :=
  [ ((0 <? length (default [] cycles))%nat,
     cycle_breaking (length (default [] cycles)));
    (flt (lit 3 10) (graph_density import_graph),
     coupling_reduction (graph_density import_graph));
    (match top_hotspot hotspots with
     | Some h0 => ((30 <? h_in_degree h0)%Z, hotspot_refactor h0)
     | None => (false, "")
     end);
    ((0 <? length (default [] layers))%nat && (length (default [] layers) <=? 2)%nat,
     layering_suggestion) ].

(** The strings of the rules whose condition holds, in rule order. *)
Definition fired (rules : list (bool * string)) : list string :=
  (filter (λ r, r.1 = true) rules).*2.

End RuleTable.

(* ===================================================================== *)
(** ** Orders used in the statements *)
(* ===================================================================== *)

#[global] Instance Qeq_decision (a b : Q) : Decision (a == b)%Q := Qeq_dec a b.

(** Descending order of scores, as a relation between neighbours:
    [a.score >= b.score]. *)
Definition score_ge {F : Type} `{PyFloat F} (a b : Hotspot F) : Prop :=
  fle (h_score b) (h_score a) = true.

(** Cycles listed by size, largest first. *)
Definition size_ge (a b : Cycle) : Prop := (cycle_size b ≤ cycle_size a)%Z.

(* ===================================================================== *)
(** ** Scenarios *)
(* ===================================================================== *)

Definition plain_node (s : string) : Node :=
  {| node_id := s; node_churn := None; node_loc := None |}.
Definition edge (s t : string) : Edge := {| source := s; target := t |}.

Definition empty_graph : Graph := {| nodes := []; edges := [] |}.

(** Nodes [A, B, C], edges [A→B, B→C, C→A], and its one cycle. *)
Definition triangle : Graph :=
  {| nodes := [plain_node "A"; plain_node "B"; plain_node "C"];
     edges := [edge "A" "B"; edge "B" "C"; edge "C" "A"] |}.
Definition triangle_cycle : Cycle :=
  {| cycle_nodes := ["A"; "B"; "C"]; cycle_size := 3 |}.

(** Five nodes and eight edges: density [8 / (5 * 4) = 0.4]. *)
Definition dense_graph : Graph :=
  {| nodes := plain_node <$> ["a"; "b"; "c"; "d"; "e"];
     edges := [edge "a" "b"; edge "a" "c"; edge "a" "d"; edge "a" "e";
               edge "b" "a"; edge "c" "a"; edge "d" "a"; edge "e" "a"] |}.

(** A chain [a→b→c] and an isolated node [d], listed in the order [d, c, b, a]. *)
Definition chain_graph : Graph :=
  {| nodes := plain_node <$> ["d"; "c"; "b"; "a"];
     edges := [edge "a" "b"; edge "b" "c"] |}.

(** The edges [a→b→c→a] alone, as a call graph over the same ids. *)
Definition lower_triangle : Graph :=
  {| nodes := []; edges := [edge "a" "b"; edge "b" "c"; edge "c" "a"] |}.

Definition two_layers : Layers := [(KInt 0, ["a"]); (KInt 1, ["b"; "c"; "d"; "e"])].

Section SuppliedHotspots.
Context {F : Type} `{PyFloat F}.

(** A supplied top hotspot of in-degree 40. *)
Definition busy_hotspot : Hotspot F :=
  {| h_id := "core"; h_in_degree := 40; h_out_degree := 2;
     h_centrality := of_int 1; h_churn := 0; h_loc := 0; h_score := of_int 13 |}.

(** A supplied top hotspot whose score is [-1]. *)
Definition negative_hotspot : Hotspot F :=
  {| h_id := "x"; h_in_degree := 0; h_out_degree := 0; h_centrality := of_int 0;
     h_churn := 0; h_loc := 0; h_score := of_int (-1) |}.

End SuppliedHotspots.

(** A collaborator that finds no cycle and no layer. *)
Definition null_analyzer : XGraphAnalyzer :=
  {| detect_cycles := λ _, []; identify_layers := λ _, [] |}.

(** Two nodes with two edges each way, and finite weights whose products
    with a degree of 2 overflow: [2.0 ** 1023] and [-(2.0 ** 1023)]. *)
Definition two_way : Graph :=
  {| nodes := plain_node <$> ["p"; "q"];
     edges := [edge "p" "q"; edge "q" "p"; edge "p" "q"; edge "q" "p"] |}.

Definition overflow_weights : gmap string float :=
  <["in_degree" := 0x1p1023%float]> (<["out_degree" := (-0x1p1023)%float]>
  (<["centrality" := 0%float]> (<["churn" := 0%float]> (<["loc" := 0%float]> ∅)))).

(** Two supplied cycles, the smaller one first. *)
Definition unordered_cycles : list Cycle :=
  [ {| cycle_nodes := ["a"; "b"]; cycle_size := 2 |};
    {| cycle_nodes := ["b"; "c"; "d"]; cycle_size := 3 |} ].

(** The same cycles as the detector lists them, largest first. *)
Definition ordered_cycles : list Cycle :=
  [ {| cycle_nodes := ["b"; "c"; "d"]; cycle_size := 3 |};
    {| cycle_nodes := ["a"; "b"]; cycle_size := 2 |} ].

(* ===================================================================== *)
(** ** The object store *)
(* ===================================================================== *)

(** Python dictionaries and lists are objects with an identity: two names
    may denote the same object, and a method may change an object that its
    caller still holds.  The store keeps every such object at a location;
    the methods are replayed on it statement by statement, with the exact
    arithmetic of [Q_float]. *)
Module Store.

Definition loc := nat.

Inductive val :=
| VNone
| VBool (b : bool)
| VInt (z : Z)
| VFloat (q : Q)
| VStr (s : string)
| VRef (l : loc).

Inductive obj :=
| ODict (d : list (Key * val))           (* a dict, in insertion order *)
| OList (l : list val)
| OSet (s : gset string)
| OAdj (m : gmap string (list string)).  (* the defaultdict(list) with the lists it owns *)

Abbreviation heap := (list obj).

(** A computation reads and changes the store; [None] is an exception. *)
Definition M (A : Type) : Type := heap → option (A * heap).

#[global] Instance M_ret : MRet M := λ A a h, Some (a, h).
#[global] Instance M_bind : MBind M := λ A B k m h,
  match m h with
  | Some (a, h') => k a h'
  | None => None
  end.

Definition raise {A} : M A := λ _, None.
Definition lift {A} (o : option A) : M A := λ h,
  match o with Some a => Some (a, h) | None => None end.

(** A new object gets the next free location. *)
Definition alloc (o : obj) : M loc := λ h, Some (length h, h ++ [o]).
Definition load (l : loc) : M obj := λ h,
  match h !! l with Some o => Some (o, h) | None => None end.
Definition store (l : loc) (o : obj) : M unit := λ h,
  if decide (l < length h) then Some ((), <[l := o]> h) else None.

(** *** Loops *)

Fixpoint fold_for {A B} (xs : list A) (body : B → A → M B) (acc : B) : M B :=
  match xs with
  | [] => mret acc
  | x :: xs => acc ← body acc x; fold_for xs body acc
  end.

Definition for_each {A} (xs : list A) (body : A → M unit) : M unit :=
  fold_for xs (λ _ x, body x) ().

Definition map_for {A B} (xs : list A) (f : A → M B) : M (list B) :=
  fold_for xs (λ acc x, y ← f x; mret (acc ++ [y])) [].

Fixpoint repeat_for {B} (n : nat) (body : B → M B) (acc : B) : M B :=
  match n with
  | O => mret acc
  | S n => acc ← body acc; repeat_for n body acc
  end.

(** *** Dictionaries, lists, sets *)

Fixpoint dict_lookup (k : Key) (d : list (Key * val)) : option val :=
  match d with
  | [] => None
  | (k', v) :: d => if decide (k = k') then Some v else dict_lookup k d
  end.

(** [d[k] = v]: an existing key keeps its place, a new one goes last. *)
Fixpoint dict_set (k : Key) (v : val) (d : list (Key * val)) : list (Key * val) :=
  match d with
  | [] => [(k, v)]
  | (k', v') :: d =>
      if decide (k = k') then (k, v) :: d else (k', v') :: dict_set k v d
  end.

Definition as_str (v : val) : option string :=
  match v with VStr s => Some s | _ => None end.
Definition as_loc (v : val) : option loc :=
  match v with VRef l => Some l | _ => None end.

Definition load_dict (v : val) : M (list (Key * val)) :=
  l ← lift (as_loc v); o ← load l;
  match o with ODict d => mret d | _ => raise end.
Definition load_list (v : val) : M (list val) :=
  l ← lift (as_loc v); o ← load l;
  match o with OList xs => mret xs | _ => raise end.

(** [d.get(k, default)] *)
Definition dict_get (d : val) (k : string) (dflt : val) : M val :=
  kv ← load_dict d; mret (default dflt (dict_lookup (KStr k) kv)).
(** [d[k]] *)
Definition getitem (d : val) (k : string) : M val :=
  kv ← load_dict d; lift (dict_lookup (KStr k) kv).
(** [d[k] = v] *)
Definition setitem (d : loc) (k : string) (v : val) : M unit :=
  kv ← load_dict (VRef d); store d (ODict (dict_set (KStr k) v kv)).
(** [d[k]] on a [defaultdict(int)]: a missing key is stored with 0. *)
Definition dd_int_getitem (d : loc) (k : string) : M val :=
  kv ← load_dict (VRef d);
  match dict_lookup (KStr k) kv with
  | Some v => mret v
  | None => store d (ODict (dict_set (KStr k) (VInt 0) kv));; mret (VInt 0)
  end.
(** [l.append(v)] *)
Definition list_append (l : loc) (v : val) : M unit :=
  xs ← load_list (VRef l); store l (OList (xs ++ [v])).
(** [l[0]] *)
Definition list_head (l : val) : M val :=
  xs ← load_list l; lift (head xs).

(** [adj[s].append(t)] *)
Definition adj_append (adj : loc) (s t : string) : M unit :=
  o ← load adj;
  match o with
  | OAdj m => store adj (OAdj (<[s := default [] (m !! s) ++ [t]]> m))
  | _ => raise
  end.
(** [adj[s]]: a missing key is stored with the empty list. *)
Definition adj_getitem (adj : loc) (s : string) : M (list string) :=
  o ← load adj;
  match o with
  | OAdj m =>
      match m !! s with
      | Some ts => mret ts
      | None => store adj (OAdj (<[s := []]> m));; mret []
      end
  | _ => raise
  end.
(** [nodes.add(s)] *)
Definition set_add (nodes : loc) (s : string) : M unit :=
  o ← load nodes;
  match o with OSet X => store nodes (OSet (X ∪ {[s]})) | _ => raise end.
Definition set_elements (nodes : loc) : M (list string) :=
  o ← load nodes;
  match o with OSet X => mret (elements X) | _ => raise end.

Definition len (v : val) : M nat :=
  match v with
  | VRef l =>
      o ← load l;
      mret (match o with
            | ODict d => length d
            | OList xs => length xs
            | OSet X => size X
            | OAdj m => size m
            end)
  | VStr s => mret (String.length s)
  | _ => raise
  end.

(** Truthiness, as [if v:] tests it. *)
Definition truthy (v : val) : M bool :=
  match v with
  | VNone => mret false
  | VBool b => mret b
  | VInt z => mret (negb (z =? 0)%Z)
  | VFloat q => mret (negb (Qeq_bool q 0))
  | VStr s => mret (negb (String.eqb s ""))
  | VRef _ => n ← len v; mret (negb (n =? 0)%nat)
  end.

(** *** Numbers *)

Definition to_float (v : val) : option Q :=
  match v with
  | VInt z => Some (inject_Z z)
  | VFloat q => Some q
  | _ => None
  end.

Definition arith (on_int : Z → Z → Z) (on_float : Q → Q → Q) (a b : val) : option val :=
  match a, b with
  | VInt x, VInt y => Some (VInt (on_int x y))
  | _, _ => x ← to_float a; y ← to_float b; Some (VFloat (on_float x y))
  end.
Definition add := arith Z.add Qplus.
Definition sub := arith Z.sub Qminus.
Definition mul := arith Z.mul Qmult.
(** [a / b]; [ZeroDivisionError] on a zero divisor. *)
Definition truediv (a b : val) : option val :=
  x ← to_float a; y ← to_float b;
  if Qeq_bool y 0 then None else Some (VFloat (x / y)).
(** [a // b] on ints. *)
Definition floordiv (a b : val) : option val :=
  match a, b with
  | VInt x, VInt y => if (y =? 0)%Z then None else Some (VInt (x / y))
  | _, _ => None
  end.
Definition lt (a b : val) : option bool :=
  x ← to_float a; y ← to_float b; Some (Qltb x y).
Definition le (a b : val) : option bool :=
  x ← to_float a; y ← to_float b; Some (Qle_bool x y).
Definition py_min (a b : val) : option val :=
  (λ c : bool, if c then b else a) <$> lt b a.
Definition py_max (a b : val) : option val :=
  (λ c : bool, if c then b else a) <$> lt a b.
(** [max(xs)]; [ValueError] on an empty iterable, [TypeError] on values
    that do not compare. *)
Definition max_of_vals (xs : list val) : option val :=
  match xs with
  | [] => None
  | x :: xs => foldl (λ (m : option val) y, m' ← m; py_max m' y) (Some x) xs
  end.

Definition key_val (k : Key) : val :=
  match k with KInt z => VInt z | KStr s => VStr s end.

(** [str(v)] inside an f-string. *)
Definition to_str (v : val) : option string :=
  match v with
  | VStr s => Some s
  | VInt z => Some (pretty z)
  | _ => None
  end.

(** *** The methods, statement by statement *)

(** [graph.get(field, [])], read as a list; the default is a new list. *)
Definition graph_items (graph : val) (field : string) : M (list val) :=
  dflt ← alloc (OList []);
  items ← dict_get graph field (VRef dflt);
  load_list items.

Definition damping : val := VFloat (inject_Z 85 / inject_Z 100).

(** The inner loop [for source in nodes] of the power iteration. *)
Definition node_score (adj : loc) (scores : loc) (ns : list string) (node : string)
  : M val :=
  base ← lift (sub (VInt 1) damping);
  fold_for ns (λ score source,
    ts ← adj_getitem adj source;
    if bool_decide (node ∈ ts) then
      ts ← adj_getitem adj source;
      let out_count :=
        VInt (if decide (length ts = 0)%nat then 1 else Z.of_nat (length ts)) in
      s ← getitem (VRef scores) source;
      x ← lift (mul damping s);
      x ← lift (truediv x out_count);
      lift (add score x)
    else mret score) base.

Definition _calculate_centrality (graph : val) : M val :=
  adj ← alloc (OAdj ∅);
  nodes ← alloc (OSet ∅);
  es ← graph_items graph "edges";
  for_each es (λ edge,
    s ← getitem edge "source"; s ← lift (as_str s);
    t ← getitem edge "target"; t ← lift (as_str t);
    adj_append adj s t;;
    set_add nodes s;;
    set_add nodes t);;
  ns ← set_elements nodes;
  scores ← alloc (ODict ((λ n, (KStr n, VFloat (inject_Z 1))) <$> ns));
  scores ← repeat_for iterations (λ scores,
    new_scores ← alloc (ODict []);
    for_each ns (λ node,
      score ← node_score adj scores ns node;
      setitem new_scores node score);;
    mret new_scores) scores;
  nonempty ← truthy (VRef scores);
  if nonempty : bool then
    kv ← load_dict (VRef scores);
    max_score ← lift (max_of_vals kv.*2);
    positive ← lift (lt (VInt 0) max_score);
    if positive : bool then
      normalized ← lift (mapM (λ kv, v ← truediv kv.2 max_score; Some (kv.1, v)) kv);
      scores ← alloc (ODict normalized);
      mret (VRef scores)
    else mret (VRef scores)
  else mret (VRef scores).

(** [for edge in graph.get("edges", [])]: the two degree counters. *)
Definition count_degrees (graph : val) (in_degree out_degree : loc) : M unit :=
  es ← graph_items graph "edges";
  for_each es (λ edge,
    s ← getitem edge "source"; s ← lift (as_str s);
    d ← dd_int_getitem out_degree s;
    d ← lift (add d (VInt 1));
    setitem out_degree s d;;
    t ← getitem edge "target"; t ← lift (as_str t);
    d ← dd_int_getitem in_degree t;
    d ← lift (add d (VInt 1));
    setitem in_degree t d).

(** [x or 0] *)
Definition or_zero (x : val) : M val :=
  t ← truthy x; mret (if t : bool then x else VInt 0).

(** Stable insertion by descending key, on pairs of key and item. *)
Fixpoint insert_keyed (x : val * val) (l : list (val * val)) : option (list (val * val)) :=
  match l with
  | [] => Some [x]
  | y :: l' =>
      c ← lt x.1 y.1;
      if c : bool then (y ::.) <$> insert_keyed x l' else Some (x :: y :: l')
  end.

(** [l.sort(key=lambda h: h[k], reverse=True)], in place. *)
Definition sort_desc_by (l : loc) (k : string) : M unit :=
  xs ← load_list (VRef l);
  keyed ← map_for xs (λ x, key ← getitem x k; mret (key, x));
  sorted ← lift (foldr (λ x acc, acc ← acc; insert_keyed x acc) (Some []) keyed);
  store l (OList sorted.*2).

(** [self] is the object held in [self.weights]. *)
Definition rank_hotspots (self import_graph call_graph : val) : M val :=
  in_degree ← alloc (ODict []);
  out_degree ← alloc (ODict []);
  count_degrees import_graph in_degree out_degree;;
  has_calls ← truthy call_graph;
  (if has_calls : bool then count_degrees call_graph in_degree out_degree else mret ());;
  centrality ← _calculate_centrality import_graph;
  hotspots ← alloc (OList []);
  ns ← graph_items import_graph "nodes";
  for_each ns (λ node,
    node_id ← getitem node "id"; id ← lift (as_str node_id);
    in_deg ← dd_int_getitem in_degree id;
    out_deg ← dd_int_getitem out_degree id;
    cent ← dict_get centrality id (VInt 0);
    churn ← dict_get node "churn" (VInt 0); churn ← or_zero churn;
    loc ← dict_get node "loc" (VInt 0); loc ← or_zero loc;
    w ← getitem self "in_degree"; score ← lift (mul w in_deg);
    w ← getitem self "out_degree"; x ← lift (mul w out_deg); score ← lift (add score x);
    w ← getitem self "centrality"; x ← lift (mul w cent); score ← lift (add score x);
    w ← getitem self "churn"; x ← lift (truediv churn (VInt 100));
    x ← lift (mul w x); score ← lift (add score x);
    w ← getitem self "loc"; x ← lift (truediv loc (VInt 1000));
    x ← lift (mul w x); score ← lift (add score x);
    record ← alloc (ODict [(KStr "id", node_id); (KStr "in_degree", in_deg);
                           (KStr "out_degree", out_deg); (KStr "centrality", cent);
                           (KStr "churn", churn); (KStr "loc", loc);
                           (KStr "score", score)]);
    list_append hotspots (VRef record));;
  sort_desc_by hotspots "score";;
  mret (VRef hotspots).

Definition graph_density (import_graph : val) : M val :=
  ns ← graph_items import_graph "nodes";
  es ← graph_items import_graph "edges";
  let nodes_count := Z.of_nat (length ns) in
  let edges_count := Z.of_nat (length es) in
  let max_edges :=
    if (1 <? nodes_count)%Z then (nodes_count * (nodes_count - 1))%Z else 1%Z in
  if (0 <? max_edges)%Z then lift (truediv (VInt edges_count) (VInt max_edges))
  else mret (VInt 0).

Definition literal (n d : Z) : val := VFloat (inject_Z n / inject_Z d).

Definition calculate_health_metrics (self import_graph cycles hotspots layers : val)
  : M val :=
  density ← graph_density import_graph;
  let health_score := VInt 100 in
  has_cycles ← truthy cycles;
  health_score ←
    (if has_cycles : bool then
       n ← len cycles;
       cycle_penalty ← lift (py_min (VInt (Z.of_nat n * 5)) (VInt 30));
       lift (sub health_score cycle_penalty)
     else mret health_score);
  dense ← lift (lt (literal 3 10) density);
  health_score ←
    (if dense : bool then
       x ← lift (sub density (literal 3 10));
       x ← lift (mul x (VInt 100));
       density_penalty ← lift (py_min x (VInt 20));
       lift (sub health_score density_penalty)
     else mret health_score);
  has_hotspots ← truthy hotspots;
  health_score ←
    (if has_hotspots : bool then
       h0 ← list_head hotspots; d ← getitem h0 "in_degree";
       high ← lift (lt (VInt 50) d);
       if high : bool then
         h0 ← list_head hotspots; d ← getitem h0 "in_degree";
         x ← lift (floordiv d (VInt 10));
         hotspot_penalty ← lift (py_min x (VInt 20));
         lift (sub health_score hotspot_penalty)
       else mret health_score
     else mret health_score);
  a ← lift (le (VInt 90) health_score);
  b ← lift (le (VInt 80) health_score);
  c ← lift (le (VInt 70) health_score);
  d ← lift (le (VInt 60) health_score);
  let health_grade :=
    if a : bool then "A" else if b : bool then "B" else if c : bool then "C" else if d : bool then "D" else "F" in
  let fragility := VInt 0 in
  fragility ←
    (if has_hotspots : bool then
       h0 ← list_head hotspots; top_hotspot_score ← getitem h0 "score";
       x ← lift (mul top_hotspot_score (VInt 10));
       x ← lift (py_min x (VInt 40));
       lift (add fragility x)
     else mret fragility);
  fragility ←
    (if has_cycles : bool then
       n ← len cycles;
       x ← lift (py_min (VInt (Z.of_nat n * 3)) (VInt 30));
       lift (add fragility x)
     else mret fragility);
  x ← lift (mul density (VInt 100));
  x ← lift (py_min x (VInt 30));
  fragility ← lift (add fragility x);
  health_floor ← lift (py_max health_score (VInt 0));
  fragility_cap ← lift (py_min fragility (VInt 100));
  cycle_free ←
    (if has_cycles : bool then n ← len cycles; mret (n =? 0)%nat else mret true);
  has_layers ← truthy layers;
  well_layered ←
    (if has_layers : bool then
       n ← len layers;
       if (2 <? n)%nat then
         kv ← load_dict layers;
         m ← lift (max_of_vals (key_val <$> kv.*1));
         lift (lt m (VInt 10))
       else mret false
     else mret false);
  loosely_coupled ← lift (lt density (literal 2 10));
  no_god_objects ←
    (if has_hotspots : bool then
       h0 ← list_head hotspots; d ← getitem h0 "in_degree";
       lift (lt d (VInt 30))
     else mret true);
  metrics ← alloc (ODict [(KStr "health_score", health_floor);
                          (KStr "health_grade", VStr health_grade);
                          (KStr "fragility_score", fragility_cap);
                          (KStr "density", density);
                          (KStr "cycle_free", VBool cycle_free);
                          (KStr "well_layered", VBool well_layered);
                          (KStr "loosely_coupled", VBool loosely_coupled);
                          (KStr "no_god_objects", VBool no_god_objects)]);
  mret (VRef metrics).

Definition generate_recommendations (self import_graph cycles hotspots layers : val)
  : M val :=
  recommendations ← alloc (OList []);
  density ← graph_density import_graph;
  has_cycles ← truthy cycles;
  (if has_cycles : bool then
     n ← len cycles;
     if (0 <? n)%nat
     then list_append recommendations (VStr (cycle_breaking n))
     else mret ()
   else mret ());;
  dense ← lift (lt (literal 3 10) density);
  (if dense : bool then
     d ← lift (to_float density);
     list_append recommendations (VStr (coupling_reduction (F := Q) d))
   else mret ());;
  has_hotspots ← truthy hotspots;
  (if has_hotspots : bool then
     n ← len hotspots;
     if (0 <? n)%nat then
       h0 ← list_head hotspots; d ← getitem h0 "in_degree";
       high ← lift (lt (VInt 30) d);
       if high : bool then
         h0 ← list_head hotspots; i ← getitem h0 "id"; i ← lift (to_str i);
         h0 ← list_head hotspots; d ← getitem h0 "in_degree"; d ← lift (to_str d);
         list_append recommendations
           (VStr ("Refactor hotspot '" +:+ i +:+ "' with " +:+ d +:+ " dependencies"))
       else mret ()
     else mret ()
   else mret ());;
  has_layers ← truthy layers;
  (if has_layers : bool then
     n ← len layers;
     if (n <=? 2)%nat
     then list_append recommendations (VStr layering_suggestion)
     else mret ()
   else mret ());;
  mret (VRef recommendations).

(** [len([h for h in hotspots if h.get(k, 0) > bound])] *)
Definition count_above (hotspots : val) (k : string) (bound : Z) : M val :=
  hs ← load_list hotspots;
  selected ← fold_for hs (λ acc h,
    x ← dict_get h k (VInt 0);
    above ← lift (lt (VInt bound) x);
    mret (if above : bool then acc ++ [h] else acc)) [];
  comprehension ← alloc (OList selected);
  n ← len (VRef comprehension);
  mret (VInt (Z.of_nat n)).

(** The dictionary [insights] of [interpret_graph_summary]. *)
Definition build_insights (graph_data : val) : M loc :=
  dflt ← alloc (ODict []);
  stats ← dict_get graph_data "statistics" (VRef dflt);
  density ← dict_get stats "graph_density" (VInt 0);
  dflt ← alloc (OList []);
  hotspots ← dict_get graph_data "top_hotspots" (VRef dflt);
  high ← lift (lt (literal 3 10) density);
  coupling_level ←
    (if high : bool then mret "high"
     else medium ← lift (lt (literal 1 10) density);
          mret (if medium : bool then "medium" else "low"));
  potential_god_objects ← count_above hotspots "in_degree" 30;
  highly_connected ← count_above hotspots "total_connections" 20;
  alloc (ODict [(KStr "coupling_level", VStr coupling_level);
                (KStr "potential_god_objects", potential_god_objects);
                (KStr "highly_connected", highly_connected)]).

Definition interpret_graph_summary (self graph_data : val) : M val :=
  insights ← build_insights graph_data;
  target ← lift (as_loc graph_data);
  setitem target "architectural_insights" (VRef insights);;
  mret graph_data.

(** *** Building the arguments, reading the results *)

Definition new_dict (kv : list (string * val)) : M val :=
  l ← alloc (ODict ((λ e, (KStr e.1, e.2)) <$> kv)); mret (VRef l).
Definition new_list (xs : list val) : M val :=
  l ← alloc (OList xs); mret (VRef l).

Definition optional (k : string) (o : option Z) : list (string * val) :=
  match o with Some z => [(k, VInt z)] | None => [] end.

Definition new_node (n : Node) : M val :=
  new_dict ([("id", VStr (node_id n))] ++ optional "churn" (node_churn n)
            ++ optional "loc" (node_loc n)).
Definition new_edge (e : Edge) : M val :=
  new_dict [("source", VStr (source e)); ("target", VStr (target e))].
Definition new_graph (g : Graph) : M val :=
  ns ← map_for (nodes g) new_node;
  es ← map_for (edges g) new_edge;
  ns ← new_list ns;
  es ← new_list es;
  new_dict [("nodes", ns); ("edges", es)].
Definition new_weights (w : gmap string Q) : M val :=
  new_dict ((λ e, (e.1, VFloat e.2)) <$> map_to_list w).
Definition new_cycle (c : Cycle) : M val :=
  ns ← new_list (VStr <$> cycle_nodes c);
  new_dict [("nodes", ns); ("size", VInt (cycle_size c))].
Definition new_hotspot (h : Hotspot Q) : M val :=
  new_dict [("id", VStr (h_id h)); ("in_degree", VInt (h_in_degree h));
            ("out_degree", VInt (h_out_degree h)); ("centrality", VFloat (h_centrality h));
            ("churn", VInt (h_churn h)); ("loc", VInt (h_loc h));
            ("score", VFloat (h_score h))].
Definition new_layers (ls : Layers) : M val :=
  entries ← map_for ls (λ kv, l ← new_list (VStr <$> kv.2); mret (kv.1, l));
  l ← alloc (ODict entries); mret (VRef l).
(** An optional argument: [None] or a new list of the given objects. *)
Definition new_optional {A} (new : A → M val) (o : option (list A)) : M val :=
  match o with
  | Some xs => vs ← map_for xs new; new_list vs
  | None => mret VNone
  end.

Definition as_int (v : val) : option Z :=
  match v with VInt z => Some z | _ => None end.
Definition as_bool (v : val) : option bool :=
  match v with VBool b => Some b | _ => None end.

Definition read_hotspot (v : val) : M (Hotspot Q) :=
  i ← getitem v "id"; i ← lift (as_str i);
  ind ← getitem v "in_degree"; ind ← lift (as_int ind);
  outd ← getitem v "out_degree"; outd ← lift (as_int outd);
  cent ← getitem v "centrality"; cent ← lift (to_float cent);
  churn ← getitem v "churn"; churn ← lift (as_int churn);
  loc ← getitem v "loc"; loc ← lift (as_int loc);
  score ← getitem v "score"; score ← lift (to_float score);
  mret {| h_id := i; h_in_degree := ind; h_out_degree := outd; h_centrality := cent;
          h_churn := churn; h_loc := loc; h_score := score |}.
Definition read_hotspots (v : val) : M (list (Hotspot Q)) :=
  xs ← load_list v; map_for xs read_hotspot.
Definition read_strings (v : val) : M (list string) :=
  xs ← load_list v; map_for xs (λ x, lift (as_str x)).
Definition read_metrics (v : val) : M (HealthMetrics Q) :=
  hs ← getitem v "health_score"; hs ← lift (to_float hs);
  hg ← getitem v "health_grade"; hg ← lift (as_str hg);
  fs ← getitem v "fragility_score"; fs ← lift (to_float fs);
  d ← getitem v "density"; d ← lift (to_float d);
  cf ← getitem v "cycle_free"; cf ← lift (as_bool cf);
  wl ← getitem v "well_layered"; wl ← lift (as_bool wl);
  lc ← getitem v "loosely_coupled"; lc ← lift (as_bool lc);
  ng ← getitem v "no_god_objects"; ng ← lift (as_bool ng);
  mret {| health_score := hs; health_grade := hg; fragility_score := fs;
          hm_density := d; cycle_free := cf; well_layered := wl;
          loosely_coupled := lc; no_god_objects := ng |}.

(** The value a computation returns on the empty store. *)
Definition result {A} (m : M A) : option A := fst <$> m [].

(** *** The frame of a computation *)

(** Started on a store whose first [n0] locations are taken, the
    computation only extends the store, leaves every object below [n0]
    as it was, and returns a value satisfying [post]. *)
Definition preserves {A} (n0 : nat) (m : M A) (post : A → Prop) : Prop :=
  ∀ h a h', n0 ≤ length h → m h = Some (a, h') →
    length h ≤ length h' ∧ (∀ l, l < n0 → h' !! l = h !! l) ∧ post a.

(** Every object of the store [h] is the same object in [h']. *)
Definition unchanged (h h' : heap) : Prop :=
  ∀ l, l < length h → h' !! l = h !! l.

(** A summary as the analyzer renders it, with two hotspots. *)
Definition new_summary : M val :=
  stats ← new_dict [("graph_density", VFloat (4 # 10)); ("total_nodes", VInt 5)];
  h1 ← new_dict [("id", VStr "core"); ("in_degree", VInt 40);
                 ("total_connections", VInt 45)];
  h2 ← new_dict [("id", VStr "leaf"); ("in_degree", VInt 3)];
  hs ← new_list [h1; h2];
  new_dict [("statistics", stats); ("top_hotspots", hs)].

(** The store holding that summary, and the summary's location. *)
Definition summary_store : heap := default [] (snd <$> new_summary []).
Definition summary_loc : loc := 4.

(** The store holding the chain graph (at location 8) and the default
    weights (at location 9). *)
Definition ranking_store : heap :=
  default [] (snd <$> (g ← new_graph chain_graph; new_weights DEFAULT_WEIGHTS) []).
Definition ranking_graph : val := VRef 8.
Definition ranking_weights : val := VRef 9.
End Store.

(* ===================================================================== *)
(** ** The rest of the module: enrichment and the module-level functions *)
(* ===================================================================== *)

(** A hotspot of an already rendered summary, through the two keys that
    [interpret_graph_summary] reads; an absent key is [None]
    ([h.get("in_degree", 0)]). *)
Record SummaryHotspot := {
  sh_in_degree : option Z;
  sh_total_connections : option Z;
}.

(** The dictionary [insights]. *)
Record Insights := {
  coupling_level : string;
  potential_god_objects : nat;
  highly_connected : nat;
}.

Section Interpretation.
Context {F : Type} `{PyFloat F}.

(** The summary through the keys that are read:
    [graph_data.get("statistics", {}).get("graph_density", 0)] and
    [graph_data.get("top_hotspots", [])]. *)
Record GraphData := {
  gd_graph_density : option F;
  gd_top_hotspots : list SummaryHotspot;
}.

(** The value stored under [graph_data["architectural_insights"]]. *)
Definition architectural_insights (graph_data : GraphData) : Insights :=
  let density := default (of_int 0) (gd_graph_density graph_data) in
  let hotspots := gd_top_hotspots graph_data in
  {| coupling_level :=
       if flt (lit 3 10) density then "high"
       else if flt (lit 1 10) density then "medium"
       else "low";
     potential_god_objects :=
       length (filter (λ h, (30 < default 0 (sh_in_degree h))%Z) hotspots);
     highly_connected :=
       length (filter (λ h, (20 < default 0 (sh_total_connections h))%Z) hotspots) |}.

(** The functional reading of [interpret_graph_summary]: the summary it was
    given, and the field it adds. *)
Definition interpret_graph_summary (self : GraphInsights F) (graph_data : GraphData)
  : GraphData * Insights :=
  (graph_data, architectural_insights graph_data).

(** A record built by [rank_hotspots], read through the same two keys: it
    has the key [in_degree] and no key [total_connections]. *)
Definition rendered (h : Hotspot F) : SummaryHotspot :=
  {| sh_in_degree := Some (h_in_degree h); sh_total_connections := None |}.

(** [check_insights_available] *)
Definition check_insights_available : bool := true.

(** [create_insights(weights)] *)
Definition create_insights (weights : option (gmap string F)) : GraphInsights F :=
  __init__ weights.
End Interpretation.

Arguments GraphData : clear implicits.

(** A simple directed graph over its node list: the node ids are pairwise
    distinct, every edge joins two different listed nodes, and no edge
    occurs twice. *)
Definition simple_graph (g : Graph) : Prop :=
  NoDup (node_id <$> nodes g)
  ∧ NoDup ((λ e, (source e, target e)) <$> edges g)
  ∧ Forall (λ e, source e ≠ target e
                 ∧ source e ∈ node_id <$> nodes g
                 ∧ target e ∈ node_id <$> nodes g) (edges g).

(** The edges of both graphs that [rank_hotspots] counts. *)
Definition counted_edges (import_graph : Graph) (call_graph : option Graph) : list Edge :=
  edges import_graph ++ match call_graph with Some cg => edges cg | None => [] end.

(** Three layers with integer keys, and a chain of four nodes as hotspots
    would see it. *)
Definition three_layers : Layers :=
  [(KInt 0, ["a"]); (KInt 1, ["b"]); (KInt 2, ["c"; "d"])].

(** The two degree counters when the loops of [rank_hotspots] over the
    edges end: [(in_degree, out_degree)]. *)
Definition degree_counters (import_graph : Graph) (call_graph : option Graph)
  : gmap string Z * gmap string Z :=
  count_degrees (∅, ∅) (counted_edges import_graph call_graph).

#[global] Instance simple_graph_dec (g : Graph) : Decision (simple_graph g).
Proof. unfold simple_graph. apply _. Defined.

(** A reference to an object that did not exist when the store held [n0]
    objects. *)
Definition new_object (n0 : nat) (r : Store.val) : Prop :=
  ∃ l, r = Store.VRef l ∧ n0 ≤ l.

(** The summary held in [Store.summary_store], in the functional reading. *)
Definition rendered_summary : GraphData Q :=
  {| gd_graph_density := Some (4 # 10)%Q;
     gd_top_hotspots :=
       [ {| sh_in_degree := Some 40%Z; sh_total_connections := Some 45%Z |};
         {| sh_in_degree := Some 3%Z; sh_total_connections := None |} ] |}.

(** The finite reading of a record: its integers, with the two floats
    replaced by the given score. *)
Definition with_score (s : Q) (h : Hotspot XQ) : Hotspot Q :=
  {| h_id := h_id h; h_in_degree := h_in_degree h; h_out_degree := h_out_degree h;
     h_centrality := 0%Q; h_churn := h_churn h; h_loc := h_loc h; h_score := s |}.

(** A supplied top hotspot whose score is not a number, on [XQ] and on
    binary64. *)
Definition nan_hotspot : Hotspot XQ :=
  {| h_id := "x"; h_in_degree := 0; h_out_degree := 0; h_centrality := of_int 0;
     h_churn := 0; h_loc := 0; h_score := XNaN |}.

Definition nan_hotspot64 : Hotspot float :=
  {| h_id := "x"; h_in_degree := 0; h_out_degree := 0; h_centrality := of_int 0;
     h_churn := 0; h_loc := 0; h_score := PrimFloat.nan |}.

(** Finite values of [XQ] that are positive, and that are not negative. *)
Definition XQ_positive (x : XQ) : Prop := ∃ q, x = XNum q ∧ (0 < q)%Q.
Definition XQ_nonneg (x : XQ) : Prop := ∃ q, x = XNum q ∧ (0 <= q)%Q.

(* ********************************************************************* *)
(** * Theorems *)
(* ********************************************************************* *)

(* ===================================================================== *)
(** ** Exact arithmetic: the comparisons of the instance [Q_float] *)
(* ===================================================================== *)

Lemma Qltb_spec (a b : Q) : if Qltb a b then (a < b)%Q else (b <= a)%Q.
Proof.
  unfold Qltb. destruct (Qle_bool b a) eqn:E; simpl.
  - by apply Qle_bool_iff.
  - apply Qnot_le_lt. intros Hle. apply Qle_bool_iff in Hle. congruence.
Qed.

Lemma Qle_bool_spec (a b : Q) : if Qle_bool a b then (a <= b)%Q else (b < a)%Q.
Proof.
  destruct (Qle_bool a b) eqn:E.
  - by apply Qle_bool_iff.
  - apply Qnot_le_lt. intros Hle. apply Qle_bool_iff in Hle. congruence.
Qed.

(** Unfold the interface at [Q] and split on every comparison. *)
Ltac q_unfold :=
  cbv [fadd fsub fmul fdiv flt fle of_int Q_float lit fmin fmax] in *.
Ltac q_cases :=
  repeat match goal with
    | |- context [Qltb ?a ?b] =>
        let H := fresh "Hcmp" in pose proof (Qltb_spec a b) as H; destruct (Qltb a b)
    | |- context [Qle_bool ?a ?b] =>
        let H := fresh "Hcmp" in pose proof (Qle_bool_spec a b) as H; destruct (Qle_bool a b)
    end.

Lemma inject_Z_nonneg (z : Z) : (0 ≤ z)%Z → (0 <= inject_Z z)%Q.
Proof. intros Hz. change 0%Q with (inject_Z 0). by rewrite <- Zle_Qle. Qed.

Lemma inject_Z_pos (z : Z) : (0 < z)%Z → (0 < inject_Z z)%Q.
Proof. intros Hz. change 0%Q with (inject_Z 0). by rewrite <- Zlt_Qlt. Qed.

Lemma Qdiv_nonneg (a b : Q) : (0 <= a)%Q → (0 < b)%Q → (0 <= a / b)%Q.
Proof. intros Ha Hb. apply Qle_shift_div_l; [done | lra]. Qed.

Lemma Qdiv_le_1 (a b : Q) : (a <= b)%Q → (0 < b)%Q → (a / b <= 1)%Q.
Proof. intros Ha Hb. apply Qle_shift_div_r; [done | lra]. Qed.

(* ===================================================================== *)
(** ** The order laws hold for the three instances *)
(* ===================================================================== *)

#[export] Instance Q_order : FloatOrder Q.
Proof.
  split; unfold is_number; cbn [flt fle Q_float].
  - intros a b Hlt. pose proof (Qltb_spec a b) as H. rewrite Hlt in H.
    apply Qle_bool_iff. lra.
  - intros a b Hlt. pose proof (Qltb_spec a b) as H. rewrite Hlt in H.
    pose proof (Qle_bool_spec b a) as H'. destruct (Qle_bool b a); [lra | done].
  - intros a b _ _ Hlt. pose proof (Qltb_spec a b) as H. rewrite Hlt in H.
    by apply Qle_bool_iff.
  - intros a b c Hab%Qle_bool_iff Hbc%Qle_bool_iff. apply Qle_bool_iff. lra.
  - intros a b _. split; apply Qle_bool_iff; lra.
Qed.

#[export] Instance XQ_order : FloatOrder XQ.
Proof.
  split; unfold is_number; cbn [flt fle XQ_float].
  - intros [x|s|] [y|t|]; cbn;
      first [exact (flt_fle (F := Q) x y) | by destruct_all bool].
  - intros [x|s|] [y|t|]; cbn;
      first [exact (flt_not_fle (F := Q) x y) | by destruct_all bool].
  - intros [x|s|] [y|t|]; cbn;
      first [exact (not_flt_fle (F := Q) x y) | by destruct_all bool].
  - intros [x|s|] [y|t|] [z|u|]; cbn;
      first [exact (fle_trans (F := Q) x y z) | by destruct_all bool].
  - intros [x|s|] [y|t|]; cbn;
      first [exact (fle_number (F := Q) x y)
            | by destruct_all bool
            | intros _; split; first [by destruct_all bool | apply Qle_bool_iff; lra]].
Qed.

Lemma SFcompare_rank (x y : spec_float) :
  x ≠ S754_nan → y ≠ S754_nan →
  SFcompare x y = Some (lex_compare (SFrank x) (SFrank y)).
Proof.
  intros Hx Hy. unfold lex_compare.
  destruct x as [s|s| |s m e], y as [t|t| |t n f]; try done;
    try (by destruct s, t); try (by destruct s); try (by destruct t).
  destruct s, t; cbn [SFcompare SFrank fst snd]; try done.
  change (-1 ?= -1)%Z with Eq. cbv beta iota. f_equal.
  destruct (Z.compare_spec e f), (Z.compare_spec (- e) (- f)); try lia; reflexivity.
Qed.

Lemma lex_compare_Lt a b : lex_compare a b = Lt ↔ lex_lt a b.
Proof.
  unfold lex_compare, lex_lt.
  destruct (Z.compare_spec a.1.1 b.1.1), (Z.compare_spec a.1.2 b.1.2),
    (Z.compare_spec a.2 b.2); split; try done; try lia.
Qed.

Lemma lex_compare_Eq a b : lex_compare a b = Eq ↔ a = b.
Proof.
  unfold lex_compare. destruct a as [[a1 a2] a3], b as [[b1 b2] b3]. cbn [fst snd].
  destruct (Z.compare_spec a1 b1), (Z.compare_spec a2 b2), (Z.compare_spec a3 b3);
    split; try done; try (intros [= ? ? ?]; lia). by subst.
Qed.

Lemma SF_nan_or (x : spec_float) : x = S754_nan ∨ x ≠ S754_nan.
Proof. destruct x; [right | right | left | right]; done. Qed.

Lemma SFltb_rank (x y : spec_float) :
  SFltb x y = true ↔ x ≠ S754_nan ∧ y ≠ S754_nan ∧ lex_lt (SFrank x) (SFrank y).
Proof.
  unfold SFltb. destruct (SF_nan_or x) as [-> | Hx].
  { split; [done | by intros (? & _)]. }
  destruct (SF_nan_or y) as [-> | Hy].
  { split; [by destruct x | by intros (_ & ? & _)]. }
  rewrite SFcompare_rank by done. rewrite <- lex_compare_Lt.
  destruct (lex_compare _ _); split; try done; by intros (_ & _ & ?).
Qed.

Lemma SFleb_rank (x y : spec_float) :
  SFleb x y = true
  ↔ x ≠ S754_nan ∧ y ≠ S754_nan ∧ (lex_lt (SFrank x) (SFrank y) ∨ SFrank x = SFrank y).
Proof.
  unfold SFleb. destruct (SF_nan_or x) as [-> | Hx].
  { split; [done | by intros (? & _)]. }
  destruct (SF_nan_or y) as [-> | Hy].
  { split; [by destruct x | by intros (_ & ? & _)]. }
  rewrite SFcompare_rank by done. rewrite <- lex_compare_Lt, <- lex_compare_Eq.
  destruct (lex_compare _ _); split; try done; try (by intros (_ & _ & [?|?])); auto.
Qed.

#[export] Instance binary64_order : FloatOrder float.
Proof.
  split; unfold is_number; cbn [flt fle binary64]; intros a b;
    [ | | | intros c | ]; rewrite ?ltb_spec, ?leb_spec.
  - rewrite SFltb_rank, SFleb_rank. intros (? & ? & ?). auto.
  - rewrite SFltb_rank. intros (Ha & Hb & Hlt).
    apply not_true_is_false. rewrite SFleb_rank. intros (_ & _ & Hle).
    unfold lex_lt in *. destruct Hle as [Hle | Heq]; [lia | rewrite Heq in Hlt; lia].
  - rewrite !SFleb_rank. intros (Ha & _) (Hb & _) Hlt.
    split; [done |]. split; [done |].
    assert (¬ lex_lt (SFrank (Prim2SF a)) (SFrank (Prim2SF b))) as Hn.
    { intros H. assert (SFltb (Prim2SF a) (Prim2SF b) = true) by (by apply SFltb_rank).
      congruence. }
    unfold lex_lt in *.
    destruct (SFrank (Prim2SF a)) as [[a1 a2] a3], (SFrank (Prim2SF b)) as [[b1 b2] b3].
    cbn [fst snd] in *.
    destruct (decide ((b1, b2, b3) = (a1, a2, a3))) as [Heq | Hne]; [by right | left].
    assert (b1 ≠ a1 ∨ b2 ≠ a2 ∨ b3 ≠ a3)
      by (destruct (decide (b1 = a1)), (decide (b2 = a2)), (decide (b3 = a3));
          subst; tauto).
    lia.
  - rewrite !SFleb_rank. intros (Ha & Hb & Hab) (_ & Hc & Hbc).
    split; [done |]. split; [done |]. unfold lex_lt in *.
    destruct Hab as [Hab | ->]; [| done]. destruct Hbc as [Hbc | <-]; [| by left].
    left. lia.
  - rewrite !SFleb_rank. intros (Ha & Hb & _). by repeat split; try right.
Qed.

(* ===================================================================== *)
(** ** Impact ratio *)
(* ===================================================================== *)

(** C3, as stated, fails: an impacted set larger than [total_nodes] gives a
    ratio above 1 (here 2 impacted nodes, [total_nodes = 1], ratio 2). *)
Lemma impact_ratio_above_one :
  ¬ (calculate_impact_ratio (F := Q) (__init__ None) ["a"] {["a"; "b"]} 1 <= 1)%Q.
Proof. vm_compute. intros Hle. by apply Hle. Qed.

(** On binary64 the same call returns 2.0. *)
Example impact_ratio_binary64 :
  calculate_impact_ratio (F := float) (__init__ None) ["a"] {["a"; "b"]} 1 = of_int 2.
Proof. by vm_compute. Qed.

(** C3 (amended): for a non-negative [total_nodes] the result is
    [|impacted| / total_nodes] (0 when [total_nodes = 0]) and is
    non-negative; it is at most 1 whenever [|impacted| ≤ total_nodes]. *)
Theorem impact_ratio_spec (self : GraphInsights Q) (targets : list string)
    (all_impacted : gset string) (total_nodes : Z) :
  (0 ≤ total_nodes)%Z →
  let r := calculate_impact_ratio (F := Q) self targets all_impacted total_nodes in
  (r == if decide (total_nodes = 0)%Z then 0
        else inject_Z (Z.of_nat (size all_impacted)) / inject_Z total_nodes)%Q
  ∧ (0 <= r)%Q
  ∧ ((Z.of_nat (size all_impacted) ≤ total_nodes)%Z → (r <= 1)%Q).
Proof.
  intros Hnn r. subst r. unfold calculate_impact_ratio. q_unfold.
  destruct (Z.eqb_spec total_nodes 0) as [->|Hne].
  - rewrite decide_True by done. change (inject_Z 0) with 0%Q.
    repeat split; [lra | intros _; lra].
  - rewrite decide_False by done.
    assert (0 < inject_Z total_nodes)%Q as Hpos by (apply inject_Z_pos; lia).
    repeat split.
    + apply Qdiv_nonneg; [apply inject_Z_nonneg; lia | done].
    + intros Hle. apply Qdiv_le_1; [by rewrite <- Zle_Qle | done].
Qed.

Lemma impact_ratio_spec_witness :
  (0 <= calculate_impact_ratio (F := Q) (__init__ None) [] {["a"; "b"]} 4
   ∧ calculate_impact_ratio (F := Q) (__init__ None) [] {["a"; "b"]} 4 <= 1)%Q.
Proof.
  pose proof (impact_ratio_spec (__init__ None) [] {["a"; "b"]} 4) as Hspec.
  destruct Hspec as (_ & Hnonneg & Hle); [lia |].
  split; [exact Hnonneg | apply Hle; vm_compute; discriminate].
Defined.

(* ===================================================================== *)
(** ** Health scorer *)
(* ===================================================================== *)

Lemma graph_density_nonneg (g : Graph) : (0 <= graph_density (F := Q) g)%Q.
Proof.
  unfold graph_density. q_unfold.
  set (n := Z.of_nat (length (nodes g))). set (e := Z.of_nat (length (edges g))).
  assert (0 ≤ e)%Z by lia.
  destruct (Z.ltb_spec 1 n).
  - destruct (Z.ltb_spec 0 (n * (n - 1))); [| change (inject_Z 0) with 0%Q; lra].
    apply Qdiv_nonneg; [by apply inject_Z_nonneg | by apply inject_Z_pos].
  - simpl. apply Qdiv_nonneg; [by apply inject_Z_nonneg | reflexivity].
Qed.

Lemma count_nonneg (cycles : option (list Cycle)) : (0 ≤ count cycles)%Z.
Proof. unfold count. lia. Qed.

Lemma penalized_health_le_100 (g : Graph) cycles (hotspots : option (list (Hotspot Q))) :
  (penalized_health g cycles hotspots <= 100)%Q.
Proof.
  unfold penalized_health, density_penalty. q_unfold.
  pose proof (graph_density_nonneg g) as Hd. pose proof (count_nonneg cycles) as Hc.
  set (d := graph_density g) in *.
  assert (0 <= inject_Z (cycle_penalty cycles))%Q as Hcp
    by (apply inject_Z_nonneg; unfold cycle_penalty; lia).
  set (cp := inject_Z (cycle_penalty cycles)) in *. clearbody cp d.
  assert (∀ h0 : Hotspot Q, (50 < h_in_degree h0)%Z → (0 <= inject_Z (hotspot_penalty h0))%Q) as Hhp.
  { intros h0 Hz. apply inject_Z_nonneg. apply Z.min_glb; [|lia].
    apply Z.div_pos; lia. }
  change (inject_Z 100) with 100%Q. change (inject_Z 20) with 20%Q.
  change (inject_Z 3 / inject_Z 10)%Q with (3 # 10)%Q.
  destruct (top_hotspot hotspots) as [h0|];
    [destruct (Z.ltb_spec 50 (h_in_degree h0)) as [Hin|Hin];
       [specialize (Hhp _ Hin); set (hp := inject_Z (hotspot_penalty h0)) in *; clearbody hp |] |];
    destruct (truthy cycles); q_cases; lra.
Qed.

Lemma raw_fragility_lower (g : Graph) cycles (hotspots : option (list (Hotspot Q))) :
  match top_hotspot hotspots with
  | Some h0 => (0 <= h_score h0)%Q
  | None => True
  end →
  (0 <= raw_fragility g cycles hotspots)%Q.
Proof.
  intros Htop. unfold raw_fragility. q_unfold.
  pose proof (graph_density_nonneg g) as Hd. pose proof (count_nonneg cycles) as Hc.
  set (d := graph_density g) in *.
  assert (0 <= inject_Z (Z.min (count cycles * 3) 30))%Q as Hcp
    by (apply inject_Z_nonneg; lia).
  set (cp := inject_Z (Z.min (count cycles * 3) 30)) in *. clearbody cp d.
  change (inject_Z 0) with 0%Q. change (inject_Z 10) with 10%Q.
  change (inject_Z 40) with 40%Q. change (inject_Z 30) with 30%Q.
  change (inject_Z 100) with 100%Q.
  destruct (top_hotspot hotspots) as [h0|]; destruct (truthy cycles); q_cases; lra.
Qed.

(** C5, as stated, fails: the fragility is capped at 100 but has no floor.
    A supplied top hotspot of score [-1] on the empty graph gives
    [min(-1 * 10, 40) + min(0 * 100, 30) = -10]. *)
Lemma fragility_below_zero :
  ∃ r, calculate_health_metrics (__init__ None) empty_graph None
         (Some [negative_hotspot]) None = Some r
       ∧ (fragility_score r == -10)%Q ∧ ¬ (0 <= fragility_score r)%Q.
Proof.
  eexists. split; [reflexivity |]. split; [reflexivity |].
  vm_compute. intros Hle. by apply Hle.
Qed.

(** On binary64 the same call returns a fragility of -10.0. *)
Example fragility_binary64 :
  fragility_score <$> calculate_health_metrics (F := float) (__init__ None) empty_graph
                        None (Some [negative_hotspot]) None
  = Some (of_int (-10)).
Proof. by vm_compute. Qed.

(** A supplied top score that is not a number: the fragility is [nan], and
    [nan <= 100] is false; on [XQ] and on binary64. *)
Example fragility_not_a_number :
  (∃ r, calculate_health_metrics (__init__ None) empty_graph None
          (Some [nan_hotspot]) None = Some r
        ∧ fragility_score r = XNaN
        ∧ fle (fragility_score r) (of_int 100) = false)
  ∧ (∃ r, calculate_health_metrics (__init__ None) empty_graph None
            (Some [nan_hotspot64]) None = Some r
          ∧ is_number (fragility_score r) = false
          ∧ fle (fragility_score r) (of_int 100) = false).
Proof. split; eexists; (split; [reflexivity |]); split; reflexivity. Qed.

Lemma cycle_penalty_range (cycles : option (list Cycle)) :
  (0 ≤ cycle_penalty cycles ≤ 30)%Z.
Proof. unfold cycle_penalty. pose proof (count_nonneg cycles). lia. Qed.

Lemma hotspot_penalty_range {F : Type} `{PyFloat F} (h0 : Hotspot F) :
  (50 < h_in_degree h0)%Z → (5 ≤ hotspot_penalty h0 ≤ 20)%Z.
Proof.
  intros Hin. unfold hotspot_penalty.
  assert (5 ≤ h_in_degree h0 / 10)%Z by (apply Z.div_le_lower_bound; lia). lia.
Qed.

Lemma inject_Z_le_const (z c : Z) : (z ≤ c)%Z → (inject_Z z <= inject_Z c)%Q.
Proof. intros. by rewrite <- Zle_Qle. Qed.

Lemma penalized_health_ge_30 (g : Graph) cycles (hotspots : option (list (Hotspot Q))) :
  (30 <= penalized_health g cycles hotspots)%Q.
Proof.
  unfold penalized_health, density_penalty. q_unfold.
  pose proof (cycle_penalty_range cycles) as [_ Hc%inject_Z_le_const].
  set (d := graph_density g) in *.
  set (cp := inject_Z (cycle_penalty cycles)) in *. clearbody cp d.
  assert (∀ h0 : Hotspot Q, (50 < h_in_degree h0)%Z →
            (inject_Z (hotspot_penalty h0) <= inject_Z 20)%Q) as Hhp.
  { intros h0 Hz. apply inject_Z_le_const. by apply hotspot_penalty_range. }
  change (inject_Z 100) with 100%Q in *. change (inject_Z 20) with 20%Q in *.
  change (inject_Z 30) with 30%Q in *.
  change (inject_Z 3 / inject_Z 10)%Q with (3 # 10)%Q.
  destruct (top_hotspot hotspots) as [h0|];
    [destruct (Z.ltb_spec 50 (h_in_degree h0)) as [Hin|Hin];
       [specialize (Hhp _ Hin); set (hp := inject_Z (hotspot_penalty h0)) in *; clearbody hp |] |];
    destruct (truthy cycles); q_cases; lra.
Qed.

Lemma raw_fragility_le_100 (g : Graph) cycles (hotspots : option (list (Hotspot Q))) :
  (raw_fragility g cycles hotspots <= 100)%Q.
Proof.
  unfold raw_fragility. q_unfold.
  assert (inject_Z (Z.min (count cycles * 3) 30) <= inject_Z 30)%Q as Hcp
    by (apply inject_Z_le_const; lia).
  set (d := graph_density g) in *.
  set (cp := inject_Z (Z.min (count cycles * 3) 30)) in *. clearbody cp d.
  change (inject_Z 0) with 0%Q. change (inject_Z 10) with 10%Q.
  change (inject_Z 40) with 40%Q. change (inject_Z 30) with 30%Q in *.
  change (inject_Z 100) with 100%Q.
  destruct (top_hotspot hotspots) as [h0|]; destruct (truthy cycles); q_cases; lra.
Qed.

(** *** Special values: the scores on [XQ] *)

Lemma fmin_exact (a b : Q) : fmin (XNum a) (XNum b) = XNum (fmin a b).
Proof. unfold fmin. cbn [flt XQ_float Q_float Xlt]. by destruct (Qltb b a). Qed.

Lemma fmax_exact (a b : Q) : fmax (XNum a) (XNum b) = XNum (fmax a b).
Proof. unfold fmax. cbn [flt XQ_float Q_float Xlt]. by destruct (Qltb a b). Qed.

Lemma graph_density_exact (g : Graph) :
  graph_density (F := XQ) g = XNum (graph_density (F := Q) g).
Proof. unfold graph_density. by repeat case_match. Qed.

(** The health score reads integers and the density only: it is a finite
    value between 30 and 100. *)
Lemma penalized_health_exact (g : Graph) cycles (hotspots : option (list (Hotspot XQ))) :
  ∃ p, penalized_health g cycles hotspots = XNum p ∧ (30 <= p ∧ p <= 100)%Q.
Proof.
  exists (penalized_health g cycles (option_map (map (with_score 0%Q)) hotspots)).
  split; [| split; [apply penalized_health_ge_30 | apply penalized_health_le_100]].
  unfold penalized_health, density_penalty. rewrite graph_density_exact.
  assert (top_hotspot (option_map (map (with_score 0%Q)) hotspots)
          = with_score 0 <$> top_hotspot hotspots) as ->
    by (by destruct hotspots as [[|h l]|]).
  change (lit (F := XQ) 3 10) with (XNum (lit (F := Q) 3 10)).
  change (of_int (F := XQ) 100) with (XNum (of_int (F := Q) 100)).
  change (of_int (F := XQ) 20) with (XNum (of_int (F := Q) 20)).
  cbn [flt XQ_float Xlt]. change Qltb with (flt (F := Q)).
  destruct (top_hotspot hotspots) as [h0|]; cbn [fmap option_fmap option_map with_score
                                                   h_in_degree];
    unfold hotspot_penalty; cbn [with_score h_in_degree];
    destruct (truthy cycles), (flt (lit 3 10) (graph_density (F := Q) g));
    try destruct (50 <? h_in_degree h0)%Z; cbn [fsub fmul XQ_float Xsub Xmul];
    rewrite ?fmin_exact; reflexivity.
Qed.

(** The fragility before the cap, by the top score: a finite score and
    [inf] give a finite sum, [-inf] gives [-inf], [nan] gives [nan]. *)
Lemma raw_fragility_special (g : Graph) cycles (hotspots : option (list (Hotspot XQ))) :
  match top_hotspot hotspots with
  | None => raw_fragility g cycles hotspots = XNum (raw_fragility g cycles None)
  | Some h0 =>
      match h_score h0 with
      | XNum s =>
          raw_fragility g cycles hotspots
          = XNum (raw_fragility g cycles (Some [with_score s h0]))
      | XInf false =>
          raw_fragility g cycles hotspots
          = XNum (raw_fragility g cycles (Some [with_score 4 h0]))
      | XInf true => raw_fragility g cycles hotspots = XInf true
      | XNaN => raw_fragility g cycles hotspots = XNaN
      end
  end.
Proof.
  unfold raw_fragility. rewrite graph_density_exact.
  change (of_int (F := XQ) 100) with (XNum (of_int (F := Q) 100)).
  change (of_int (F := XQ) 30) with (XNum (of_int (F := Q) 30)).
  change (of_int (F := XQ) 40) with (XNum (of_int (F := Q) 40)).
  change (of_int (F := XQ) 10) with (XNum (of_int (F := Q) 10)).
  cbn [fmul XQ_float Xmul]. rewrite fmin_exact.
  destruct (top_hotspot hotspots) as [h0|]; cbn [top_hotspot];
    [destruct (h_score h0) as [s|[|]|] |]; destruct (truthy cycles);
    cbn [with_score h_score fmul fadd XQ_float Xmul Xadd]; rewrite ?fmin_exact;
    cbn [fmul fadd XQ_float Xmul Xadd]; reflexivity.
Qed.

(** In every case the cap leaves the sum as it is. *)
Lemma fragility_uncapped (g : Graph) cycles (hotspots : option (list (Hotspot XQ))) :
  fmin (raw_fragility g cycles hotspots) (of_int 100) = raw_fragility g cycles hotspots.
Proof.
  pose proof (raw_fragility_special g cycles hotspots) as Hraw.
  destruct (top_hotspot hotspots) as [h0|]; [destruct (h_score h0) as [s|[|]|] |];
    rewrite Hraw; try reflexivity;
    change (of_int (F := XQ) 100) with (XNum (of_int (F := Q) 100));
    rewrite fmin_exact; f_equal;
    match goal with
    | |- fmin ?x _ = _ =>
        let H := fresh in
        assert (x <= 100)%Q as H by apply raw_fragility_le_100;
        unfold fmin; cbn [flt of_int Q_float];
        let Hc := fresh in
        pose proof (Qltb_spec (inject_Z 100) x) as Hc;
        destruct (Qltb (inject_Z 100) x); [change (inject_Z 100) with 100%Q in Hc; lra | done]
    end.
Qed.

Lemma health_metrics_fields_exact (self : GraphInsights XQ) g cycles hotspots layers r :
  calculate_health_metrics self g cycles hotspots layers = Some r →
  (∃ p, health_score r = XNum p ∧ (30 <= p ∧ p <= 100)%Q)
  ∧ fragility_score r = raw_fragility g cycles hotspots.
Proof.
  unfold calculate_health_metrics. intros Hr.
  destruct (compute_well_layered layers) as [wl|]; [| done].
  cbn [mbind option_bind] in Hr. apply (inj Some) in Hr. subst r.
  cbn [health_score fragility_score]. split; [| apply fragility_uncapped].
  destruct (penalized_health_exact g cycles hotspots) as (p & -> & Hp).
  exists p. split; [| done].
  change (of_int (F := XQ) 0) with (XNum (of_int (F := Q) 0)). rewrite fmax_exact. f_equal.
  unfold fmax. cbn [flt of_int Q_float].
  pose proof (Qltb_spec p (inject_Z 0)) as Hc.
  destruct (Qltb p (inject_Z 0)); [change (inject_Z 0) with 0%Q in Hc; lra | done].
Qed.

(** C5: for every input, also with a top score that is an infinity or not
    a number, the health score lies in [0, 100].  The fragility is at most
    100 whenever no hotspots are supplied or the top score is a number (not
    [nan]), and at least 0 whenever no hotspots are supplied or the top
    score is not negative. *)
Theorem health_metrics_bounds (self : GraphInsights XQ) (g : Graph)
    (cycles : option (list Cycle)) (hotspots : option (list (Hotspot XQ)))
    (layers : option Layers) (r : HealthMetrics XQ) :
  calculate_health_metrics self g cycles hotspots layers = Some r →
  (fle (of_int 0) (health_score r) = true ∧ fle (health_score r) (of_int 100) = true)
  ∧ (match top_hotspot hotspots with
     | Some h0 => is_number (h_score h0) = true
     | None => True
     end → fle (fragility_score r) (of_int 100) = true)
  ∧ (match top_hotspot hotspots with
     | Some h0 => fle (of_int 0) (h_score h0) = true
     | None => True
     end → fle (of_int 0) (fragility_score r) = true).
Proof.
  intros ((p & -> & Hp30 & Hp100) & ->)%health_metrics_fields_exact.
  pose proof (raw_fragility_special g cycles hotspots) as Hraw.
  cbn [fle of_int XQ_float Xle]. split; [| split].
  - split; apply Qle_bool_iff; [change (inject_Z 0) with 0%Q | change (inject_Z 100) with 100%Q];
      lra.
  - destruct (top_hotspot hotspots) as [h0|]; [destruct (h_score h0) as [s|[|]|] |];
      rewrite Hraw; try done; intros _; cbn [Xle]; apply Qle_bool_iff;
      change (inject_Z 100) with 100%Q; apply raw_fragility_le_100.
  - destruct (top_hotspot hotspots) as [h0|]; [destruct (h_score h0) as [s|[|]|] |];
      rewrite Hraw; cbn [Xle negb].
    + intros Hs%Qle_bool_iff. apply Qle_bool_iff, raw_fragility_lower. exact Hs.
    + done.
    + intros _. apply Qle_bool_iff, raw_fragility_lower. cbn. discriminate.
    + done.
    + intros _. by apply Qle_bool_iff, raw_fragility_lower.
Qed.

(** The record is returned whenever the layer keys are integers. *)
Lemma health_metrics_returns (self : GraphInsights Q) g cycles hotspots layers :
  Forall (λ kv, ∃ z, kv.1 = KInt z) (default [] layers) →
  is_Some (calculate_health_metrics self g cycles hotspots layers).
Proof.
  intros Hkeys. unfold calculate_health_metrics.
  assert (is_Some (compute_well_layered layers)) as [wl ->]; [|by eexists].
  destruct layers as [[|kv ls]|]; unfold compute_well_layered; [by eexists | | by eexists].
  destruct (2 <? length (kv :: ls))%nat; [|by eexists].
  assert (is_Some (int_keys (kv :: ls))) as [zs Hzs].
  { unfold int_keys. apply mapM_is_Some. eapply Forall_impl; [exact Hkeys|].
    intros [k v] [z Hz]; simpl in *. subst k. by eexists. }
  rewrite Hzs. cbn [mbind option_bind].
  destruct zs as [|z zs]; [|by eexists].
  unfold int_keys in Hzs. apply length_mapM in Hzs. by simpl in Hzs.
Qed.

Lemma health_metrics_bounds_witness :
  ∃ r : HealthMetrics XQ,
    calculate_health_metrics (__init__ None) triangle (Some [triangle_cycle])
      (Some [busy_hotspot]) (Some two_layers) = Some r
    ∧ (fle (of_int 0) (health_score r) = true ∧ fle (health_score r) (of_int 100) = true)
    ∧ (fle (of_int 0) (fragility_score r) = true
       ∧ fle (fragility_score r) (of_int 100) = true).
Proof.
  assert (is_Some (calculate_health_metrics (F := XQ) (__init__ None) triangle
                     (Some [triangle_cycle]) (Some [busy_hotspot]) (Some two_layers)))
    as [r Hr] by (vm_compute; eexists; reflexivity).
  exists r. split; [exact Hr |].
  destruct (health_metrics_bounds (__init__ None) triangle (Some [triangle_cycle])
              (Some [busy_hotspot]) (Some two_layers) r Hr) as (Hh & Hf & Hf0).
  split; [exact Hh |]. split; [apply Hf0; vm_compute; reflexivity | apply Hf; vm_compute; reflexivity].
Defined.

(** C6: on the triangle with its one cycle the density is 0.5, the cycle
    penalty 5, the density penalty [min((0.5 - 0.3) * 100, 20) = 20], the
    health score 75 and the grade C; in exact arithmetic and on binary64. *)
Theorem triangle_health :
  (∃ r : HealthMetrics Q,
     calculate_health_metrics (__init__ None) triangle (Some [triangle_cycle]) None None
       = Some r
     ∧ (hm_density r == 1 # 2)%Q
     ∧ cycle_penalty (Some [triangle_cycle]) = 5%Z
     ∧ (density_penalty (hm_density r) == 20)%Q
     ∧ (health_score r == 75)%Q
     ∧ health_grade r = "C")
  ∧ (∃ r : HealthMetrics float,
       calculate_health_metrics (__init__ None) triangle (Some [triangle_cycle]) None None
         = Some r
       ∧ hm_density r = 0.5%float
       ∧ density_penalty (hm_density r) = 20%float
       ∧ health_score r = 75%float
       ∧ health_grade r = "C").
Proof.
  split.
  - eexists. split; [reflexivity |]. by vm_compute.
  - eexists. split; [reflexivity |]. by vm_compute.
Qed.

(* ===================================================================== *)
(** ** Recommendation generator *)
(* ===================================================================== *)

Section Recommendations.
Context {F : Type} `{PyFloat F}.

(** The method emits the strings of the rules that fire, in rule order. *)
Lemma generate_recommendations_rules (self : GraphInsights F) g cycles hotspots layers :
  generate_recommendations self g cycles hotspots layers
  = fired (recommendation_rules g cycles hotspots layers).
Proof.
  unfold generate_recommendations, recommendation_rules, fired.
  destruct cycles as [[|c cs]|], (flt (lit 3 10) (graph_density g)),
    (top_hotspot hotspots) as [h0|];
    try destruct (30 <? h_in_degree h0)%Z;
    destruct layers as [[|kv [|kv2 [|kv3 ls]]]|]; reflexivity.
Qed.

Lemma fired_length (rules : list (bool * string)) : length (fired rules) ≤ length rules.
Proof. unfold fired. rewrite length_fmap. apply length_filter. Qed.

Lemma fired_none (rules : list (bool * string)) :
  Forall (λ r, r.1 = false) rules → fired rules = [].
Proof.
  unfold fired. induction 1 as [|[b s] rules Hb _ IH]; [done |].
  simpl in Hb. subst b. rewrite filter_cons_False by done. exact IH.
Qed.

(** C4 (amended): the strings are those of the rules that fire, one per
    rule, in the order cycle-breaking, coupling-reduction, hotspot-refactor,
    layering; the layering rule fires when a layer map of one or two layers
    is supplied.  With cycles present, density above 0.3, a top hotspot of
    in-degree 40 and two layers the result is the four strings in that
    order; it is empty when no rule fires. *)
Theorem recommendations_in_rule_order (self : GraphInsights F) (g : Graph)
    (cycles : option (list Cycle)) (hotspots : option (list (Hotspot F)))
    (layers : option Layers) :
  let result := generate_recommendations self g cycles hotspots layers in
  result = fired (recommendation_rules g cycles hotspots layers)
  ∧ length result ≤ 4
  ∧ (Forall (λ r, r.1 = false) (recommendation_rules g cycles hotspots layers)
     → result = [])
  ∧ (∀ c cs h0 hs' ls,
       cycles = Some (c :: cs) →
       flt (lit 3 10) (graph_density g) = true →
       hotspots = Some (h0 :: hs') → h_in_degree h0 = 40%Z →
       layers = Some ls → length ls = 2 →
       result = [cycle_breaking (length (c :: cs));
                 coupling_reduction (graph_density g);
                 hotspot_refactor h0;
                 layering_suggestion]).
Proof.
  intros result. subst result. rewrite generate_recommendations_rules.
  split; [done |]. split; [apply (fired_length (recommendation_rules _ _ _ _)) |].
  split; [apply fired_none |].
  intros c cs h0 hs' ls -> Hd -> Hin -> Hlen.
  unfold recommendation_rules, fired. rewrite Hd. simpl. rewrite Hin, Hlen. reflexivity.
Qed.
End Recommendations.

(** C4, as stated, fails for the layering rule: an empty layer map has
    layer count [0 ≤ 2], and no suggestion is emitted for it. *)
Lemma no_layering_for_empty_layers :
  (length ([] : Layers) ≤ 2)%nat
  ∧ generate_recommendations (F := Q) (__init__ None) empty_graph None None (Some []) = [].
Proof. split; [simpl; lia | reflexivity]. Qed.

Lemma recommendations_in_rule_order_witness :
  generate_recommendations (F := Q) (__init__ None) dense_graph (Some [triangle_cycle])
    (Some [busy_hotspot]) (Some two_layers)
  = ["Break 1 dependency cycles to improve maintainability";
     "Reduce coupling between modules (current density: 0.40)";
     "Refactor hotspot 'core' with 40 dependencies";
     "Consider introducing more architectural layers for better separation"].
Proof.
  destruct (recommendations_in_rule_order (F := Q) (__init__ None) dense_graph
              (Some [triangle_cycle]) (Some [busy_hotspot]) (Some two_layers))
    as (_ & _ & _ & Hscenario).
  rewrite (Hscenario triangle_cycle [] busy_hotspot [] two_layers);
    reflexivity.
Defined.

(** The same scenario on binary64: [8 / 20] is the double nearest to 0.4. *)
Example recommendations_binary64 :
  generate_recommendations (F := float) (__init__ None) dense_graph (Some [triangle_cycle])
    (Some [busy_hotspot]) (Some two_layers)
  = ["Break 1 dependency cycles to improve maintainability";
     "Reduce coupling between modules (current density: 0.40)";
     "Refactor hotspot 'core' with 40 dependencies";
     "Consider introducing more architectural layers for better separation"].
Proof. by vm_compute. Qed.

(* ===================================================================== *)
(** ** Hotspot ranker *)
(* ===================================================================== *)

Section Ranking.
Context {F : Type} `{PyFloat F}.

Lemma insert_by_score_perm (h : Hotspot F) l : insert_by_score h l ≡ₚ h :: l.
Proof.
  induction l as [|x l IH]; simpl; [done |].
  destruct (flt (h_score h) (h_score x)); [|done].
  rewrite IH. apply Permutation_swap.
Qed.

Lemma sort_by_score_perm (l : list (Hotspot F)) : sort_by_score l ≡ₚ l.
Proof.
  induction l as [|h l IH]; simpl; [done |].
  by rewrite insert_by_score_perm, IH.
Qed.

(** Each record carries the id of the node it was built from. *)
Lemma hotspot_of_id (self : GraphInsights F) ind outd cent n h :
  hotspot_of self ind outd cent n = Some h → h_id h = node_id n.
Proof.
  unfold hotspot_of. intros Hh.
  repeat (match type of Hh with
          | context [weights self !! ?k] => destruct (weights self !! k); [|discriminate]
          end; cbn [mbind option_bind] in Hh).
  apply (inj Some) in Hh. by subst h.
Qed.

Lemma unsorted_hotspots_ids (self : GraphInsights F) ig cg us :
  unsorted_hotspots self ig cg = Some us → h_id <$> us = node_id <$> nodes ig.
Proof.
  unfold unsorted_hotspots.
  destruct (match cg with Some cg0 => _ | None => _ end) as [ind outd].
  intros Hus. apply mapM_Some_1 in Hus.
  induction Hus as [|n h ns hs Hh _ IH]; [done |].
  rewrite !fmap_cons, IH. f_equal. by eapply hotspot_of_id.
Qed.

(** With all five weights configured the ranking returns a list. *)
Lemma rank_hotspots_returns (self : GraphInsights F) ig cg :
  Forall (λ k, is_Some (weights self !! k))
    ["in_degree"; "out_degree"; "centrality"; "churn"; "loc"] →
  is_Some (rank_hotspots self ig cg).
Proof.
  intros Hw. unfold rank_hotspots, unsorted_hotspots.
  destruct (match cg with Some cg0 => _ | None => _ end) as [ind outd].
  apply fmap_is_Some, mapM_is_Some, Forall_forall. intros n _.
  unfold compose, hotspot_of.
  repeat (apply Forall_cons in Hw as [[? ->] Hw]; cbn [mbind option_bind]).
  by eexists.
Qed.
End Ranking.

Section SortedRanking.
Context {F : Type} `{FloatOrder F}.
#[local] Set Default Proof Using "All".

Lemma insert_by_score_HdRel (a h : Hotspot F) l :
  score_ge a h → HdRel score_ge a l → HdRel score_ge a (insert_by_score h l).
Proof.
  intros Hah Hal. destruct l as [|x l]; simpl; [by constructor |].
  destruct (flt (h_score h) (h_score x)); constructor; [|done].
  by inversion Hal.
Qed.

(** Among numbers, a record that is not smaller goes in front and leaves
    the list in descending order. *)
Lemma insert_by_score_sorted (h : Hotspot F) l :
  is_number (h_score h) = true →
  Forall (λ x, is_number (h_score x) = true) l →
  Sorted score_ge l → Sorted score_ge (insert_by_score h l).
Proof.
  intros Hh Hl Hs. induction Hs as [|x l Hs IH Hx]; simpl; [by repeat constructor |].
  apply Forall_cons in Hl as [Hnx Hl].
  destruct (flt (h_score h) (h_score x)) eqn:Hcmp.
  - constructor; [by apply IH |].
    apply insert_by_score_HdRel; [| done]. by apply flt_fle.
  - constructor; [by constructor |]. constructor. by apply not_flt_fle.
Qed.

Lemma sort_by_score_sorted (l : list (Hotspot F)) :
  Forall (λ x, is_number (h_score x) = true) l → Sorted score_ge (sort_by_score l).
Proof.
  induction 1 as [|h l Hh Hl IH]; simpl; [constructor |].
  apply insert_by_score_sorted; [done | by rewrite sort_by_score_perm | done].
Qed.

(** Stability: within one score the insertion keeps the new record first. *)
Lemma insert_by_score_filter (q : F) (h : Hotspot F) l :
  filter (λ x, tie (h_score x) q = true) (insert_by_score h l)
  = filter (λ x, tie (h_score x) q = true) (h :: l).
Proof.
  induction l as [|x l IH]; simpl; [done |].
  destruct (flt (h_score h) (h_score x)) eqn:Hcmp; [|done].
  rewrite (filter_cons _ x (insert_by_score h l)), IH.
  rewrite !(filter_cons _ h), !(filter_cons _ x).
  repeat case_decide; try done. exfalso.
  unfold tie in *.
  repeat match goal with
         | H : _ && _ = true |- _ => apply andb_true_iff in H as [? ?]
         end.
  apply flt_not_fle in Hcmp.
  assert (fle (h_score x) (h_score h) = true) by (by eapply fle_trans).
  congruence.
Qed.

Lemma sort_by_score_stable (q : F) (l : list (Hotspot F)) :
  filter (λ x, tie (h_score x) q = true) (sort_by_score l)
  = filter (λ x, tie (h_score x) q = true) l.
Proof.
  induction l as [|h l IH]; simpl; [done |].
  rewrite insert_by_score_filter, !(filter_cons _ h), IH. done.
Qed.

#[local] Instance score_ge_trans : Transitive (score_ge (F := F)).
Proof. intros a b c Hab Hbc. unfold score_ge in *. by eapply fle_trans. Qed.

(** In a ranking of numbers the head bounds every record. *)
Lemma sort_by_score_head (l : list (Hotspot F)) h0 hs' :
  Forall (λ x, is_number (h_score x) = true) l →
  sort_by_score l = h0 :: hs' →
  Forall (λ h, fle (h_score h) (h_score h0) = true) (h0 :: hs').
Proof.
  intros Hl Heq. pose proof (sort_by_score_sorted l Hl) as Hsorted.
  assert (is_number (h_score h0) = true) as Hh0.
  { rewrite <- (sort_by_score_perm l), Heq in Hl. by apply Forall_cons in Hl as [? _]. }
  rewrite Heq in Hsorted.
  apply Sorted_StronglySorted in Hsorted; [| apply _].
  apply StronglySorted_inv in Hsorted as [_ Hall].
  constructor; [exact Hh0 | exact Hall].
Qed.
End SortedRanking.

Lemma Sorted_adjacent {A} (R : A → A → Prop) (l : list A) i a b :
  Sorted R l → l !! i = Some a → l !! S i = Some b → R a b.
Proof.
  intros Hl. revert i. induction Hl as [|x l Hl IH Hx]; intros i Ha Hb; [done |].
  destruct i as [|i]; simpl in *.
  - apply (inj Some) in Ha. subst x. destruct l as [|y l]; [done |].
    simpl in Hb. apply (inj Some) in Hb. subst y. by inversion Hx.
  - by eapply IH.
Qed.

(** C8, as stated, fails: the scores are doubles, and a score that is not
    a number compares false with everything.  With the finite weights
    [2^1023] for [in_degree] and [-2^1023] for [out_degree], on two nodes
    that each have two edges in and two out, every score is
    [inf + -inf = nan], and the returned list has a neighbouring pair
    without [h[i].score >= h[i+1].score]. *)
Lemma nan_scores_are_not_descending :
  ∃ (hs : list (Hotspot float)) a b,
    rank_hotspots {| weights := overflow_weights |} two_way None = Some hs
    ∧ hs !! 0%nat = Some a ∧ hs !! 1%nat = Some b
    ∧ h_id a = "p" ∧ h_id b = "q"
    ∧ is_number (h_score a) = false ∧ is_number (h_score b) = false
    ∧ fle (h_score b) (h_score a) = false.
Proof. vm_compute. eexists _, _, _. repeat split; reflexivity. Qed.

(** C8: a returned ranking has one record per entry of the node list.
    When every score is a number (no [nan]) it is in descending order of
    score on every adjacent pair and lists the records of equal score in
    their node-list order.  Proved from the laws of the comparisons alone,
    so for exact values and for IEEE doubles alike. *)
Theorem rank_hotspots_sorted {F : Type} `{FloatOrder F} (self : GraphInsights F)
    (import_graph : Graph) (call_graph : option Graph) (hs : list (Hotspot F)) :
  rank_hotspots self import_graph call_graph = Some hs →
  ∃ us,
    unsorted_hotspots self import_graph call_graph = Some us
    ∧ h_id <$> us = node_id <$> nodes import_graph
    ∧ hs ≡ₚ us
    ∧ length hs = length (nodes import_graph)
    ∧ (Forall (λ h, is_number (h_score h) = true) hs →
       (∀ i a b, hs !! i = Some a → hs !! S i = Some b →
                 fle (h_score b) (h_score a) = true)
       ∧ (∀ q, filter (λ h, tie (h_score h) q = true) hs
               = filter (λ h, tie (h_score h) q = true) us)).
Proof.
  unfold rank_hotspots. intros Hhs.
  destruct (unsorted_hotspots self import_graph call_graph) as [us|] eqn:Hus;
    [|discriminate].
  simpl in Hhs. apply (inj Some) in Hhs. subst hs. exists us.
  pose proof (unsorted_hotspots_ids _ _ _ _ Hus) as Hids.
  split; [done |]. split; [done |]. split; [apply sort_by_score_perm |].
  split.
  { rewrite (Permutation_length (sort_by_score_perm us)).
    by rewrite <- (length_fmap h_id), Hids, length_fmap. }
  intros Hnum. rewrite sort_by_score_perm in Hnum. split.
  - intros i a b Ha Hb.
    exact (Sorted_adjacent score_ge _ i a b (sort_by_score_sorted us Hnum) Ha Hb).
  - intros q. apply sort_by_score_stable.
Qed.

Lemma rank_hotspots_sorted_witness :
  ∃ hs : list (Hotspot float),
    rank_hotspots (__init__ None) chain_graph (Some triangle) = Some hs
    ∧ length hs = 4%nat
    ∧ Forall (λ h, is_number (h_score h) = true) hs
    ∧ (∀ i a b, hs !! i = Some a → hs !! S i = Some b →
                fle (h_score b) (h_score a) = true).
Proof.
  assert (is_Some (rank_hotspots (F := float) (__init__ None) chain_graph (Some triangle)))
    as [hs Hhs] by (vm_compute; eexists; reflexivity).
  assert (Forall (λ h, is_number (h_score h) = true) hs) as Hnum
    by (vm_compute in Hhs; apply (inj Some) in Hhs; subst hs; repeat constructor).
  exists hs. split; [exact Hhs |].
  destruct (rank_hotspots_sorted (__init__ None) chain_graph (Some triangle) hs Hhs)
    as (us & _ & _ & _ & Hlen & Hsorted).
  split; [exact Hlen |]. split; [exact Hnum |]. exact (proj1 (Hsorted Hnum)).
Defined.

(* ===================================================================== *)
(** ** Weight configuration *)
(* ===================================================================== *)

Section Weights.
Context {F : Type} `{PyFloat F}.



End Weights.

(** On the triangle every default-weighted score is
    [0.3 * 1 + 0.2 * 1 + 0.3 * 1.0 = 0.8], not zero. *)
Example empty_weights_triangle :
  ∃ hs : list (Hotspot float),
    rank_hotspots (__init__ (Some ∅)) triangle None = Some hs
    ∧ h_score <$> hs = [lit 8 10; lit 8 10; lit 8 10].
Proof. eexists. split; [by vm_compute | by vm_compute]. Qed.

(* ===================================================================== *)
(** ** Summary orchestrator: the cycle statistics *)
(* ===================================================================== *)

Lemma foldl_max_le (z : Z) (zs : list Z) : (z ≤ foldl Z.max z zs)%Z.
Proof.
  revert z. induction zs as [|y zs IH]; intros z; simpl; [done |].
  specialize (IH (z `max` y)%Z). lia.
Qed.

Lemma foldl_max_head (z : Z) (zs : list Z) :
  Forall (λ y, y ≤ z)%Z zs → foldl Z.max z zs = z.
Proof.
  induction 1 as [|y zs Hy _ IH]; simpl; [done |].
  by rewrite Z.max_l.
Qed.

(** In a list sorted by size, largest first, the head has the largest size. *)
Lemma sorted_head_largest (c : Cycle) (cs : list Cycle) :
  Sorted size_ge (c :: cs) → max_default0 (cycle_size <$> (c :: cs)) = cycle_size c.
Proof.
  intros Hs. unfold max_default0. simpl. apply foldl_max_head.
  apply Sorted_StronglySorted in Hs; [|intros x y z; unfold size_ge; lia].
  inversion Hs as [|? ? _ Hall]; subst.
  apply Forall_fmap. by eapply Forall_impl; [exact Hall |].
Qed.

Lemma list_to_set_dedup (l : list string) :
  list_to_set (C := gset string) (remove_dups l) = list_to_set l.
Proof. apply set_eq. intros x. rewrite !elem_of_list_to_set. apply elem_of_remove_dups. Qed.

Section CycleStatistics.
Context {F : Type} `{PyFloat F}.

Lemma summarize_cycles_entry (analyzer : XGraphAnalyzer) (self : GraphInsights F)
    ig cg cs hs (s : Summary F) :
  summarize analyzer self ig cg (Some cs) hs = Some s → s_cycles s = cycles_entry cs.
Proof.
  unfold summarize. intros Hs.
  destruct (match hs with Some hs0 => _ | None => _ end) as [hs'|]; [|discriminate].
  cbn [mbind option_bind] in Hs.
  destruct (calculate_health_metrics _ _ _ _ _) as [hm|]; [|discriminate].
  cbn [mbind option_bind] in Hs. apply (inj Some) in Hs. by subst s.
Qed.

(** C2 (amended): [total] is the number of cycles, [nodes_in_cycles] the
    number of distinct node ids over all cycles, and [largest] the size of
    the first cycle (0 when there is none), which is the largest size when
    the cycles are listed by size, largest first. *)
Theorem summarize_cycle_statistics (analyzer : XGraphAnalyzer)
    (self : GraphInsights F) (import_graph : Graph) (call_graph : option Graph)
    (cycles : list Cycle) (hotspots : option (list (Hotspot F))) (s : Summary F) :
  summarize analyzer self import_graph call_graph (Some cycles) hotspots = Some s →
  total (s_cycles s) = length cycles
  ∧ nodes_in_cycles (s_cycles s)
    = length (remove_dups (concat (cycle_nodes <$> cycles)))
  ∧ largest (s_cycles s) = match cycles with c :: _ => cycle_size c | [] => 0%Z end
  ∧ (Sorted size_ge cycles →
     largest (s_cycles s) = max_default0 (cycle_size <$> cycles)).
Proof.
  intros Hs. rewrite (summarize_cycles_entry _ _ _ _ _ _ _ Hs).
  unfold cycles_entry; cbn [total largest nodes_in_cycles].
  split; [done |]. split.
  { rewrite <- list_to_set_dedup.
    apply size_list_to_set, NoDup_remove_dups. }
  split; [done |].
  intros Hsorted. destruct cycles as [|c cs]; [done |].
  by rewrite (sorted_head_largest c cs Hsorted).
Qed.
End CycleStatistics.

(** C2, as stated, fails for [largest]: with the cycles [size 2; size 3]
    supplied in that order the entry says 2, and the largest cycle has 3. *)
Lemma largest_is_first_not_max :
  ∃ s : Summary Q,
    summarize null_analyzer (__init__ None) empty_graph None (Some unordered_cycles) None
      = Some s
    ∧ largest (s_cycles s) = 2%Z
    ∧ max_default0 (cycle_size <$> unordered_cycles) = 3%Z.
Proof. eexists. split; [reflexivity |]. by vm_compute. Qed.

Lemma summarize_cycle_statistics_witness :
  ∃ s : Summary Q,
    total (s_cycles s) = 2%nat
    ∧ nodes_in_cycles (s_cycles s) = 4%nat
    ∧ largest (s_cycles s) = 3%Z
    ∧ largest (s_cycles s) = max_default0 (cycle_size <$> ordered_cycles).
Proof.
  assert (is_Some (summarize (F := Q) null_analyzer (__init__ None) empty_graph None
                     (Some ordered_cycles) None))
    as [s Hs] by (vm_compute; eexists; reflexivity).
  exists s.
  destruct (summarize_cycle_statistics null_analyzer (__init__ None) empty_graph None
              ordered_cycles None s Hs) as (Htotal & Hnodes & Hlargest & Hmax).
  split; [exact Htotal |]. split; [exact Hnodes |]. split; [exact Hlargest |].
  apply Hmax. repeat constructor. unfold size_ge. simpl. lia.
Defined.

(* ===================================================================== *)
(** ** Centrality engine *)
(* ===================================================================== *)

(** The first loop collects the endpoints of the edges and, per source, the
    targets in edge order. *)
Lemma build_adjacency_spec (es : list Edge) :
  (build_adjacency es).2 = list_to_set (source <$> es) ∪ list_to_set (target <$> es)
  ∧ ∀ s, adj_get (build_adjacency es).1 s = target <$> filter (λ e, source e = s) es.
Proof.
  unfold build_adjacency.
  induction es as [|e es [IHn IHa]] using rev_ind; [by split |].
  rewrite foldl_snoc.
  destruct (foldl _ (∅, ∅) es) as [adj nds]; simpl in *.
  split.
  - rewrite IHn, !fmap_snoc, !list_to_set_snoc_L.
    apply set_eq. intros x. rewrite !elem_of_union, !elem_of_singleton. tauto.
  - intros s. rewrite filter_app, fmap_app. unfold adj_get in *.
    destruct (decide (source e = s)) as [<-|Hne].
    + rewrite lookup_insert_eq. simpl. rewrite IHa.
      by rewrite filter_cons_True by done.
    + rewrite lookup_insert_ne by done. rewrite IHa.
      rewrite (filter_cons_False _ e) by done. by rewrite filter_nil, app_nil_r.
Qed.

Lemma build_adjacency_nodes (g : Graph) : (build_adjacency (edges g)).2 = edge_nodes g.
Proof. apply build_adjacency_spec. Qed.

Lemma build_adjacency_targets (g : Graph) s :
  adj_get (build_adjacency (edges g)).1 s = targets_of g s.
Proof. apply build_adjacency_spec. Qed.

Section ScoreMaps.
Context {F : Type} `{PyFloat F}.

(** A loop that stores [f k] under every key [k] of [l]. *)
Lemma foldl_insert_lookup (f : string → F) (l : list string) (m0 : gmap string F) n :
  foldl (λ m k, <[k := f k]> m) m0 l !! n
  = if decide (n ∈ l) then Some (f n) else m0 !! n.
Proof.
  revert m0. induction l as [|x l IH]; intros m0; cbn [foldl].
  - by rewrite decide_False by apply not_elem_of_nil.
  - rewrite IH. destruct (decide (n ∈ l)) as [Hin|Hnin].
    + by rewrite decide_True by (by right).
    + destruct (decide (x = n)) as [->|Hne].
      * rewrite decide_True by left. by rewrite lookup_insert_eq.
      * rewrite lookup_insert_ne by done.
        rewrite decide_False; [done |]. by intros [->|?]%elem_of_cons.
Qed.

Lemma power_step_lookup adj nodes (scores : gmap string F) n :
  power_step adj nodes scores !! n
  = if decide (n ∈ nodes) then Some (node_score adj nodes scores n) else None.
Proof.
  unfold power_step.
  rewrite (foldl_insert_lookup (node_score adj nodes scores)), lookup_empty.
  destruct (decide (n ∈ nodes)) as [Hin|Hnin].
  - by rewrite decide_True by (by apply elem_of_elements).
  - by rewrite decide_False by (by rewrite elem_of_elements).
Qed.

(** Every round keeps the key set: the keys of [scores] are [nodes]. *)
Lemma power_step_dom adj nodes k n :
  is_Some (Nat.iter k (power_step adj nodes) (initial_scores nodes) !! n) ↔ n ∈ nodes.
Proof.
  destruct k as [|k]; [cbn [Nat.iter nat_rect] | rewrite Nat.iter_succ].
  - unfold initial_scores. rewrite lookup_gset_to_gmap.
    destruct (decide (n ∈ nodes)) as [Hin|Hnin].
    + rewrite option_guard_True by done. split; [done | by eexists].
    + rewrite option_guard_False by done. split; [by intros [? ?] | done].
  - rewrite power_step_lookup.
    destruct (decide (n ∈ nodes)) as [Hin|Hnin].
    + split; [done | by eexists].
    + split; [by intros [? ?] | done].
Qed.
End ScoreMaps.

Lemma Qsum_cons (a : Q) (l : list Q) : Qsum (a :: l) = (a + Qsum l)%Q.
Proof. reflexivity. Qed.

(** The inner loop adds the terms of the sum one by one. *)
Lemma node_score_sum (g : Graph) (scores : gmap string Q) (score : string → Q)
    (l : list string) (n : string) (acc : Q) :
  (∀ s, s ∈ l → score_get scores s == score s)%Q →
  (foldl (λ sc source,
           if bool_decide (n ∈ adj_get (build_adjacency (edges g)).1 source) then
             (sc + damping * score_get scores source
                   / of_int (if decide (length (adj_get (build_adjacency (edges g)).1 source) = 0)%nat
                             then 1%Z
                             else Z.of_nat (length (adj_get (build_adjacency (edges g)).1 source))))%F
           else sc) acc l
   == acc + (85 # 100)
            * Qsum ((λ s, score s / inject_Z (Z.of_nat (length (targets_of g s)) `max` 1))
                      <$> filter (λ s, n ∈ targets_of g s) l))%Q.
Proof.
  revert acc. induction l as [|x l IH]; intros acc Hsc.
  - simpl. ring.
  - cbn [foldl]. rewrite IH by (intros s Hs; apply Hsc; by right).
    rewrite !build_adjacency_targets.
    specialize (Hsc x (ltac:(left))).
    destruct (decide (n ∈ targets_of g x)) as [Hin|Hnin].
    + rewrite bool_decide_eq_true_2, filter_cons_True by done.
      rewrite fmap_cons, Qsum_cons.
      rewrite decide_False by (by destruct (targets_of g x); [inversion Hin |]).
      rewrite Z.max_l by (destruct (targets_of g x); [inversion Hin | simpl; lia]).
      unfold damping. q_unfold. rewrite Hsc.
      change (inject_Z 85 / inject_Z 100)%Q with (85 # 100)%Q.
      unfold Qdiv. ring.
    + rewrite bool_decide_eq_false_2, filter_cons_False by done. reflexivity.
Qed.

Lemma node_score_update (g : Graph) (scores : gmap string Q) (score : string → Q) n :
  (∀ s, s ∈ edge_nodes g → score_get scores s == score s)%Q →
  (node_score (build_adjacency (edges g)).1 (build_adjacency (edges g)).2 scores n
   == update g score n)%Q.
Proof.
  intros Hsc. unfold node_score, update, sources_into.
  rewrite build_adjacency_nodes.
  rewrite (node_score_sum g scores score) by (intros s Hs; apply Hsc; by apply elem_of_elements).
  unfold damping. q_unfold. change (inject_Z 85 / inject_Z 100)%Q with (85 # 100)%Q.
  change (inject_Z 1) with 1%Q. reflexivity.
Qed.

(** The scores after [k] rounds of the loop are the [k]-th synchronous
    iterate of the update rule. *)
Lemma power_rounds_synchronous (g : Graph) (k : nat) (n : string) :
  n ∈ edge_nodes g →
  ∃ q, Nat.iter k (power_step (build_adjacency (edges g)).1 (build_adjacency (edges g)).2)
         (initial_scores (build_adjacency (edges g)).2) !! n = Some q
       ∧ (q == synchronous g k n)%Q.
Proof.
  revert n. induction k as [|k IH]; intros n Hn.
  - exists 1%Q. split; [|done]. cbn [Nat.iter nat_rect]. unfold initial_scores.
    rewrite lookup_gset_to_gmap, option_guard_True; [done |].
    by rewrite build_adjacency_nodes.
  - rewrite Nat.iter_succ. cbn [synchronous]. rewrite power_step_lookup.
    rewrite decide_True by (by rewrite build_adjacency_nodes).
    eexists. split; [reflexivity |].
    apply node_score_update. intros s Hs.
    destruct (IH s Hs) as (q & Hq & Heq). unfold score_get. by rewrite Hq.
Qed.

Lemma power_iteration_unfold {F : Type} `{PyFloat F} (g : Graph) :
  power_iteration (F := F) g
  = Nat.iter iterations
      (power_step (build_adjacency (edges g)).1 (build_adjacency (edges g)).2)
      (initial_scores (build_adjacency (edges g)).2).
Proof. unfold power_iteration. by destruct (build_adjacency (edges g)). Qed.

Lemma power_iteration_dom {F : Type} `{PyFloat F} (g : Graph) n :
  is_Some (power_iteration (F := F) g !! n) ↔ n ∈ edge_nodes g.
Proof. by rewrite power_iteration_unfold, power_step_dom, build_adjacency_nodes. Qed.

(** Normalization changes values only, never the key set. *)
Lemma normalize_lookup_is_Some {F : Type} `{PyFloat F} (scores : gmap string F) n :
  is_Some (normalize scores !! n) ↔ is_Some (scores !! n).
Proof.
  unfold normalize. destruct (decide (scores = ∅)); [done |].
  destruct (max_of _) as [m|]; [|done].
  destruct (flt (of_int 0) m); [|done].
  by rewrite lookup_fmap, fmap_is_Some.
Qed.

(** C1: the node set and the adjacency are those of the edge list alone (a
    node outside every edge has no entry, whatever the node list says); the
    scores start at 1 on every edge node; the loop computes the tenth
    synchronous iterate of
    [(1 - 0.85) + 0.85 * Σ score[s] / max(|adj[s]|, 1)]; the result is its
    normalization. *)
Theorem centrality_power_iteration (g : Graph) :
  (build_adjacency (edges g)).2 = edge_nodes g
  ∧ (∀ s, adj_get (build_adjacency (edges g)).1 s = targets_of g s)
  ∧ (∀ n, is_Some (_calculate_centrality (F := Q) g !! n) ↔ n ∈ edge_nodes g)
  ∧ (∀ n, n ∈ edge_nodes g →
          initial_scores (F := Q) (build_adjacency (edges g)).2 !! n = Some 1%Q)
  ∧ (∀ n, n ∈ edge_nodes g →
          ∃ q, power_iteration g !! n = Some q ∧ (q == synchronous g 10 n)%Q)
  ∧ _calculate_centrality (F := Q) g = normalize (power_iteration g).
Proof.
  split; [apply build_adjacency_nodes |].
  split; [apply build_adjacency_targets |].
  split.
  { intros n. unfold _calculate_centrality.
    by rewrite normalize_lookup_is_Some, power_iteration_dom. }
  split.
  { intros n Hn. unfold initial_scores.
    rewrite lookup_gset_to_gmap, option_guard_True; [done |].
    by rewrite build_adjacency_nodes. }
  split; [|done].
  intros n Hn. rewrite power_iteration_unfold.
  exact (power_rounds_synchronous g iterations n Hn).
Qed.

Lemma centrality_power_iteration_witness :
  ∃ q, power_iteration (F := Q) chain_graph !! "c" = Some q
       ∧ (q == synchronous chain_graph 10 "c")%Q.
Proof.
  destruct (centrality_power_iteration chain_graph) as (_ & _ & _ & _ & Hrounds & _).
  apply Hrounds. by vm_compute.
Defined.

(** A node of the node list that no edge mentions gets no entry. *)
Example isolated_node_has_no_centrality :
  _calculate_centrality (F := Q) chain_graph !! "d" = None
  ∧ plain_node "d" ∈ nodes chain_graph.
Proof. split; [by vm_compute | left]. Qed.

(** *** Normalization *)

Lemma Qsum_nonneg (l : list Q) : Forall (λ x, 0 <= x)%Q l → (0 <= Qsum l)%Q.
Proof.
  induction 1 as [|x l Hx _ IH]; [done |]. rewrite Qsum_cons. lra.
Qed.

Lemma synchronous_pos (g : Graph) (k : nat) (n : string) : (0 < synchronous g k n)%Q.
Proof.
  revert n. induction k as [|k IH]; intros n; [done |].
  cbn [synchronous]. unfold update.
  set (terms := _ <$> sources_into g n).
  assert (0 <= Qsum terms)%Q as Hsum; [|lra].
  apply Qsum_nonneg, Forall_fmap, Forall_forall. intros s _. simpl.
  apply Qdiv_nonneg; [specialize (IH s); lra | apply inject_Z_pos; lia].
Qed.

Lemma power_iteration_pos (g : Graph) n q :
  power_iteration g !! n = Some q → (0 < q)%Q.
Proof.
  intros Hq.
  assert (n ∈ edge_nodes g) as Hn
    by (apply (power_iteration_dom (F := Q)); rewrite Hq; by eexists).
  rewrite power_iteration_unfold in Hq.
  destruct (power_rounds_synchronous g iterations n Hn) as (q' & Hq' & Heq).
  rewrite Hq in Hq'. apply (inj Some) in Hq'. subst q'.
  rewrite Heq. apply synchronous_pos.
Qed.

(** Python's [max] over exact values: an element that bounds all others. *)
Lemma foldl_fmax_spec (x : Q) (xs : list Q) :
  foldl fmax x xs ∈ x :: xs ∧ Forall (λ y, y <= foldl fmax x xs)%Q (x :: xs).
Proof.
  revert x. induction xs as [|y ys IH]; intros x.
  - simpl. split; [left | constructor; [lra | constructor]].
  - cbn [foldl]. destruct (IH (fmax x y)) as [Hin Hall].
    apply Forall_cons in Hall as [Hm Hall].
    assert (x <= fmax x y ∧ y <= fmax x y ∧ (fmax x y = x ∨ fmax x y = y))%Q
      as (Hx & Hy & Hxy).
    { unfold fmax. cbn [flt Q_float]. pose proof (Qltb_spec x y) as Hcmp.
      destruct (Qltb x y); repeat split; try lra; auto. }
    split.
    + apply elem_of_cons in Hin as [->|Hin].
      * destruct Hxy as [->| ->]; [left | right; left].
      * by do 2 right.
    + constructor; [lra |]. constructor; [lra | done].
Qed.

Lemma max_of_spec (xs : list Q) (m : Q) :
  max_of xs = Some m → m ∈ xs ∧ Forall (λ y, y <= m)%Q xs.
Proof.
  destruct xs as [|x xs]; [done |]. simpl. intros Hm. apply (inj Some) in Hm.
  subst m. apply foldl_fmax_spec.
Qed.

Lemma elem_of_values {A} (m : gmap string A) (v : A) :
  v ∈ (map_to_list m).*2 ↔ ∃ k, m !! k = Some v.
Proof.
  rewrite list_elem_of_fmap. split.
  - intros ([k v'] & -> & Hkv). exists k. by apply elem_of_map_to_list.
  - intros (k & Hk). exists (k, v). split; [done |]. by apply elem_of_map_to_list.
Qed.

(** With positive scores the guard [max_score > 0] holds and every score is
    divided by the maximum. *)
Lemma normalize_positive (scores : gmap string Q) :
  scores ≠ ∅ →
  (∀ n q, scores !! n = Some q → 0 < q)%Q →
  ∃ m, max_of (map_to_list scores).*2 = Some m
       ∧ (0 < m)%Q
       ∧ (∃ n, scores !! n = Some m)
       ∧ (∀ n q, scores !! n = Some q → q <= m)%Q
       ∧ normalize scores = (λ v, v / m)%Q <$> scores.
Proof.
  intros Hne Hpos.
  destruct (max_of (map_to_list scores).*2) as [m|] eqn:Hmax.
  2:{ destruct (map_to_list scores) as [|kv l] eqn:Hl; [|done].
      by apply map_to_list_empty_iff in Hl. }
  exists m. apply max_of_spec in Hmax as Hspec. destruct Hspec as [Hin Hall].
  apply elem_of_values in Hin as [n Hn].
  assert (0 < m)%Q as Hm by eauto.
  split; [done |]. split; [done |]. split; [by exists n |]. split.
  - intros n' q Hq. rewrite Forall_forall in Hall. apply Hall, elem_of_values. eauto.
  - unfold normalize. rewrite decide_False by done. rewrite Hmax.
    cbn [flt of_int Q_float]. pose proof (Qltb_spec (inject_Z 0) m) as Hcmp.
    destruct (Qltb (inject_Z 0) m); [done |].
    change (inject_Z 0) with 0%Q in Hcmp. lra.
Qed.

Lemma power_iteration_nonempty {F : Type} `{PyFloat F} (g : Graph) :
  edges g ≠ [] → power_iteration (F := F) g ≠ ∅.
Proof.
  intros Hne Hempty. destruct (edges g) as [|e es] eqn:Hes; [done |].
  assert (source e ∈ edge_nodes g) as Hin.
  { unfold edge_nodes. rewrite Hes, fmap_cons, list_to_set_cons.
    apply elem_of_union_l, elem_of_union_l. by apply elem_of_singleton. }
  apply (power_iteration_dom (F := F)) in Hin as [q Hq].
  by rewrite Hempty, lookup_empty in Hq.
Qed.

Lemma power_iteration_no_edges {F : Type} `{PyFloat F} (g : Graph) :
  edges g = [] → power_iteration (F := F) g = ∅.
Proof.
  intros Hes. apply map_empty. intros n. apply eq_None_not_Some.
  rewrite power_iteration_dom. unfold edge_nodes. rewrite Hes. simpl.
  rewrite elem_of_union. intros [Hn|Hn]; by apply elem_of_empty in Hn.
Qed.

(** C7: with at least one edge the centrality map is non-empty, its
    maximum is 1 and every value lies in [0, 1]; with no edge the map is
    empty; whenever the raw scores have a maximum it is positive, so the
    guard for a zero maximum is never the branch taken. *)
Theorem centrality_normalized (g : Graph) :
  (edges g ≠ [] →
   _calculate_centrality (F := Q) g ≠ ∅
   ∧ (∃ m, max_of (map_to_list (_calculate_centrality g)).*2 = Some m ∧ (m == 1)%Q)
   ∧ (∃ n v, _calculate_centrality g !! n = Some v ∧ (v == 1)%Q)
   ∧ (∀ n v, _calculate_centrality g !! n = Some v → (0 <= v ∧ v <= 1)%Q))
  ∧ (edges g = [] → _calculate_centrality (F := Q) g = ∅)
  ∧ (∀ m, max_of (map_to_list (power_iteration (F := Q) g)).*2 = Some m → (0 < m)%Q).
Proof.
  split; [|split].
  - intros Hedges. unfold _calculate_centrality.
    destruct (normalize_positive (power_iteration g))
      as (m & Hmax & Hm & [nmax Hnmax] & Hle & ->);
      [by apply power_iteration_nonempty | apply power_iteration_pos |].
    assert (∀ n v, ((λ v, v / m)%Q <$> power_iteration g) !! n = Some v →
                   (0 <= v ∧ v <= 1)%Q) as Hbounds.
    { intros n v. rewrite lookup_fmap. intros Hv.
      destruct (power_iteration g !! n) as [q|] eqn:Hq; [|done].
      simpl in Hv. apply (inj Some) in Hv. subst v.
      pose proof (power_iteration_pos g n q Hq). specialize (Hle n q Hq).
      split; [apply Qdiv_nonneg; lra | by apply Qdiv_le_1]. }
    assert (((λ v, v / m)%Q <$> power_iteration g) !! nmax = Some (m / m)%Q) as Hone
      by (by rewrite lookup_fmap, Hnmax).
    assert (m / m == 1)%Q as Hmm by (apply Qmult_inv_r; lra).
    split; [|split; [|split]].
    + intros Hempty. by rewrite Hempty, lookup_empty in Hone.
    + destruct (max_of (map_to_list ((λ v, v / m)%Q <$> power_iteration g)).*2)
        as [m'|] eqn:Hmax'.
      2:{ destruct (map_to_list _) as [|kv l] eqn:Hl in Hmax'; [|done].
          apply map_to_list_empty_iff in Hl. by rewrite Hl, lookup_empty in Hone. }
      exists m'. split; [done |].
      apply max_of_spec in Hmax' as [Hin Hall].
      apply elem_of_values in Hin as [n Hn]. apply Hbounds in Hn.
      rewrite Forall_forall in Hall.
      assert (m / m <= m')%Q by (apply Hall, elem_of_values; eauto).
      lra.
    + by exists nmax, (m / m)%Q.
    + exact Hbounds.
  - intros Hedges. unfold _calculate_centrality.
    rewrite (power_iteration_no_edges g Hedges). unfold normalize.
    by rewrite decide_True.
  - intros m Hmax. apply max_of_spec in Hmax as [Hin _].
    apply elem_of_values in Hin as [n Hn]. by eapply power_iteration_pos.
Qed.

Lemma centrality_normalized_witness :
  _calculate_centrality (F := Q) triangle ≠ ∅
  ∧ (∃ m, max_of (map_to_list (_calculate_centrality triangle)).*2 = Some m ∧ (m == 1)%Q)
  ∧ (∀ n v, _calculate_centrality triangle !! n = Some v → (0 <= v ∧ v <= 1)%Q).
Proof.
  destruct (centrality_normalized triangle) as [Hedges _].
  destruct Hedges as (Hne & Hmax & _ & Hbounds); [discriminate |].
  exact (conj Hne (conj Hmax Hbounds)).
Defined.

(** The same on binary64: the maximum divided by itself is exactly 1. *)
Example centrality_binary64 :
  max_of (map_to_list (_calculate_centrality (F := float) chain_graph)).*2
  = Some (of_int 1).
Proof. by vm_compute. Qed.

(* ===================================================================== *)
(** ** Frame: what the methods leave unchanged *)
(* ===================================================================== *)

Section FrameRules.
Import Store.
Context (n0 : nat).

Lemma run_bind {A B} (m : M A) (k : A → M B) h b h'' :
  (m ≫= k) h = Some (b, h'') ↔ ∃ a h', m h = Some (a, h') ∧ k a h' = Some (b, h'').
Proof.
  unfold mbind, M_bind. destruct (m h) as [[a h']|]; split.
  - intros Hk. by exists a, h'.
  - by intros (? & ? & [= <- <-] & ?).
  - done.
  - by intros (? & ? & ? & ?).
Qed.

Lemma preserves_ret {A} (a : A) (post : A → Prop) :
  post a → preserves n0 (mret a) post.
Proof. intros Hp h a' h' Hn [= <- <-]. done. Qed.

Lemma preserves_bind {A B} (m : M A) (k : A → M B) (P : A → Prop) (Q : B → Prop) :
  preserves n0 m P → (∀ a, P a → preserves n0 (k a) Q) → preserves n0 (m ≫= k) Q.
Proof.
  intros Hm Hk h b h'' Hn (a & h' & Hma & Hkb)%run_bind.
  destruct (Hm h a h' Hn Hma) as (Hlen & Hsame & Hp).
  destruct (Hk a Hp h' b h'' ltac:(lia) Hkb) as (Hlen' & Hsame' & Hq).
  split; [lia |]. split; [|done].
  intros l Hl. by rewrite Hsame', Hsame.
Qed.

(** A computation that never changes the store. *)
Lemma preserves_reader {A} (m : M A) :
  (∀ h a h', m h = Some (a, h') → h' = h) → preserves n0 m (λ _, True).
Proof. intros Hm h a h' Hn Hrun. by rewrite (Hm h a h' Hrun). Qed.

Lemma preserves_raise {A} : preserves n0 (raise (A := A)) (λ _, True).
Proof. by apply preserves_reader. Qed.

Lemma preserves_lift {A} (o : option A) : preserves n0 (lift o) (λ _, True).
Proof. apply preserves_reader. intros h a h'. unfold lift. by destruct o; intros [= _ <-]. Qed.

Lemma preserves_load l : preserves n0 (load l) (λ _, True).
Proof.
  apply preserves_reader. intros h a h'. unfold load.
  by destruct (h !! l); intros [= _ <-].
Qed.

(** A new object lies above every location taken before. *)
Lemma preserves_alloc o : preserves n0 (alloc o) (λ l, n0 ≤ l).
Proof.
  intros h l h' Hn [= <- <-].
  split; [rewrite length_app; lia |]. split; [|done].
  intros l Hl. by rewrite lookup_app_l by lia.
Qed.

(** A write above [n0] changes nothing below it. *)
Lemma preserves_store l o : n0 ≤ l → preserves n0 (store l o) (λ _, True).
Proof.
  intros Hl h a h' Hn. unfold store. destruct (decide (l < length h)); [|done].
  intros Heq. simplify_eq. rewrite length_insert. split; [done |]. split; [|done].
  intros l' Hl'. by rewrite list_lookup_insert_ne by lia.
Qed.

Lemma preserves_fold_for {A B} (xs : list A) (body : B → A → M B) (acc : B) :
  (∀ acc x, preserves n0 (body acc x) (λ _, True)) →
  preserves n0 (fold_for xs body acc) (λ _, True).
Proof.
  intros Hbody. revert acc. induction xs as [|x xs IH]; intros acc; simpl.
  - by apply preserves_ret.
  - eapply preserves_bind; [apply Hbody | intros acc' _; apply IH].
Qed.

Lemma preserves_for_each {A} (xs : list A) (body : A → M unit) :
  (∀ x, preserves n0 (body x) (λ _, True)) →
  preserves n0 (for_each xs body) (λ _, True).
Proof. intros Hbody. apply preserves_fold_for. intros _ x. apply Hbody. Qed.

Lemma preserves_map_for {A B} (xs : list A) (f : A → M B) :
  (∀ x, preserves n0 (f x) (λ _, True)) →
  preserves n0 (map_for xs f) (λ _, True).
Proof.
  intros Hf. apply preserves_fold_for. intros acc x.
  eapply preserves_bind; [apply Hf | intros y _; by apply preserves_ret].
Qed.

Lemma preserves_repeat_for {B} (n : nat) (body : B → M B) (acc : B) :
  (∀ acc, preserves n0 (body acc) (λ _, True)) →
  preserves n0 (repeat_for n body acc) (λ _, True).
Proof.
  intros Hbody. revert acc. induction n as [|n IH]; intros acc; simpl.
  - by apply preserves_ret.
  - eapply preserves_bind; [apply Hbody | intros acc' _; apply IH].
Qed.
End FrameRules.

(** One step through a computation: binds, branches, then the rule of the
    operation at the head. *)
Ltac frame_leaf :=
  first [ apply preserves_alloc
        | apply preserves_lift
        | apply preserves_load
        | apply preserves_raise
        | apply preserves_store; first [assumption | lia]
        | apply preserves_ret; done
        | apply preserves_fold_for; intros ? ?
        | apply preserves_for_each; intros ?
        | apply preserves_map_for; intros ?
        | apply preserves_repeat_for; intros ? ].

Create HintDb frame.

Ltac frame :=
  repeat (cbv beta zeta;
    lazymatch goal with
    | |- Store.preserves ?n (mbind ?k (Store.alloc ?o)) _ =>
        apply (preserves_bind n (Store.alloc o) k (λ l, n ≤ l));
        [apply preserves_alloc | intros ? ?]
    | |- Store.preserves ?n (mbind ?k ?m) _ =>
        apply (preserves_bind n m k (λ _, True)); [| intros ? _]
    | |- Store.preserves _ (match ?x with _ => _ end) _ => destruct x
    | |- Store.preserves _ _ _ => first [frame_leaf | solve [auto with frame]]
    end).

Section FrameOperations.
Import Store.
Context (n0 : nat).

Lemma preserves_load_dict v : preserves n0 (load_dict v) (λ _, True).
Proof. unfold load_dict. frame. Qed.

Lemma preserves_load_list v : preserves n0 (load_list v) (λ _, True).
Proof. unfold load_list. frame. Qed.

Hint Resolve preserves_load_dict preserves_load_list : frame.

Lemma preserves_dict_get d k dflt : preserves n0 (dict_get d k dflt) (λ _, True).
Proof. unfold dict_get. frame. Qed.

Lemma preserves_getitem d k : preserves n0 (getitem d k) (λ _, True).
Proof. unfold getitem. frame. Qed.

Lemma preserves_setitem d k v : n0 ≤ d → preserves n0 (setitem d k v) (λ _, True).
Proof. intros Hd. unfold setitem. frame. Qed.

Lemma preserves_dd_int_getitem d k :
  n0 ≤ d → preserves n0 (dd_int_getitem d k) (λ _, True).
Proof. intros Hd. unfold dd_int_getitem. frame. Qed.

Lemma preserves_list_append l v : n0 ≤ l → preserves n0 (list_append l v) (λ _, True).
Proof. intros Hl. unfold list_append. frame. Qed.

Lemma preserves_list_head l : preserves n0 (list_head l) (λ _, True).
Proof. unfold list_head. frame. Qed.

Lemma preserves_adj_append adj s t :
  n0 ≤ adj → preserves n0 (adj_append adj s t) (λ _, True).
Proof. intros Ha. unfold adj_append. frame. Qed.

Lemma preserves_adj_getitem adj s :
  n0 ≤ adj → preserves n0 (adj_getitem adj s) (λ _, True).
Proof. intros Ha. unfold adj_getitem. frame. Qed.

Lemma preserves_set_add nodes s : n0 ≤ nodes → preserves n0 (set_add nodes s) (λ _, True).
Proof. intros Hn. unfold set_add. frame. Qed.

Lemma preserves_set_elements nodes : preserves n0 (set_elements nodes) (λ _, True).
Proof. unfold set_elements. frame. Qed.

Lemma preserves_len v : preserves n0 (len v) (λ _, True).
Proof. unfold len. frame. Qed.

Hint Resolve preserves_dict_get preserves_getitem preserves_setitem
  preserves_dd_int_getitem preserves_list_append preserves_list_head
  preserves_adj_append preserves_adj_getitem preserves_set_add
  preserves_set_elements preserves_len : frame.

Lemma preserves_truthy v : preserves n0 (truthy v) (λ _, True).
Proof. unfold truthy. frame. Qed.

Lemma preserves_graph_items graph field :
  preserves n0 (graph_items graph field) (λ _, True).
Proof. unfold graph_items. frame. Qed.

Hint Resolve preserves_truthy preserves_graph_items : frame.

Lemma preserves_or_zero x : preserves n0 (or_zero x) (λ _, True).
Proof. unfold or_zero. frame. Qed.

Lemma preserves_node_score adj scores ns node :
  n0 ≤ adj → preserves n0 (node_score adj scores ns node) (λ _, True).
Proof. intros Ha. unfold node_score. frame. Qed.

Lemma preserves_count_degrees graph in_degree out_degree :
  n0 ≤ in_degree → n0 ≤ out_degree →
  preserves n0 (count_degrees graph in_degree out_degree) (λ _, True).
Proof. intros Hi Ho. unfold count_degrees. frame. Qed.

Lemma preserves_sort_desc_by l k : n0 ≤ l → preserves n0 (sort_desc_by l k) (λ _, True).
Proof. intros Hl. unfold sort_desc_by. frame. Qed.

Hint Resolve preserves_or_zero preserves_node_score preserves_count_degrees
  preserves_sort_desc_by : frame.

Lemma preserves_calculate_centrality graph :
  preserves n0 (_calculate_centrality graph) (λ _, True).
Proof. unfold _calculate_centrality. frame. Qed.

Hint Resolve preserves_calculate_centrality : frame.

Lemma preserves_rank_hotspots self import_graph call_graph :
  preserves n0 (rank_hotspots self import_graph call_graph) (λ _, True).
Proof. unfold rank_hotspots. frame. Qed.

Lemma preserves_graph_density import_graph :
  preserves n0 (graph_density import_graph) (λ _, True).
Proof. unfold graph_density. frame. Qed.

Hint Resolve preserves_graph_density : frame.

Lemma preserves_calculate_health_metrics self import_graph cycles hotspots layers :
  preserves n0 (calculate_health_metrics self import_graph cycles hotspots layers)
    (λ _, True).
Proof. unfold calculate_health_metrics. frame. Qed.

Lemma preserves_generate_recommendations self import_graph cycles hotspots layers :
  preserves n0 (generate_recommendations self import_graph cycles hotspots layers)
    (λ _, True).
Proof. unfold generate_recommendations. frame. Qed.

Lemma preserves_count_above hotspots k bound :
  preserves n0 (count_above hotspots k bound) (λ _, True).
Proof. unfold count_above. frame. Qed.

Hint Resolve preserves_count_above : frame.

(** The insights dictionary is a new object. *)
Lemma preserves_build_insights graph_data :
  preserves n0 (build_insights graph_data) (λ l, n0 ≤ l).
Proof. unfold build_insights. frame. Qed.
End FrameOperations.

(* ===================================================================== *)
(** ** The store replay agrees with the functional reading *)
(* ===================================================================== *)

Example store_rank_hotspots_agrees :
  Store.result (g ← Store.new_graph chain_graph;
                cg ← Store.new_graph lower_triangle;
                w ← Store.new_weights DEFAULT_WEIGHTS;
                r ← Store.rank_hotspots w g cg;
                Store.read_hotspots r)
  = rank_hotspots (F := Q) (__init__ None) chain_graph (Some lower_triangle).
Proof. vm_compute. reflexivity. Qed.

Example store_health_metrics_agrees :
  Store.result (g ← Store.new_graph dense_graph;
                w ← Store.new_weights DEFAULT_WEIGHTS;
                c ← Store.new_optional Store.new_cycle (Some [triangle_cycle]);
                h ← Store.new_optional Store.new_hotspot (Some [busy_hotspot]);
                l ← Store.new_layers two_layers;
                r ← Store.calculate_health_metrics w g c h l;
                Store.read_metrics r)
  = calculate_health_metrics (F := Q) (__init__ None) dense_graph (Some [triangle_cycle])
      (Some [busy_hotspot]) (Some two_layers).
Proof. vm_compute. reflexivity. Qed.

Example store_triangle_health_agrees :
  Store.result (g ← Store.new_graph triangle;
                w ← Store.new_weights DEFAULT_WEIGHTS;
                c ← Store.new_optional Store.new_cycle (Some [triangle_cycle]);
                r ← Store.calculate_health_metrics w g c Store.VNone Store.VNone;
                Store.read_metrics r)
  = calculate_health_metrics (F := Q) (__init__ None) triangle (Some [triangle_cycle])
      None None.
Proof. vm_compute. reflexivity. Qed.

Example store_recommendations_agrees :
  Store.result (g ← Store.new_graph dense_graph;
                w ← Store.new_weights DEFAULT_WEIGHTS;
                c ← Store.new_optional Store.new_cycle (Some [triangle_cycle]);
                h ← Store.new_optional Store.new_hotspot (Some [busy_hotspot]);
                l ← Store.new_layers two_layers;
                r ← Store.generate_recommendations w g c h l;
                Store.read_strings r)
  = Some (generate_recommendations (F := Q) (__init__ None) dense_graph
            (Some [triangle_cycle]) (Some [busy_hotspot]) (Some two_layers)).
Proof. vm_compute. reflexivity. Qed.

Section Enrichment.
Import Store.

Lemma dict_lookup_set k k0 v d :
  dict_lookup k (dict_set k0 v d)
  = if decide (k = k0) then Some v else dict_lookup k d.
Proof.
  induction d as [|[k' v'] d IH]; simpl.
  - by destruct (decide (k = k0)).
  - destruct (decide (k0 = k')) as [->|Hne]; simpl.
    + by destruct (decide (k = k')).
    + destruct (decide (k = k')) as [->|Hne'].
      * by rewrite decide_False by done.
      * exact IH.
Qed.

Lemma run_lift {A} (o : option A) h a h' :
  lift o h = Some (a, h') → o = Some a ∧ h' = h.
Proof. unfold lift. destruct o; [|done]. by intros [= -> ->]. Qed.

Lemma run_load_dict v h d h' :
  load_dict v h = Some (d, h') → ∃ l, v = VRef l ∧ h !! l = Some (ODict d) ∧ h' = h.
Proof.
  unfold load_dict.
  intros (l & h1 & [Hv ->]%run_lift & (o & h2 & Hload & Hret)%run_bind)%run_bind.
  destruct v; try done. simpl in Hv. apply (inj Some) in Hv. subst l.
  unfold load in Hload. destruct (h !! _) as [o'|] eqn:Hl; [|done].
  simplify_eq. destruct o; try done.
  unfold mret, M_ret in Hret. simplify_eq. eauto.
Qed.

Lemma run_setitem d k v h u h' :
  setitem d k v h = Some (u, h') →
  ∃ kv, h !! d = Some (ODict kv) ∧ h' = <[d := ODict (dict_set (KStr k) v kv)]> h.
Proof.
  unfold setitem.
  intros (kv & h1 & (l & [= <-] & Hd & ->)%run_load_dict & Hstore)%run_bind.
  exists kv. split; [done |]. unfold store in Hstore.
  destruct (decide (d < length h)); by simplify_eq.
Qed.

(** The enrichment returns its argument, stores one new object under the
    key [architectural_insights] of it, and changes nothing else. *)
Lemma interpret_graph_summary_frame self target h r h' :
  target < length h →
  interpret_graph_summary self (VRef target) h = Some (r, h') →
  r = VRef target
  ∧ ∃ d insights,
      h !! target = Some (ODict d)
      ∧ length h ≤ insights
      ∧ h' !! target
        = Some (ODict (dict_set (KStr "architectural_insights") (VRef insights) d))
      ∧ (∀ l, l < length h → l ≠ target → h' !! l = h !! l).
Proof.
  intros Htarget. unfold interpret_graph_summary.
  intros (ins & h1 & Hbuild & (t & h2 & [[= <-] ->]%run_lift & Hrest)%run_bind)%run_bind.
  apply run_bind in Hrest as (u & h3 & (kv & Hkv & ->)%run_setitem & [= <- <-]).
  destruct (preserves_build_insights (length h) (VRef target) h ins h1 (le_n _) Hbuild)
    as (Hlen & Hsame & Hins).
  rewrite Hsame in Hkv by done.
  split; [done |]. exists kv, ins. split; [done |]. split; [done |]. split.
  - apply list_lookup_insert_eq. lia.
  - intros l Hl Hne. rewrite list_lookup_insert_ne by done. by apply Hsame.
Qed.
End Enrichment.

(** C9: the four analysis methods leave every object of the store as it
    was, so the graph, cycles, hotspots and layers they are given (and what
    these refer to) are unchanged; the enrichment returns the object it was
    given, with the one field [architectural_insights] set to a new object
    and every other field and every other object unchanged. *)
Theorem inputs_unchanged (h : list Store.obj) :
  (∀ self import_graph call_graph r h',
      Store.rank_hotspots self import_graph call_graph h = Some (r, h') →
      Store.unchanged h h')
  ∧ (∀ graph r h',
      Store._calculate_centrality graph h = Some (r, h') → Store.unchanged h h')
  ∧ (∀ self import_graph cycles hotspots layers r h',
      Store.calculate_health_metrics self import_graph cycles hotspots layers h
        = Some (r, h') →
      Store.unchanged h h')
  ∧ (∀ self import_graph cycles hotspots layers r h',
      Store.generate_recommendations self import_graph cycles hotspots layers h
        = Some (r, h') →
      Store.unchanged h h')
  ∧ (∀ self target r h',
      target < length h →
      Store.interpret_graph_summary self (Store.VRef target) h = Some (r, h') →
      r = Store.VRef target
      ∧ ∃ d insights,
          h !! target = Some (Store.ODict d)
          ∧ length h ≤ insights
          ∧ h' !! target
            = Some (Store.ODict
                      (Store.dict_set (KStr "architectural_insights")
                         (Store.VRef insights) d))
          ∧ (∀ k, k ≠ KStr "architectural_insights" →
                  Store.dict_lookup k
                    (Store.dict_set (KStr "architectural_insights")
                       (Store.VRef insights) d)
                  = Store.dict_lookup k d)
          ∧ (∀ l, l < length h → l ≠ target → h' !! l = h !! l)).
Proof.
  split; [|split; [|split; [|split]]].
  - intros self ig cg r h' Hrun.
    by destruct (preserves_rank_hotspots (length h) self ig cg h r h' (le_n _) Hrun)
      as (_ & Hsame & _).
  - intros graph r h' Hrun.
    by destruct (preserves_calculate_centrality (length h) graph h r h' (le_n _) Hrun)
      as (_ & Hsame & _).
  - intros self ig cycles hotspots layers r h' Hrun.
    by destruct (preserves_calculate_health_metrics (length h) self ig cycles hotspots
                   layers h r h' (le_n _) Hrun) as (_ & Hsame & _).
  - intros self ig cycles hotspots layers r h' Hrun.
    by destruct (preserves_generate_recommendations (length h) self ig cycles hotspots
                   layers h r h' (le_n _) Hrun) as (_ & Hsame & _).
  - intros self target r h' Htarget Hrun.
    destruct (interpret_graph_summary_frame self target h r h' Htarget Hrun)
      as (Hr & d & ins & Hd & Hins & Hnew & Hothers).
    split; [done |]. exists d, ins. repeat split; try done.
    intros k Hk. rewrite dict_lookup_set. by rewrite decide_False.
Qed.

Lemma inputs_unchanged_witness :
  (∃ r h',
      Store.rank_hotspots Store.ranking_weights Store.ranking_graph Store.VNone
        Store.ranking_store = Some (r, h')
      ∧ Store.unchanged Store.ranking_store h')
  ∧ ∃ h' insights,
      Store.interpret_graph_summary Store.VNone (Store.VRef Store.summary_loc)
        Store.summary_store
      = Some (Store.VRef Store.summary_loc, h')
      ∧ h' !! Store.summary_loc
        = Some (Store.ODict [(KStr "statistics", Store.VRef 0);
                             (KStr "top_hotspots", Store.VRef 3);
                             (KStr "architectural_insights", Store.VRef insights)])
      ∧ h' !! insights
        = Some (Store.ODict [(KStr "coupling_level", Store.VStr "high");
                             (KStr "potential_god_objects", Store.VInt 1);
                             (KStr "highly_connected", Store.VInt 1)])
      ∧ (∀ l, l < length Store.summary_store → l ≠ Store.summary_loc →
              h' !! l = Store.summary_store !! l).
Proof.
  split.
  - destruct (Store.rank_hotspots Store.ranking_weights Store.ranking_graph Store.VNone
                Store.ranking_store) as [[r h']|] eqn:Hrun;
      [|vm_compute in Hrun; discriminate].
    exists r, h'. split; [reflexivity |].
    destruct (inputs_unchanged Store.ranking_store) as (Hrank & _).
    exact (Hrank _ _ _ r h' Hrun).
  - destruct (Store.interpret_graph_summary Store.VNone (Store.VRef Store.summary_loc)
                Store.summary_store) as [[r h']|] eqn:Hrun;
      [|vm_compute in Hrun; discriminate].
    destruct (inputs_unchanged Store.summary_store) as (_ & _ & _ & _ & Henrich).
    destruct (Henrich Store.VNone Store.summary_loc r h' ltac:(vm_compute; lia) Hrun)
      as (-> & d & ins & Hd & Hins & Hnew & _ & Hothers).
    exists h', 9. split; [reflexivity |].
    vm_compute in Hrun. injection Hrun as Hh'.
    split; [by rewrite <- Hh' |]. split; [by rewrite <- Hh' | exact Hothers].
Defined.

(* ********************************************************************* *)
(** * Further properties of the module *)
(* ********************************************************************* *)

(* ===================================================================== *)
(** ** Health scorer: the clamps, the grade, monotonicity in the cycles *)
(* ===================================================================== *)

(** Neither clamp of the returned record is ever active. *)
Lemma health_metrics_unclamped (self : GraphInsights Q) (g : Graph)
    (cycles : option (list Cycle)) (hotspots : option (list (Hotspot Q)))
    (layers : option Layers) (r : HealthMetrics Q) :
  calculate_health_metrics self g cycles hotspots layers = Some r →
  health_score r = penalized_health g cycles hotspots
  ∧ health_grade r = grade_of (penalized_health g cycles hotspots)
  ∧ fragility_score r = raw_fragility g cycles hotspots.
Proof.
  unfold calculate_health_metrics. intros Hr.
  destruct (compute_well_layered layers) as [wl|]; [| done].
  cbn [mbind option_bind] in Hr. apply (inj Some) in Hr. subst r.
  cbn [health_score health_grade fragility_score].
  pose proof (penalized_health_ge_30 g cycles hotspots) as H30.
  pose proof (raw_fragility_le_100 g cycles hotspots) as H100.
  unfold fmax, fmin. cbv [flt of_int Q_float].
  pose proof (Qltb_spec (penalized_health g cycles hotspots) (inject_Z 0)) as Hc.
  pose proof (Qltb_spec (inject_Z 100) (raw_fragility g cycles hotspots)) as Hc'.
  change (inject_Z 0) with 0%Q in *. change (inject_Z 100) with 100%Q in *.
  destruct (Qltb _ 0); [lra |]. destruct (Qltb 100 _); [lra | done].
Qed.

(** X1. In every record that [calculate_health_metrics] returns the health
    score is at least 30: the three penalties are capped at 30, 20 and 20.
    The floor [max(health_score, 0)] therefore never changes the score, and
    the letter grade, which the code takes before the floor, is the grade
    of the score that is reported. *)
Theorem health_floor_never_applies (self : GraphInsights Q) (g : Graph)
    (cycles : option (list Cycle)) (hotspots : option (list (Hotspot Q)))
    (layers : option Layers) (r : HealthMetrics Q) :
  calculate_health_metrics self g cycles hotspots layers = Some r →
  (30 <= health_score r)%Q
  ∧ health_score r = penalized_health g cycles hotspots
  ∧ health_grade r = grade_of (health_score r).
Proof.
  intros (Hh & Hg & _)%health_metrics_unclamped. rewrite Hg, Hh.
  split; [apply penalized_health_ge_30 | done].
Qed.

Lemma health_floor_never_applies_witness :
  ∃ r : HealthMetrics Q,
    calculate_health_metrics (__init__ None) triangle (Some [triangle_cycle]) None None
         = Some r
       ∧ (30 <= health_score r)%Q
       ∧ health_score r = penalized_health triangle (Some [triangle_cycle]) None
       ∧ health_grade r = grade_of (health_score r).
Proof.
  assert (is_Some (calculate_health_metrics (F := Q) (__init__ None) triangle
                     (Some [triangle_cycle]) None None))
    as [r Hr] by (vm_compute; eexists; reflexivity).
  exists r. split; [exact Hr |].
  exact (health_floor_never_applies (__init__ None) triangle (Some [triangle_cycle])
           None None r Hr).
Defined.

(** X2. The cap [min(fragility, 100)] never changes the fragility: the
    reported value is the plain sum of the three parts, also for a top
    score that is an infinity or [nan].  Whenever no hotspots are supplied
    or the top score is a number, that sum is at most 40 + 30 + 30. *)
Theorem fragility_cap_never_applies (self : GraphInsights XQ) (g : Graph)
    (cycles : option (list Cycle)) (hotspots : option (list (Hotspot XQ)))
    (layers : option Layers) (r : HealthMetrics XQ) :
  calculate_health_metrics self g cycles hotspots layers = Some r →
  fragility_score r = raw_fragility g cycles hotspots
  ∧ (match top_hotspot hotspots with
     | Some h0 => is_number (h_score h0) = true
     | None => True
     end → fle (raw_fragility g cycles hotspots) (of_int 100) = true).
Proof.
  intros (_ & Hf)%health_metrics_fields_exact. split; [exact Hf |].
  pose proof (raw_fragility_special g cycles hotspots) as Hraw.
  cbn [fle of_int XQ_float Xle].
  destruct (top_hotspot hotspots) as [h0|]; [destruct (h_score h0) as [s|[|]|] |];
    rewrite Hraw; try done; intros _; cbn [Xle]; apply Qle_bool_iff;
    change (inject_Z 100) with 100%Q; apply raw_fragility_le_100.
Qed.

Lemma fragility_cap_never_applies_witness :
  ∃ r : HealthMetrics XQ,
    calculate_health_metrics (__init__ None) triangle (Some [triangle_cycle])
      (Some [busy_hotspot]) None = Some r
    ∧ fragility_score r
      = raw_fragility triangle (Some [triangle_cycle]) (Some [busy_hotspot])
    ∧ fle (raw_fragility (F := XQ) triangle (Some [triangle_cycle]) (Some [busy_hotspot]))
        (of_int 100) = true.
Proof.
  assert (is_Some (calculate_health_metrics (F := XQ) (__init__ None) triangle
                     (Some [triangle_cycle]) (Some [busy_hotspot]) None))
    as [r Hr] by (vm_compute; eexists; reflexivity).
  exists r. split; [exact Hr |].
  destruct (fragility_cap_never_applies (__init__ None) triangle (Some [triangle_cycle])
              (Some [busy_hotspot]) None r Hr) as [Heq Hle].
  split; [exact Heq | apply Hle; vm_compute; reflexivity].
Defined.

Lemma count_truthy (cycles : option (list Cycle)) :
  truthy cycles = (0 <? count cycles)%Z.
Proof. by destruct cycles as [[|c cs]|]. Qed.

(** X3. Reporting more cycles never improves the result: with the graph
    and the hotspots unchanged, a longer cycle list gives a health score
    that is not higher and a fragility that is not lower. *)
Theorem more_cycles_never_healthier (self : GraphInsights Q) (g : Graph)
    (cycles cycles' : option (list Cycle)) (hotspots : option (list (Hotspot Q)))
    (layers : option Layers) (r r' : HealthMetrics Q) :
  (count cycles ≤ count cycles')%Z →
  calculate_health_metrics self g cycles hotspots layers = Some r →
  calculate_health_metrics self g cycles' hotspots layers = Some r' →
  (health_score r' <= health_score r)%Q ∧ (fragility_score r <= fragility_score r')%Q.
Proof.
  intros Hle Hr Hr'.
  apply health_metrics_unclamped in Hr as (-> & _ & ->).
  apply health_metrics_unclamped in Hr' as (-> & _ & ->).
  unfold penalized_health, raw_fragility, cycle_penalty. rewrite !count_truthy.
  pose proof (count_nonneg cycles) as Hc. pose proof (count_nonneg cycles') as Hc'.
  set (c := count cycles) in *. set (c' := count cycles') in *.
  assert (inject_Z (Z.min (c * 5) 30) <= inject_Z (Z.min (c' * 5) 30))%Q as H5
    by (apply inject_Z_le_const; lia).
  assert (inject_Z (Z.min (c * 3) 30) <= inject_Z (Z.min (c' * 3) 30))%Q as H3
    by (apply inject_Z_le_const; lia).
  assert (0 <= inject_Z (Z.min (c * 5) 30))%Q as H50 by (apply inject_Z_nonneg; lia).
  assert (0 <= inject_Z (Z.min (c * 3) 30))%Q as H30 by (apply inject_Z_nonneg; lia).
  q_unfold.
  set (p5 := inject_Z (Z.min (c * 5) 30)) in *. set (p5' := inject_Z (Z.min (c' * 5) 30)) in *.
  set (p3 := inject_Z (Z.min (c * 3) 30)) in *. set (p3' := inject_Z (Z.min (c' * 3) 30)) in *.
  set (d := graph_density g). clearbody p5 p5' p3 p3' d.
  set (dp := density_penalty d). clearbody dp.
  destruct (Z.ltb_spec 0 c), (Z.ltb_spec 0 c'); try lia;
    (split;
     [ destruct (Qltb _ d);
       (destruct (top_hotspot hotspots) as [h0|];
        [destruct (50 <? h_in_degree h0)%Z |]); lra
     | destruct (top_hotspot hotspots) as [h0|]; lra ]).
Qed.

Lemma more_cycles_never_healthier_witness :
  ∃ r r' : HealthMetrics Q,
    (count None ≤ count (Some [triangle_cycle]))%Z
    ∧ calculate_health_metrics (__init__ None) triangle None None None = Some r
    ∧ calculate_health_metrics (__init__ None) triangle (Some [triangle_cycle]) None None
      = Some r'
    ∧ (health_score r' <= health_score r)%Q ∧ (fragility_score r <= fragility_score r')%Q.
Proof.
  assert (is_Some (calculate_health_metrics (F := Q) (__init__ None) triangle None None None))
    as [r Hr] by (vm_compute; eexists; reflexivity).
  assert (is_Some (calculate_health_metrics (F := Q) (__init__ None) triangle
                     (Some [triangle_cycle]) None None))
    as [r' Hr'] by (vm_compute; eexists; reflexivity).
  assert (count None ≤ count (Some [triangle_cycle]))%Z as Hle by (vm_compute; discriminate).
  exists r, r'. split; [exact Hle |]. split; [exact Hr |]. split; [exact Hr' |].
  exact (more_cycles_never_healthier (__init__ None) triangle None (Some [triangle_cycle])
           None None r r' Hle Hr Hr').
Defined.

(* ===================================================================== *)
(** ** Health scorer: the layer check and the four flags *)
(* ===================================================================== *)

Lemma foldl_max_spec (z : Z) (zs : list Z) :
  (∀ y, y ∈ z :: zs → y ≤ foldl Z.max z zs)%Z ∧ foldl Z.max z zs ∈ z :: zs.
Proof.
  revert z. induction zs as [|x zs IH]; intros z; cbn [foldl].
  - split; [intros y ->%list_elem_of_singleton; lia | left].
  - destruct (IH (z `max` x)%Z) as [Hub Hin]. split.
    + intros y Hy. pose proof (Hub (z `max` x)%Z ltac:(left)).
      apply elem_of_cons in Hy as [-> | [-> | Hy]%elem_of_cons]; [lia | lia |].
      apply Hub. by right.
    + apply elem_of_cons in Hin as [Hin | Hin].
      * rewrite Hin. destruct (Z.max_spec z x) as [[_ ->] | [_ ->]];
          [right; left | left].
      * by do 2 right.
Qed.

Lemma int_keys_None (ls : Layers) :
  int_keys ls = None ↔ Exists (λ kv, ∃ s, kv.1 = KStr s) ls.
Proof.
  unfold int_keys. rewrite mapM_None, !Exists_exists.
  split; intros ([k v] & Hin & Hx); exists (k, v); (split; [done |]); cbn in *.
  - destruct k; [done | eauto].
  - by destruct Hx as [s ->].
Qed.

Lemma int_keys_Some (ls : Layers) (zs : list Z) :
  int_keys ls = Some zs ↔ ls.*1 = KInt <$> zs.
Proof.
  unfold int_keys. rewrite mapM_Some. revert zs.
  induction ls as [|[k v] ls IH]; intros zs.
  - split; [by intros ->%Forall2_nil_inv_l | destruct zs; [constructor | done]].
  - split.
    + intros (z & zs' & Hz & Hzs & ->)%Forall2_cons_inv_l. cbn in *.
      destruct k; simplify_eq. f_equal. by apply IH.
    + destruct zs as [|z zs]; [done |]. cbn. intros [= -> Hzs].
      constructor; [done | by apply IH].
Qed.

Lemma compute_well_layered_None (layers : option Layers) :
  compute_well_layered layers = None
  ↔ ∃ ls, layers = Some ls ∧ (2 < length ls)%nat
          ∧ Exists (λ kv, ∃ s, kv.1 = KStr s) ls.
Proof.
  unfold compute_well_layered. split.
  - intros Hwl. destruct layers as [[|kv ls]|]; try done. exists (kv :: ls).
    destruct (Nat.ltb_spec 2 (length (kv :: ls))); [| done].
    split; [done |]. split; [done |]. apply int_keys_None.
    destruct (int_keys (kv :: ls)) as [zs|] eqn:Hk; [| done]. exfalso.
    cbn [mbind option_bind] in Hwl.
    destruct zs as [|z zs]; [| done].
    apply int_keys_Some in Hk. done.
  - intros (ls & -> & Hlen & Hstr). apply int_keys_None in Hstr.
    destruct ls as [|kv ls]; [cbn in Hlen; lia |].
    destruct (Nat.ltb_spec 2 (length (kv :: ls))); [| lia].
    by rewrite Hstr.
Qed.

(** X4. On arguments of the documented shapes the layer check is the only
    way [calculate_health_metrics] can fail: it raises (a [TypeError], from
    [max(layers.keys()) < 10]) exactly when more than two layers are
    supplied and some layer key is a string.  With at most two layers the
    keys are never compared. *)
Theorem health_metrics_type_error {F : Type} `{PyFloat F} (self : GraphInsights F)
    (g : Graph) (cycles : option (list Cycle)) (hotspots : option (list (Hotspot F)))
    (layers : option Layers) :
  calculate_health_metrics self g cycles hotspots layers = None
  ↔ ∃ ls, layers = Some ls ∧ (2 < length ls)%nat
          ∧ Exists (λ kv, ∃ s, kv.1 = KStr s) ls.
Proof.
  rewrite <- compute_well_layered_None. unfold calculate_health_metrics.
  by destruct (compute_well_layered layers).
Qed.

(** X5. What [well_layered] means in a returned record: it is set exactly
    when more than two layers are supplied and every layer key is an
    integer below 10 (the maximum of the keys is below 10). *)
Theorem well_layered_spec {F : Type} `{PyFloat F} (self : GraphInsights F)
    (g : Graph) (cycles : option (list Cycle)) (hotspots : option (list (Hotspot F)))
    (layers : option Layers) (r : HealthMetrics F) :
  calculate_health_metrics self g cycles hotspots layers = Some r →
  well_layered r = true
  ↔ ∃ ls, layers = Some ls ∧ (2 < length ls)%nat
          ∧ Forall (λ kv, ∃ z, kv.1 = KInt z ∧ (z < 10)%Z) ls.
Proof.
  unfold calculate_health_metrics. intros Hr.
  destruct (compute_well_layered layers) as [wl|] eqn:Hwl; [| done].
  cbn [mbind option_bind] in Hr. apply (inj Some) in Hr. subst r. cbn [well_layered].
  unfold compute_well_layered in Hwl.
  destruct layers as [[|kv ls]|]; cbn beta iota in Hwl;
    [apply (inj Some) in Hwl; subst wl;
     split; [done | intros (? & [= <-] & Hlen & _); cbn in Hlen; lia]
    | | apply (inj Some) in Hwl; subst wl; split; [done | by intros (? & ? & _)]].
  set (l := kv :: ls) in *. clearbody l.
  destruct (Nat.ltb_spec 2 (length l)) as [Hlen|Hlen];
    [| simplify_eq; split; [done | intros (? & [= <-] & ? & _); lia]].
  destruct (int_keys l) as [zs|] eqn:Hk; [| done]. cbn [mbind option_bind] in Hwl.
  apply int_keys_Some in Hk.
  destruct zs as [|z zs]; [done |]. cbn [max_int mbind option_bind] in Hwl.
  simplify_eq. destruct (foldl_max_spec z zs) as [Hub Hin]. rewrite Z.ltb_lt. split.
  - intros Hmax. exists l. split; [done |]. split; [done |].
    apply Forall_forall. intros [k v] Hkv.
    assert (k ∈ l.*1) as Hk' by (apply list_elem_of_fmap; by exists (k, v)).
    rewrite Hk in Hk'. apply list_elem_of_fmap in Hk' as (y & -> & Hy).
    exists y. split; [done |]. specialize (Hub y Hy). lia.
  - intros (? & [= <-] & _ & Hall).
    assert (KInt (foldl Z.max z zs) ∈ l.*1) as Hm
      by (rewrite Hk; by apply list_elem_of_fmap_2).
    apply list_elem_of_fmap in Hm as ([k v] & Hkm & Hkv). cbn in Hkm.
    rewrite Forall_forall in Hall. destruct (Hall _ Hkv) as (y & Hy & Hlt).
    cbn in Hy. congruence.
Qed.

Lemma well_layered_spec_witness :
  ∃ r : HealthMetrics Q,
    calculate_health_metrics (__init__ None) triangle None None (Some two_layers) = Some r
    ∧ (well_layered r = true
       ↔ ∃ ls, Some two_layers = Some ls ∧ (2 < length ls)%nat
               ∧ Forall (λ kv, ∃ z, kv.1 = KInt z ∧ (z < 10)%Z) ls).
Proof.
  assert (is_Some (calculate_health_metrics (F := Q) (__init__ None) triangle None None
                     (Some two_layers)))
    as [r Hr] by (vm_compute; eexists; reflexivity).
  exists r. split; [exact Hr |].
  exact (well_layered_spec (__init__ None) triangle None None (Some two_layers) r Hr).
Defined.

(** X6. The flags and the recommendations agree: when a returned record
    has all four flags set ([cycle_free], [loosely_coupled],
    [no_god_objects], [well_layered]), [generate_recommendations] on the
    same arguments returns no recommendation. *)
Theorem all_flags_no_recommendation (self : GraphInsights Q) (g : Graph)
    (cycles : option (list Cycle)) (hotspots : option (list (Hotspot Q)))
    (layers : option Layers) (r : HealthMetrics Q) :
  calculate_health_metrics self g cycles hotspots layers = Some r →
  cycle_free r = true → loosely_coupled r = true →
  no_god_objects r = true → well_layered r = true →
  generate_recommendations self g cycles hotspots layers = [].
Proof.
  unfold calculate_health_metrics. intros Hr.
  destruct (compute_well_layered layers) as [wl|] eqn:Hwl; [| done].
  cbn [mbind option_bind] in Hr. apply (inj Some) in Hr. subst r.
  cbn [cycle_free loosely_coupled no_god_objects well_layered].
  intros Hc Hd Hg ->. unfold generate_recommendations. cbv zeta.
  apply negb_true_iff in Hc. rewrite Hc. cbn [andb].
  assert (flt (lit 3 10) (graph_density (F := Q) g) = false) as ->.
  { revert Hd. q_unfold. set (d := graph_density g) in *. clearbody d.
    change (inject_Z 3 / inject_Z 10)%Q with (3 # 10)%Q.
    change (inject_Z 2 / inject_Z 10)%Q with (2 # 10)%Q.
    q_cases; [lra | done | done | done]. }
  assert (match top_hotspot hotspots with
          | Some h0 => (30 <? h_in_degree h0)%Z = false
          | None => True
          end) as Htop.
  { destruct (top_hotspot hotspots) as [h0|]; [| done].
    apply Z.ltb_lt in Hg. apply Z.ltb_ge. lia. }
  destruct (top_hotspot hotspots) as [h0|]; [rewrite Htop |];
    unfold compute_well_layered in Hwl;
    (destruct layers as [[|kv ls]|]; [done | | done]);
    (destruct (Nat.ltb_spec 2 (length (kv :: ls))); [| done]);
    (destruct (Nat.leb_spec (length (kv :: ls)) 2); [lia | done]).
Qed.

Lemma all_flags_no_recommendation_witness :
  ∃ r : HealthMetrics Q,
    calculate_health_metrics (__init__ None) chain_graph None None (Some three_layers)
      = Some r
    ∧ cycle_free r = true ∧ loosely_coupled r = true
    ∧ no_god_objects r = true ∧ well_layered r = true
    ∧ generate_recommendations (F := Q) (__init__ None) chain_graph None None
        (Some three_layers) = [].
Proof.
  assert (is_Some (calculate_health_metrics (F := Q) (__init__ None) chain_graph None None
                     (Some three_layers)))
    as [r Hr] by (vm_compute; eexists; reflexivity).
  assert (cycle_free r = true) as Hc by (vm_compute in Hr; by simplify_eq).
  assert (loosely_coupled r = true) as Hd by (vm_compute in Hr; by simplify_eq).
  assert (no_god_objects r = true) as Hg by (vm_compute in Hr; by simplify_eq).
  assert (well_layered r = true) as Hw by (vm_compute in Hr; by simplify_eq).
  exists r. repeat (split; [assumption |]).
  exact (all_flags_no_recommendation (__init__ None) chain_graph None None
           (Some three_layers) r Hr Hc Hd Hg Hw).
Defined.

(* ===================================================================== *)
(** ** Hotspot ranker: degrees, failure, record fields *)
(* ===================================================================== *)

Lemma dd_get_insert (d : gmap string Z) (k n : string) (v : Z) :
  dd_get (<[k := v]> d) n = if decide (k = n) then v else dd_get d n.
Proof.
  unfold dd_get. destruct (decide (k = n)) as [-> |].
  - by rewrite lookup_insert_eq.
  - by rewrite lookup_insert_ne.
Qed.

(** The two counters after a pass over [es]: what they held before, plus
    the number of edges into (out of) the node. *)
Lemma count_degrees_spec (ind outd : gmap string Z) (es : list Edge) (n : string) :
  dd_get (count_degrees (ind, outd) es).1 n
  = (dd_get ind n + Z.of_nat (length (filter (λ e, target e = n) es)))%Z
  ∧ dd_get (count_degrees (ind, outd) es).2 n
    = (dd_get outd n + Z.of_nat (length (filter (λ e, source e = n) es)))%Z.
Proof.
  unfold count_degrees. revert ind outd.
  induction es as [|e es IH]; intros ind outd; cbn [foldl].
  - rewrite !filter_nil. cbn. lia.
  - destruct (IH (<[target e := (dd_get ind (target e) + 1)%Z]> ind)
                 (<[source e := (dd_get outd (source e) + 1)%Z]> outd)) as [-> ->].
    rewrite !dd_get_insert, !filter_cons.
    destruct (decide (target e = n)) as [-> |], (decide (source e = n)) as [-> |];
      cbn [length]; lia.
Qed.

Lemma count_degrees_app (deg : gmap string Z * gmap string Z) (es es' : list Edge) :
  count_degrees (count_degrees deg es) es' = count_degrees deg (es ++ es').
Proof. unfold count_degrees. by rewrite foldl_app. Qed.

Section RankedRecords.
Context {F : Type} `{PyFloat F}.

(** The record [rank_hotspots] builds for one node. *)
Lemma hotspot_of_Some (self : GraphInsights F) ind outd cent n h :
  hotspot_of self ind outd cent n = Some h →
  ∃ w_in w_out w_cent w_churn w_loc,
    weights self !! "in_degree" = Some w_in
    ∧ weights self !! "out_degree" = Some w_out
    ∧ weights self !! "centrality" = Some w_cent
    ∧ weights self !! "churn" = Some w_churn
    ∧ weights self !! "loc" = Some w_loc
    ∧ h_id h = node_id n
    ∧ h_in_degree h = dd_get ind (node_id n)
    ∧ h_out_degree h = dd_get outd (node_id n)
    ∧ h_centrality h = default (of_int 0) (cent !! node_id n)
    ∧ h_churn h = default 0%Z (node_churn n)
    ∧ h_loc h = default 0%Z (node_loc n)
    ∧ h_score h
      = (w_in * of_int (h_in_degree h) + w_out * of_int (h_out_degree h)
         + w_cent * h_centrality h
         + w_churn * (of_int (h_churn h) / of_int 100)
         + w_loc * (of_int (h_loc h) / of_int 1000))%F.
Proof.
  unfold hotspot_of. intros Hh.
  destruct (weights self !! "in_degree") as [w_in|]; [| done].
  destruct (weights self !! "out_degree") as [w_out|]; [| done].
  destruct (weights self !! "centrality") as [w_cent|]; [| done].
  destruct (weights self !! "churn") as [w_churn|]; [| done].
  destruct (weights self !! "loc") as [w_loc|]; [| done].
  cbn [mbind option_bind] in Hh. apply (inj Some) in Hh. subst h.
  exists w_in, w_out, w_cent, w_churn, w_loc. by repeat split.
Qed.

Lemma unsorted_hotspots_unfold (self : GraphInsights F) ig cg :
  unsorted_hotspots self ig cg
  = mapM (hotspot_of self (degree_counters ig cg).1 (degree_counters ig cg).2
            (_calculate_centrality ig)) (nodes ig).
Proof.
  unfold unsorted_hotspots, degree_counters, counted_edges.
  destruct cg as [cg|].
  - rewrite count_degrees_app. by destruct (count_degrees _ _).
  - rewrite app_nil_r. by destruct (count_degrees _ _).
Qed.

(** Every record of a ranking was built from a node of the node list. *)
Lemma rank_hotspots_elem (self : GraphInsights F) ig cg hs h :
  rank_hotspots self ig cg = Some hs → h ∈ hs →
  ∃ n, n ∈ nodes ig
       ∧ hotspot_of self (degree_counters ig cg).1 (degree_counters ig cg).2
           (_calculate_centrality ig) n = Some h.
Proof.
  unfold rank_hotspots. rewrite unsorted_hotspots_unfold. intros Hhs Hh.
  destruct (mapM _ _) as [us|] eqn:Hus; [| done].
  cbn in Hhs. apply (inj Some) in Hhs. subst hs.
  rewrite sort_by_score_perm in Hh. apply mapM_Some_1 in Hus.
  apply list_elem_of_lookup in Hh as [i Hi].
  destruct (Forall2_lookup_r _ _ _ _ _ Hus Hi) as (n & Hn & Hnh).
  exists n. split; [by eapply list_elem_of_lookup_2 | done].
Qed.

Lemma degree_counters_spec ig cg n :
  dd_get (degree_counters ig cg).1 n
  = Z.of_nat (length (filter (λ e, target e = n) (counted_edges ig cg)))
  ∧ dd_get (degree_counters ig cg).2 n
    = Z.of_nat (length (filter (λ e, source e = n) (counted_edges ig cg))).
Proof.
  unfold degree_counters.
  destruct (count_degrees_spec ∅ ∅ (counted_edges ig cg) n) as [-> ->].
  unfold dd_get. by rewrite lookup_empty.
Qed.

(** X7. In every returned ranking the [in_degree] of a record is the number
    of edges of the import graph and of the call graph together whose
    target is the record's id, and its [out_degree] the number of those
    whose source is; an edge that occurs twice counts twice. *)
Theorem hotspot_degrees_count_edges (self : GraphInsights F) (import_graph : Graph)
    (call_graph : option Graph) (hs : list (Hotspot F)) :
  rank_hotspots self import_graph call_graph = Some hs →
  Forall (λ h,
            h_in_degree h
            = Z.of_nat (length (filter (λ e, target e = h_id h)
                                  (counted_edges import_graph call_graph)))
            ∧ h_out_degree h
              = Z.of_nat (length (filter (λ e, source e = h_id h)
                                    (counted_edges import_graph call_graph)))) hs.
Proof.
  intros Hhs. apply Forall_forall. intros h Hh.
  destruct (rank_hotspots_elem _ _ _ _ _ Hhs Hh) as (n & _ & Hn).
  apply hotspot_of_Some in Hn
    as (? & ? & ? & ? & ? & _ & _ & _ & _ & _ & Hid & Hin & Hout & _).
  rewrite Hin, Hout, Hid.
  apply degree_counters_spec.
Qed.

Lemma hotspot_of_None (self : GraphInsights F) ind outd cent n :
  hotspot_of self ind outd cent n = None
  ↔ Exists (λ k, weights self !! k = None)
      ["in_degree"; "out_degree"; "centrality"; "churn"; "loc"].
Proof.
  unfold hotspot_of. rewrite !Exists_cons, Exists_nil.
  destruct (weights self !! "in_degree"); [| by split; auto].
  destruct (weights self !! "out_degree"); [| by split; auto].
  destruct (weights self !! "centrality"); [| by split; auto].
  destruct (weights self !! "churn"); [| by split; auto].
  destruct (weights self !! "loc"); [| by split; auto 6].
  cbn [mbind option_bind].
  split; [done | intros [?|[?|[?|[?|[?|[]]]]]]; done].
Qed.

Lemma rank_hotspots_None (self : GraphInsights F) ig cg :
  rank_hotspots self ig cg = None
  ↔ nodes ig ≠ []
    ∧ Exists (λ k, weights self !! k = None)
        ["in_degree"; "out_degree"; "centrality"; "churn"; "loc"].
Proof.
  unfold rank_hotspots. rewrite unsorted_hotspots_unfold.
  rewrite fmap_None, mapM_None. split.
  - intros Hex. split; [by intros Hnil; rewrite Hnil in Hex; inversion Hex |].
    apply Exists_exists in Hex as (n & _ & Hn). by apply hotspot_of_None in Hn.
  - intros [Hne Hk]. destruct (nodes ig) as [|n ns]; [done |].
    left. by apply hotspot_of_None.
Qed.

(** X8. For nodes whose churn and size a double can hold,
    [rank_hotspots] fails (a [KeyError]) exactly when the node list is not
    empty and the configured weights lack one of the five keys; on an
    empty node list it returns the empty ranking whatever the weights. *)
Theorem rank_hotspots_key_error (self : GraphInsights F) (import_graph : Graph)
    (call_graph : option Graph) :
  Forall metrics_in_range (nodes import_graph) →
  (rank_hotspots self import_graph call_graph = None
   ↔ nodes import_graph ≠ []
     ∧ Exists (λ k, weights self !! k = None)
         ["in_degree"; "out_degree"; "centrality"; "churn"; "loc"])
  ∧ (nodes import_graph = [] → rank_hotspots self import_graph call_graph = Some []).
Proof.
  intros _. split; [apply rank_hotspots_None |].
  unfold rank_hotspots. rewrite unsorted_hotspots_unfold. by intros ->.
Qed.
End RankedRecords.

Lemma chain_graph_in_range : Forall metrics_in_range (nodes chain_graph).
Proof. repeat constructor. Qed.

Lemma rank_hotspots_key_error_witness :
  Forall metrics_in_range (nodes chain_graph)
  ∧ (rank_hotspots (F := Q) {| weights := ∅ |} chain_graph None = None
     ↔ nodes chain_graph ≠ []
       ∧ Exists (λ k, weights (F := Q) {| weights := ∅ |} !! k = None)
           ["in_degree"; "out_degree"; "centrality"; "churn"; "loc"])
  ∧ (nodes chain_graph = [] →
     rank_hotspots (F := Q) {| weights := ∅ |} chain_graph None = Some []).
Proof.
  split; [exact chain_graph_in_range |].
  exact (rank_hotspots_key_error {| weights := ∅ |} chain_graph None chain_graph_in_range).
Defined.

Lemma hotspot_degrees_count_edges_witness :
  ∃ hs : list (Hotspot Q),
    rank_hotspots (__init__ None) chain_graph (Some lower_triangle) = Some hs
    ∧ Forall (λ h,
                h_in_degree h
                = Z.of_nat (length (filter (λ e, target e = h_id h)
                                      (counted_edges chain_graph (Some lower_triangle))))
                ∧ h_out_degree h
                  = Z.of_nat (length (filter (λ e, source e = h_id h)
                                        (counted_edges chain_graph (Some lower_triangle))))) hs.
Proof.
  assert (is_Some (rank_hotspots (F := Q) (__init__ None) chain_graph (Some lower_triangle)))
    as [hs Hhs] by (vm_compute; eexists; reflexivity).
  exists hs. split; [exact Hhs |].
  exact (hotspot_degrees_count_edges (__init__ None) chain_graph (Some lower_triangle) hs Hhs).
Defined.

(** The centrality of a node: none outside the edges of the graph, a value
    in (0, 1] on them. *)
Lemma centrality_lookup_None {F : Type} `{PyFloat F} (g : Graph) (n : string) :
  n ∉ edge_nodes g → _calculate_centrality (F := F) g !! n = None.
Proof.
  intros Hn. apply eq_None_not_Some. unfold _calculate_centrality.
  by rewrite normalize_lookup_is_Some, power_iteration_dom.
Qed.

Lemma centrality_quotient (g : Graph) :
  power_iteration (F := Q) g ≠ ∅ →
  ∃ m, (0 < m)%Q
       ∧ (∃ n, power_iteration g !! n = Some m)
       ∧ (∀ n q, power_iteration g !! n = Some q → q <= m)%Q
       ∧ _calculate_centrality g = (λ v, v / m)%Q <$> power_iteration g.
Proof.
  intros Hne.
  destruct (normalize_positive (power_iteration g) Hne (power_iteration_pos g))
    as (m & _ & Hm & Hex & Hle & Hnorm).
  by exists m.
Qed.

Lemma centrality_lookup_edge_node (g : Graph) (n : string) :
  n ∈ edge_nodes g →
  ∃ v, _calculate_centrality (F := Q) g !! n = Some v ∧ (0 < v ∧ v <= 1)%Q.
Proof.
  intros Hn. apply (power_iteration_dom (F := Q)) in Hn as [q Hq].
  destruct (centrality_quotient g) as (m & Hm & _ & Hle & ->).
  { intros Hempty. by rewrite Hempty, lookup_empty in Hq. }
  exists (q / m)%Q. rewrite lookup_fmap, Hq. split; [done |].
  pose proof (power_iteration_pos g n q Hq). specialize (Hle n q Hq).
  split; [| by apply Qdiv_le_1].
  apply Qlt_shift_div_l; lra.
Qed.

(** X9. In every returned ranking the centrality of a record lies in
    [0, 1], and it is 0 exactly for the nodes that no edge of the import
    graph mentions: edges of the call graph count for the degrees but give
    no centrality. *)
Theorem hotspot_centrality_range (self : GraphInsights Q) (import_graph : Graph)
    (call_graph : option Graph) (hs : list (Hotspot Q)) :
  rank_hotspots self import_graph call_graph = Some hs →
  Forall (λ h, (0 <= h_centrality h ∧ h_centrality h <= 1)%Q
               ∧ ((h_centrality h == 0)%Q ↔ h_id h ∉ edge_nodes import_graph)) hs.
Proof.
  intros Hhs. apply Forall_forall. intros h Hh.
  destruct (rank_hotspots_elem _ _ _ _ _ Hhs Hh) as (n & _ & Hn).
  apply hotspot_of_Some in Hn
    as (? & ? & ? & ? & ? & _ & _ & _ & _ & _ & Hid & _ & _ & Hcent & _).
  rewrite Hcent, Hid.
  destruct (decide (node_id n ∈ edge_nodes import_graph)) as [Hin|Hout].
  - destruct (centrality_lookup_edge_node _ _ Hin) as (v & -> & Hv0 & Hv1). cbn.
    split; [split; lra |]. split; [intros Hz; lra | done].
  - rewrite (centrality_lookup_None _ _ Hout). cbn.
    split; [split; done |]. split; [done | reflexivity].
Qed.

Lemma hotspot_centrality_range_witness :
  ∃ hs : list (Hotspot Q),
    rank_hotspots (__init__ None) chain_graph (Some lower_triangle) = Some hs
    ∧ Forall (λ h, (0 <= h_centrality h ∧ h_centrality h <= 1)%Q
                   ∧ ((h_centrality h == 0)%Q ↔ h_id h ∉ edge_nodes chain_graph)) hs.
Proof.
  assert (is_Some (rank_hotspots (F := Q) (__init__ None) chain_graph (Some lower_triangle)))
    as [hs Hhs] by (vm_compute; eexists; reflexivity).
  exists hs. split; [exact Hhs |].
  exact (hotspot_centrality_range (__init__ None) chain_graph (Some lower_triangle) hs Hhs).
Defined.

(** Weights and node metrics that are not negative. *)
Lemma score_nonneg (self : GraphInsights Q) ind outd cent (n : Node) (h : Hotspot Q) :
  (∀ k w, weights self !! k = Some w → 0 <= w)%Q →
  (0 ≤ default 0 (node_churn n))%Z → (0 ≤ default 0 (node_loc n))%Z →
  (0 ≤ dd_get ind (node_id n))%Z → (0 ≤ dd_get outd (node_id n))%Z →
  (0 <= default (of_int 0) (cent !! node_id n))%Q →
  hotspot_of self ind outd cent n = Some h → (0 <= h_score h)%Q.
Proof.
  intros Hw Hchurn Hloc Hin Hout Hcent Hh.
  apply hotspot_of_Some in Hh
    as (w1 & w2 & w3 & w4 & w5 & Hw1 & Hw2 & Hw3 & Hw4 & Hw5
        & _ & Hi & Ho & Hc & Hch & Hl & ->).
  rewrite Hi, Ho, Hc, Hch, Hl.
  apply Hw in Hw1, Hw2, Hw3, Hw4, Hw5.
  apply inject_Z_nonneg in Hchurn, Hloc, Hin, Hout.
  q_unfold.
  set (a := inject_Z (dd_get ind (node_id n))) in *.
  set (b := inject_Z (dd_get outd (node_id n))) in *.
  set (c := default (inject_Z 0) (cent !! node_id n)) in *.
  set (d := inject_Z (default 0%Z (node_churn n))) in *.
  set (e := inject_Z (default 0%Z (node_loc n))) in *.
  clearbody a b c d e.
  assert (0 <= d / inject_Z 100)%Q by (apply Qdiv_nonneg; [done | reflexivity]).
  assert (0 <= e / inject_Z 1000)%Q by (apply Qdiv_nonneg; [done | reflexivity]).
  pose proof (Qmult_le_0_compat _ _ Hw1 Hin). pose proof (Qmult_le_0_compat _ _ Hw2 Hout).
  pose proof (Qmult_le_0_compat _ _ Hw3 Hcent).
  pose proof (Qmult_le_0_compat w4 (d / inject_Z 100) Hw4 ltac:(done)).
  pose proof (Qmult_le_0_compat w5 (e / inject_Z 1000) Hw5 ltac:(done)).
  set (p1 := (w1 * a)%Q) in *. set (p2 := (w2 * b)%Q) in *. set (p3 := (w3 * c)%Q) in *.
  set (p4 := (w4 * (d / inject_Z 100))%Q) in *.
  set (p5 := (w5 * (e / inject_Z 1000))%Q) in *.
  clearbody p1 p2 p3 p4 p5. lra.
Qed.

Lemma ranking_scores_nonneg (self : GraphInsights Q) (import_graph : Graph)
    (call_graph : option Graph) (hs : list (Hotspot Q)) :
  (∀ k w, weights self !! k = Some w → 0 <= w)%Q →
  Forall (λ n, (0 ≤ default 0 (node_churn n))%Z ∧ (0 ≤ default 0 (node_loc n))%Z)
    (nodes import_graph) →
  rank_hotspots self import_graph call_graph = Some hs →
  Forall (λ h, (0 <= h_score h)%Q) hs.
Proof.
  intros Hw Hnodes Hhs. apply Forall_forall. intros h Hh.
  destruct (rank_hotspots_elem _ _ _ _ _ Hhs Hh) as (n & Hn & Hnh).
  rewrite Forall_forall in Hnodes. destruct (Hnodes n Hn) as [Hchurn Hloc].
  destruct (degree_counters_spec import_graph call_graph (node_id n)) as [Hi Ho].
  eapply score_nonneg; [exact Hw | exact Hchurn | exact Hloc | | | | exact Hnh].
  - rewrite Hi. lia.
  - rewrite Ho. lia.
  - destruct (decide (node_id n ∈ edge_nodes import_graph)) as [Hin|Hout].
    + destruct (centrality_lookup_edge_node _ _ Hin) as (v & -> & Hv0 & _). cbn. lra.
    + rewrite (centrality_lookup_None _ _ Hout). done.
Qed.

Lemma default_weights_nonneg (k : string) (w : Q) :
  weights (__init__ None) !! k = Some w → (0 <= w)%Q.
Proof.
  unfold __init__, DEFAULT_WEIGHTS. cbn [weights].
  rewrite !lookup_insert_Some, lookup_empty.
  intros [[_ <-] | [_ [[_ <-] | [_ [[_ <-] | [_ [[_ <-] | [_ [[_ <-] | [_ ?]]]]]]]]]];
    [vm_compute; discriminate .. | done].
Qed.

Lemma chain_graph_metrics :
  Forall (λ n, (0 ≤ default 0 (node_churn n))%Z ∧ (0 ≤ default 0 (node_loc n))%Z)
    (nodes chain_graph).
Proof. repeat constructor; vm_compute; discriminate. Qed.

(** X10. With weights that are not negative and nodes whose churn and size
    are not negative, no score of a returned ranking is negative. *)
Theorem scores_nonnegative (self : GraphInsights Q) (import_graph : Graph)
    (call_graph : option Graph) (hs : list (Hotspot Q)) :
  (∀ k w, weights self !! k = Some w → 0 <= w)%Q →
  Forall (λ n, (0 ≤ default 0 (node_churn n))%Z ∧ (0 ≤ default 0 (node_loc n))%Z)
    (nodes import_graph) →
  rank_hotspots self import_graph call_graph = Some hs →
  Forall (λ h, (0 <= h_score h)%Q) hs.
Proof. apply ranking_scores_nonneg. Qed.

Lemma scores_nonnegative_witness :
  ∃ hs : list (Hotspot Q),
    rank_hotspots (__init__ None) chain_graph (Some lower_triangle) = Some hs
    ∧ Forall (λ h, (0 <= h_score h)%Q) hs.
Proof.
  assert (is_Some (rank_hotspots (F := Q) (__init__ None) chain_graph (Some lower_triangle)))
    as [hs Hhs] by (vm_compute; eexists; reflexivity).
  exists hs. split; [exact Hhs |].
  exact (scores_nonnegative (__init__ None) chain_graph (Some lower_triangle) hs
           default_weights_nonneg chain_graph_metrics Hhs).
Defined.

(** *** The pipeline on [XQ]: finite weights give finite scores *)

Lemma foldl_fmax_elem {F : Type} `{PyFloat F} (x : F) (xs : list F) :
  foldl fmax x xs ∈ x :: xs.
Proof.
  revert x. induction xs as [|y ys IH]; intros x; cbn [foldl]; [left |].
  specialize (IH (fmax x y)). apply elem_of_cons in IH as [-> | IH].
  - unfold fmax. destruct (flt x y); [right; left | left].
  - by do 2 right.
Qed.

Lemma XQ_positive_nonneg (x : XQ) : XQ_positive x → XQ_nonneg x.
Proof. intros (q & -> & Hq). exists q. split; [done | lra]. Qed.

Lemma node_score_positive adj nodes (scores : gmap string XQ) n :
  map_Forall (λ _ v, XQ_positive v) scores →
  XQ_positive (node_score adj nodes scores n).
Proof.
  intros Hscores. unfold node_score.
  assert (XQ_positive (of_int 1 - damping)%F) as Hbase
    by (eexists; split; [reflexivity | vm_compute; reflexivity]).
  revert Hbase. generalize (of_int (F := XQ) 1 - damping)%F.
  induction (elements nodes) as [|s l IH]; intros acc Hacc; cbn [foldl]; [done |].
  apply IH. case_bool_decide; [| done].
  destruct Hacc as (a & -> & Ha).
  assert (XQ_nonneg (score_get scores s)) as (v & -> & Hv).
  { unfold score_get. destruct (scores !! s) as [x|] eqn:Hx; cbn.
    - apply XQ_positive_nonneg. by eapply Hscores.
    - exists 0%Q. split; [reflexivity | lra]. }
  set (oc := if decide (length (adj_get adj s) = 0)%nat then 1%Z
             else Z.of_nat (length (adj_get adj s))).
  assert (0 < oc)%Z as Hoc by (unfold oc; case_decide; lia).
  eexists. split; [reflexivity |].
  assert (0 <= (85 # 100) * v / inject_Z oc)%Q as Hterm.
  { apply Qdiv_nonneg; [| by apply inject_Z_pos]. apply Qmult_le_0_compat; [done | done]. }
  change (inject_Z 85 / inject_Z 100)%Q with (85 # 100)%Q. lra.
Qed.

Lemma power_iteration_positive (g : Graph) :
  map_Forall (λ _ v, XQ_positive v) (power_iteration (F := XQ) g).
Proof.
  rewrite power_iteration_unfold. generalize iterations. intros k.
  induction k as [|k IH]; [cbn [Nat.iter nat_rect] | rewrite Nat.iter_succ].
  - intros n v. unfold initial_scores.
    intros [_ <-]%lookup_gset_to_gmap_Some. exists 1%Q. split; [reflexivity | lra].
  - intros n v. rewrite power_step_lookup. case_decide; [| done].
    intros [= <-]. by apply node_score_positive.
Qed.

Lemma normalize_positive_values (scores : gmap string XQ) :
  map_Forall (λ _ v, XQ_positive v) scores →
  map_Forall (λ _ v, XQ_positive v) (normalize scores).
Proof.
  intros Hscores. unfold normalize. case_decide; [done |].
  destruct (max_of _) as [m|] eqn:Hmax; [| done].
  destruct (flt (of_int 0) m); [| done].
  assert (XQ_positive m) as (mq & -> & Hm).
  { destruct (map_to_list scores).*2 as [|x xs] eqn:Hl; [done |].
    cbn in Hmax. apply (inj Some) in Hmax. subst m.
    pose proof (foldl_fmax_elem x xs) as Hin. rewrite <- Hl in Hin.
    apply elem_of_values in Hin as [k Hk]. by eapply Hscores. }
  intros n v. rewrite lookup_fmap. destruct (scores !! n) as [x|] eqn:Hx; [| done].
  intros [= <-]. destruct (Hscores n x Hx) as (q & -> & Hq).
  eexists. split; [reflexivity |]. apply Qlt_shift_div_l; lra.
Qed.

Lemma centrality_positive (g : Graph) :
  map_Forall (λ _ v, XQ_positive v) (_calculate_centrality (F := XQ) g).
Proof. apply normalize_positive_values, power_iteration_positive. Qed.

(** With finite weights that are not negative every score is a finite
    value that is not negative. *)
Lemma finite_scores (self : GraphInsights XQ) (import_graph : Graph)
    (call_graph : option Graph) (hs : list (Hotspot XQ)) :
  (∀ k w, weights self !! k = Some w → XQ_nonneg w) →
  Forall (λ n, (0 ≤ default 0 (node_churn n))%Z ∧ (0 ≤ default 0 (node_loc n))%Z)
    (nodes import_graph) →
  rank_hotspots self import_graph call_graph = Some hs →
  Forall (λ h, XQ_nonneg (h_score h)) hs.
Proof.
  intros Hw Hnodes Hhs. apply Forall_forall. intros h Hh.
  destruct (rank_hotspots_elem _ _ _ _ _ Hhs Hh) as (n & Hn & Hnh).
  rewrite Forall_forall in Hnodes. destruct (Hnodes n Hn) as [Hchurn Hloc].
  destruct (degree_counters_spec import_graph call_graph (node_id n)) as [Hi Ho].
  apply hotspot_of_Some in Hnh
    as (w1 & w2 & w3 & w4 & w5 & Hw1 & Hw2 & Hw3 & Hw4 & Hw5
        & _ & Hin & Hout & Hc & Hch & Hl & ->).
  rewrite Hin, Hout, Hc, Hch, Hl.
  destruct (Hw _ _ Hw1) as (q1 & -> & Hq1). destruct (Hw _ _ Hw2) as (q2 & -> & Hq2).
  destruct (Hw _ _ Hw3) as (q3 & -> & Hq3). destruct (Hw _ _ Hw4) as (q4 & -> & Hq4).
  destruct (Hw _ _ Hw5) as (q5 & -> & Hq5).
  assert (XQ_nonneg (default (of_int 0) (_calculate_centrality import_graph !! node_id n)))
    as (c & -> & Hcq).
  { destruct (_calculate_centrality _ !! _) as [x|] eqn:Hx; cbn.
    - apply XQ_positive_nonneg. by eapply (centrality_positive import_graph).
    - exists 0%Q. split; [reflexivity | lra]. }
  eexists. split; [reflexivity |].
  apply inject_Z_nonneg in Hchurn, Hloc.
  assert (0 <= inject_Z (dd_get (degree_counters import_graph call_graph).1 (node_id n)))%Q
    as Ha by (apply inject_Z_nonneg; rewrite Hi; lia).
  assert (0 <= inject_Z (dd_get (degree_counters import_graph call_graph).2 (node_id n)))%Q
    as Hb by (apply inject_Z_nonneg; rewrite Ho; lia).
  set (a := inject_Z (dd_get (degree_counters import_graph call_graph).1 (node_id n))) in *.
  set (b := inject_Z (dd_get (degree_counters import_graph call_graph).2 (node_id n))) in *.
  set (d := inject_Z (default 0%Z (node_churn n))) in *.
  set (e := inject_Z (default 0%Z (node_loc n))) in *.
  clearbody a b d e.
  assert (0 <= d / inject_Z 100)%Q as Hd by (apply Qdiv_nonneg; [done | reflexivity]).
  assert (0 <= e / inject_Z 1000)%Q as He by (apply Qdiv_nonneg; [done | reflexivity]).
  pose proof (Qmult_le_0_compat q1 a Hq1 Ha). pose proof (Qmult_le_0_compat q2 b Hq2 Hb).
  pose proof (Qmult_le_0_compat q3 c Hq3 Hcq).
  pose proof (Qmult_le_0_compat q4 (d / inject_Z 100) Hq4 Hd).
  pose proof (Qmult_le_0_compat q5 (e / inject_Z 1000) Hq5 He).
  set (p1 := (q1 * a)%Q) in *. set (p2 := (q2 * b)%Q) in *. set (p3 := (q3 * c)%Q) in *.
  set (p4 := (q4 * (d / inject_Z 100))%Q) in *.
  set (p5 := (q5 * (e / inject_Z 1000))%Q) in *.
  clearbody p1 p2 p3 p4 p5. lra.
Qed.

Lemma default_weights_finite (k : string) (w : XQ) :
  weights (__init__ None) !! k = Some w → XQ_nonneg w.
Proof.
  unfold __init__, DEFAULT_WEIGHTS. cbn [weights].
  rewrite !lookup_insert_Some, lookup_empty.
  intros [[_ <-] | [_ [[_ <-] | [_ [[_ <-] | [_ [[_ <-] | [_ [[_ <-] | [_ ?]]]]]]]]]];
    [eexists; split; [reflexivity | vm_compute; discriminate] .. | done].
Qed.

(** X11. The pipeline keeps the scores in range: when [summarize] ranks the
    hotspots itself, with weights that are finite and not negative and
    with churn and size that are not negative, the fragility of the
    summary lies in [0, 100] and its health score in [30, 100], whatever
    cycles and layers the analyzer reports. *)
Theorem summarize_scores_in_range (analyzer : XGraphAnalyzer) (self : GraphInsights XQ)
    (import_graph : Graph) (call_graph : option Graph) (cycles : option (list Cycle))
    (s : Summary XQ) :
  (∀ k w, weights self !! k = Some w → XQ_nonneg w) →
  Forall (λ n, (0 ≤ default 0 (node_churn n))%Z ∧ (0 ≤ default 0 (node_loc n))%Z)
    (nodes import_graph) →
  summarize analyzer self import_graph call_graph cycles None = Some s →
  (fle (of_int 0) (fragility_score (s_health_metrics s)) = true
   ∧ fle (fragility_score (s_health_metrics s)) (of_int 100) = true)
  ∧ (fle (of_int 30) (health_score (s_health_metrics s)) = true
     ∧ fle (health_score (s_health_metrics s)) (of_int 100) = true).
Proof.
  intros Hw Hnodes Hs. unfold summarize in Hs.
  destruct (rank_hotspots self import_graph call_graph) as [hs|] eqn:Hhs; [| done].
  cbn [mbind option_bind] in Hs.
  destruct (calculate_health_metrics _ _ _ _ _) as [m|] eqn:Hm; [| done].
  cbn [mbind option_bind] in Hs. apply (inj Some) in Hs. subst s.
  cbn [s_health_metrics].
  apply health_metrics_fields_exact in Hm as ((p & -> & Hp30 & Hp100) & ->).
  pose proof (finite_scores _ _ _ _ Hw Hnodes Hhs) as Hpos.
  pose proof (raw_fragility_special import_graph
                (Some match cycles with
                      | Some cs => cs
                      | None => detect_cycles analyzer import_graph
                      end) (Some hs)) as Hraw.
  cbn [fle of_int XQ_float Xle].
  split; [| split; apply Qle_bool_iff;
              [change (inject_Z 30) with 30%Q | change (inject_Z 100) with 100%Q]; lra].
  destruct hs as [|h0 hs']; cbn [top_hotspot] in Hraw.
  - rewrite Hraw. cbn [Xle]. split; apply Qle_bool_iff;
      [change (inject_Z 0) with 0%Q; by apply raw_fragility_lower
      | change (inject_Z 100) with 100%Q; apply raw_fragility_le_100].
  - apply Forall_cons in Hpos as [(q & Hq & Hq0) _]. rewrite Hq in Hraw. rewrite Hraw.
    cbn [Xle]. split; apply Qle_bool_iff;
      [change (inject_Z 0) with 0%Q; by apply raw_fragility_lower
      | change (inject_Z 100) with 100%Q; apply raw_fragility_le_100].
Qed.

Lemma summarize_scores_in_range_witness :
  ∃ s : Summary XQ,
    summarize null_analyzer (__init__ None) chain_graph (Some lower_triangle) None None
      = Some s
    ∧ (fle (of_int 0) (fragility_score (s_health_metrics s)) = true
       ∧ fle (fragility_score (s_health_metrics s)) (of_int 100) = true)
    ∧ (fle (of_int 30) (health_score (s_health_metrics s)) = true
       ∧ fle (health_score (s_health_metrics s)) (of_int 100) = true).
Proof.
  assert (is_Some (summarize (F := XQ) null_analyzer (__init__ None) chain_graph
                     (Some lower_triangle) None None))
    as [s Hs] by (vm_compute; eexists; reflexivity).
  exists s. split; [exact Hs |].
  exact (summarize_scores_in_range null_analyzer (__init__ None) chain_graph
           (Some lower_triangle) None s default_weights_finite chain_graph_metrics Hs).
Defined.

(** X12. In a returned ranking whose scores are all numbers (no [nan])
    the first record has the highest score of all; it is the record that
    the health scorer and the recommendation generator read as
    [hotspots[0]].  Proved from the laws of the comparisons, so for exact
    values and for IEEE doubles alike. *)
Theorem top_hotspot_has_highest_score {F : Type} `{FloatOrder F}
    (self : GraphInsights F) (import_graph : Graph) (call_graph : option Graph)
    (hs : list (Hotspot F)) (h0 : Hotspot F) :
  rank_hotspots self import_graph call_graph = Some hs →
  Forall (λ h, is_number (h_score h) = true) hs →
  top_hotspot (Some hs) = Some h0 →
  Forall (λ h, fle (h_score h) (h_score h0) = true) hs.
Proof.
  unfold rank_hotspots. intros Hhs Hnum Htop.
  destruct (unsorted_hotspots _ _ _) as [us|]; [| done].
  cbn in Hhs. apply (inj Some) in Hhs.
  destruct hs as [|h hs']; [done |]. cbn in Htop. apply (inj Some) in Htop. subst h.
  apply (sort_by_score_head us); [| done].
  by rewrite <- (sort_by_score_perm us), Hhs.
Qed.

Lemma top_hotspot_has_highest_score_witness :
  ∃ (hs : list (Hotspot float)) (h0 : Hotspot float),
    rank_hotspots (__init__ None) chain_graph (Some lower_triangle) = Some hs
    ∧ Forall (λ h, is_number (h_score h) = true) hs
    ∧ top_hotspot (Some hs) = Some h0
    ∧ Forall (λ h, fle (h_score h) (h_score h0) = true) hs.
Proof.
  assert (is_Some (rank_hotspots (F := float) (__init__ None) chain_graph
                     (Some lower_triangle)))
    as [hs Hhs] by (vm_compute; eexists; reflexivity).
  assert (Forall (λ h, is_number (h_score h) = true) hs) as Hnum
    by (vm_compute in Hhs; apply (inj Some) in Hhs; subst hs; repeat constructor).
  assert (is_Some (top_hotspot (Some hs))) as [h0 Hh0]
    by (vm_compute in Hhs; apply (inj Some) in Hhs; subst hs; eexists; reflexivity).
  exists hs, h0. split; [exact Hhs |]. split; [exact Hnum |]. split; [exact Hh0 |].
  exact (top_hotspot_has_highest_score (__init__ None) chain_graph (Some lower_triangle)
           hs h0 Hhs Hnum Hh0).
Defined.

(* ===================================================================== *)
(** ** Summary orchestrator: failures and the hotspot statistics *)
(* ===================================================================== *)

Lemma max_default0_spec (zs : list Z) :
  Forall (λ z, z ≤ max_default0 zs)%Z zs
  ∧ (zs = [] → max_default0 zs = 0%Z)
  ∧ (zs ≠ [] → max_default0 zs ∈ zs).
Proof.
  unfold max_default0. destruct zs as [|z zs]; cbn [max_int default].
  - by repeat split.
  - destruct (foldl_max_spec z zs) as [Hub Hin].
    split; [by apply Forall_forall | by split].
Qed.

Section SummaryStatistics.
Context {F : Type} `{PyFloat F}.

(** X13. On arguments of the documented shapes, with nodes whose churn and
    size a double can hold, [summarize] fails in two cases only: the
    [KeyError] of the ranking, when no hotspots are supplied, the node list
    is not empty and a weight is missing; and the [TypeError] of the layer
    check, when the analyzer reports more than two layers and a layer key
    is a string.  With supplied hotspots the weights are never read. *)
Theorem summarize_failure (analyzer : XGraphAnalyzer) (self : GraphInsights F)
    (import_graph : Graph) (call_graph : option Graph)
    (cycles : option (list Cycle)) (hotspots : option (list (Hotspot F))) :
  Forall metrics_in_range (nodes import_graph) →
  summarize analyzer self import_graph call_graph cycles hotspots = None
  ↔ (hotspots = None ∧ nodes import_graph ≠ []
     ∧ Exists (λ k, weights self !! k = None)
         ["in_degree"; "out_degree"; "centrality"; "churn"; "loc"])
    ∨ ((2 < length (identify_layers analyzer import_graph))%nat
       ∧ Exists (λ kv, ∃ s, kv.1 = KStr s) (identify_layers analyzer import_graph)).
Proof.
  intros _. unfold summarize.
  set (ranked := match hotspots with
                 | None => rank_hotspots self import_graph call_graph
                 | Some hs => Some hs
                 end).
  assert (ranked = None
          ↔ hotspots = None ∧ nodes import_graph ≠ []
            ∧ Exists (λ k, weights self !! k = None)
                ["in_degree"; "out_degree"; "centrality"; "churn"; "loc"]) as Hranked.
  { unfold ranked. destruct hotspots as [hs|].
    - split; [done | by intros [? _]].
    - rewrite rank_hotspots_None.
      split; [intros [? ?]; by repeat split | by intros (_ & ? & ?)]. }
  assert (compute_well_layered (Some (identify_layers analyzer import_graph)) = None
          ↔ (2 < length (identify_layers analyzer import_graph))%nat
            ∧ Exists (λ kv, ∃ s, kv.1 = KStr s) (identify_layers analyzer import_graph))
    as Hlayers.
  { rewrite compute_well_layered_None. split.
    - by intros (ls & [= <-] & ?).
    - intros ?. by eexists. }
  rewrite <- Hranked, <- Hlayers. clear Hranked Hlayers.
  destruct ranked as [hs|]; cbn [mbind option_bind]; [| by split; auto].
  unfold calculate_health_metrics.
  destruct (compute_well_layered _); cbn [mbind option_bind]; [| by split; auto].
  split; [done | by intros [? | ?]].
Qed.

(** X14. The hotspot entry of a summary: [top_5] holds the ids of the
    first five hotspots (of all of them when there are fewer), in their
    order; [max_in_degree] and [max_out_degree] bound the degrees of every
    hotspot, are 0 when there is none, and are otherwise the degree of
    some hotspot. *)
Theorem summarize_hotspot_statistics (analyzer : XGraphAnalyzer) (self : GraphInsights F)
    (import_graph : Graph) (call_graph : option Graph)
    (cycles : option (list Cycle)) (hs : list (Hotspot F)) (s : Summary F) :
  summarize analyzer self import_graph call_graph cycles (Some hs) = Some s →
  length (top_5 (s_hotspots s)) = (5 `min` length hs)%nat
  ∧ top_5 (s_hotspots s) `prefix_of` (h_id <$> hs)
  ∧ Forall (λ h, (h_in_degree h ≤ max_in_degree (s_hotspots s))%Z
                 ∧ (h_out_degree h ≤ max_out_degree (s_hotspots s))%Z) hs
  ∧ (hs = [] → max_in_degree (s_hotspots s) = 0%Z ∧ max_out_degree (s_hotspots s) = 0%Z)
  ∧ (hs ≠ [] → max_in_degree (s_hotspots s) ∈ h_in_degree <$> hs
               ∧ max_out_degree (s_hotspots s) ∈ h_out_degree <$> hs).
Proof.
  unfold summarize. cbn [mbind option_bind]. intros Hs.
  destruct (calculate_health_metrics _ _ _ _ _) as [m|]; [| done].
  cbn [mbind option_bind] in Hs. apply (inj Some) in Hs. subst s.
  cbn [s_hotspots top_5 max_in_degree max_out_degree].
  destruct (max_default0_spec (h_in_degree <$> hs)) as (Hin & Hin0 & Hin1).
  destruct (max_default0_spec (h_out_degree <$> hs)) as (Hout & Hout0 & Hout1).
  split; [by rewrite length_fmap, length_take |].
  split; [rewrite fmap_take; apply prefix_take |].
  split; [| split].
  - apply Forall_forall. intros h Hh. rewrite Forall_forall in Hin, Hout.
    split; [apply Hin | apply Hout]; by apply list_elem_of_fmap_2.
  - intros ->. split; [by apply Hin0 | by apply Hout0].
  - intros Hne. split; [apply Hin1 | apply Hout1]; by destruct hs.
Qed.
End SummaryStatistics.

Lemma summarize_failure_witness :
  Forall metrics_in_range (nodes chain_graph)
  ∧ (summarize (F := Q) null_analyzer {| weights := ∅ |} chain_graph None None None = None
     ↔ (@None (list (Hotspot Q)) = None ∧ nodes chain_graph ≠ []
        ∧ Exists (λ k, weights (F := Q) {| weights := ∅ |} !! k = None)
            ["in_degree"; "out_degree"; "centrality"; "churn"; "loc"])
       ∨ ((2 < length (identify_layers null_analyzer chain_graph))%nat
          ∧ Exists (λ kv, ∃ s, kv.1 = KStr s) (identify_layers null_analyzer chain_graph))).
Proof.
  split; [exact chain_graph_in_range |].
  exact (summarize_failure null_analyzer {| weights := ∅ |} chain_graph None None None
           chain_graph_in_range).
Defined.

Lemma summarize_hotspot_statistics_witness :
  ∃ s : Summary Q,
    summarize null_analyzer (__init__ None) triangle None None (Some [busy_hotspot]) = Some s
    ∧ length (top_5 (s_hotspots s)) = (5 `min` length [busy_hotspot (F := Q)])%nat
    ∧ top_5 (s_hotspots s) `prefix_of` (h_id <$> [busy_hotspot (F := Q)])
    ∧ Forall (λ h, (h_in_degree h ≤ max_in_degree (s_hotspots s))%Z
                   ∧ (h_out_degree h ≤ max_out_degree (s_hotspots s))%Z)
        [busy_hotspot (F := Q)]
    ∧ ([busy_hotspot (F := Q)] = [] →
       max_in_degree (s_hotspots s) = 0%Z ∧ max_out_degree (s_hotspots s) = 0%Z)
    ∧ ([busy_hotspot (F := Q)] ≠ [] →
       max_in_degree (s_hotspots s) ∈ h_in_degree <$> [busy_hotspot (F := Q)]
       ∧ max_out_degree (s_hotspots s) ∈ h_out_degree <$> [busy_hotspot (F := Q)]).
Proof.
  assert (is_Some (summarize (F := Q) null_analyzer (__init__ None) triangle None None
                     (Some [busy_hotspot])))
    as [s Hs] by (vm_compute; eexists; reflexivity).
  exists s. split; [exact Hs |].
  exact (summarize_hotspot_statistics null_analyzer (__init__ None) triangle None None
           [busy_hotspot] s Hs).
Defined.

(* ===================================================================== *)
(** ** Centrality engine: nodes that nothing points to *)
(* ===================================================================== *)

Lemma update_lower (g : Graph) (score : string → Q) (n : string) :
  (∀ s, 0 <= score s)%Q → ((15 # 100) <= update g score n)%Q.
Proof.
  intros Hpos. unfold update.
  set (terms := _ <$> sources_into g n).
  assert (0 <= Qsum terms)%Q as Hsum; [| lra].
  apply Qsum_nonneg, Forall_fmap, Forall_forall. intros s _. simpl.
  apply Qdiv_nonneg; [apply Hpos | apply inject_Z_pos; lia].
Qed.

Lemma update_no_source (g : Graph) (score : string → Q) (n : string) :
  n ∉ (target <$> edges g) → (update g score n == 15 # 100)%Q.
Proof.
  intros Hn. unfold update.
  assert (sources_into g n = []) as ->; [| reflexivity].
  unfold sources_into.
  destruct (filter _ _) as [|s l] eqn:Hf; [done |]. exfalso.
  assert (s ∈ s :: l) as Hs by left. rewrite <- Hf in Hs.
  apply list_elem_of_filter in Hs as [Hs _].
  apply Hn. unfold targets_of in Hs.
  apply list_elem_of_fmap in Hs as (e & -> & He%list_elem_of_filter).
  apply list_elem_of_fmap_2. by destruct He.
Qed.

Lemma power_iteration_synchronous (g : Graph) (n : string) :
  n ∈ edge_nodes g →
  ∃ q, power_iteration g !! n = Some q
       ∧ (q == update g (synchronous g (Nat.pred iterations)) n)%Q.
Proof.
  intros Hn. rewrite power_iteration_unfold.
  destruct (power_rounds_synchronous g iterations n Hn) as (q & Hq & Heq).
  by exists q.
Qed.

(** X15. A node of the edge list that no edge points to ends the power
    iteration with exactly the base score [1 - 0.85], no score is lower,
    and so after normalization no node has a lower centrality than it. *)
Theorem source_node_has_lowest_centrality (g : Graph) (n : string) :
  n ∈ edge_nodes g →
  n ∉ (target <$> edges g) →
  (∃ q, power_iteration g !! n = Some q ∧ (q == 1 - (85 # 100))%Q)
  ∧ ∃ v, _calculate_centrality g !! n = Some v
         ∧ ∀ m w, _calculate_centrality g !! m = Some w → (v <= w)%Q.
Proof.
  intros Hn Hsrc.
  destruct (power_iteration_synchronous g n Hn) as (q & Hq & Heq).
  rewrite update_no_source in Heq by done.
  split; [exists q; split; [done | rewrite Heq; reflexivity] |].
  destruct (centrality_quotient g) as (M & HM & _ & _ & ->).
  { intros Hempty. by rewrite Hempty, lookup_empty in Hq. }
  exists (q / M)%Q. rewrite lookup_fmap, Hq. split; [done |].
  intros m w. rewrite lookup_fmap. intros Hw.
  destruct (power_iteration g !! m) as [qm|] eqn:Hqm; [| done].
  cbn in Hw. apply (inj Some) in Hw. subst w.
  assert (m ∈ edge_nodes g) as Hm
    by (apply (power_iteration_dom (F := Q)); rewrite Hqm; by eexists).
  destruct (power_iteration_synchronous g m Hm) as (qm' & Hqm' & Heqm).
  rewrite Hqm in Hqm'. apply (inj Some) in Hqm'. subst qm'.
  assert (q <= qm)%Q as Hle.
  { rewrite Heq, Heqm. apply update_lower. intros s.
    pose proof (synchronous_pos g (Nat.pred iterations) s). lra. }
  unfold Qdiv. apply Qmult_le_compat_r; [done |].
  apply Qlt_le_weak, Qinv_lt_0_compat, HM.
Qed.

Lemma source_node_has_lowest_centrality_witness :
  ("a" ∈ edge_nodes chain_graph)
  ∧ ("a" ∉ target <$> edges chain_graph)
  ∧ (∃ q, power_iteration chain_graph !! "a" = Some q ∧ (q == 1 - (85 # 100))%Q)
  ∧ ∃ v, _calculate_centrality chain_graph !! "a" = Some v
         ∧ ∀ m w, _calculate_centrality chain_graph !! m = Some w → (v <= w)%Q.
Proof.
  assert ("a" ∈ edge_nodes chain_graph) as Hn by (vm_compute; set_solver).
  assert ("a" ∉ (target <$> edges chain_graph)) as Hsrc
    by (cbn; intros H; repeat (apply elem_of_cons in H as [H | H]; [done |]);
        by apply elem_of_nil in H).
  split; [exact Hn |]. split; [exact Hsrc |].
  exact (source_node_has_lowest_centrality chain_graph "a" Hn Hsrc).
Defined.

(* ===================================================================== *)
(** ** Density of a simple graph, monotonicity of the impact ratio *)
(* ===================================================================== *)

(** A simple graph over [n] nodes has at most [n * (n - 1)] edges: with
    the [n] loops added, the edges are distinct pairs of listed nodes. *)
Lemma simple_graph_edges (g : Graph) :
  simple_graph g →
  (length (edges g) + length (nodes g) ≤ length (nodes g) * length (nodes g))%nat.
Proof.
  intros (Hids & Hedges & Hall).
  set (ids := node_id <$> nodes g) in *.
  set (pairs := (λ e, (source e, target e)) <$> edges g) in *.
  set (loops := (λ i : string, (i, i)) <$> ids).
  assert (length (pairs ++ loops) ≤ length (cprod ids ids))%nat as Hlen.
  { apply submseteq_length, NoDup_submseteq.
    - apply NoDup_app. split; [done |]. split.
      + intros [s t] Hst Hloop.
        apply list_elem_of_fmap in Hst as (e & [= -> ->] & He).
        apply list_elem_of_fmap in Hloop as (i & [= Hs Ht] & _).
        rewrite Forall_forall in Hall. destruct (Hall e He) as (Hne & _). congruence.
      + apply NoDup_fmap_2; [| done]. by intros i j [= ->].
    - intros [s t] [Hst | Hloop]%elem_of_app; apply list_elem_of_cprod; cbn.
      + apply list_elem_of_fmap in Hst as (e & [= -> ->] & He).
        rewrite Forall_forall in Hall. by destruct (Hall e He) as (_ & ? & ?).
      + by apply list_elem_of_fmap in Hloop as (i & [= -> ->] & ?). }
  rewrite length_app, list_cprod_list_prod, List.length_prod in Hlen.
  unfold pairs, loops, ids in Hlen. by rewrite !length_fmap in Hlen.
Qed.

(** X16. On a simple graph (distinct node ids, each edge between two
    different listed nodes, no edge twice) the density that the health
    scorer, the recommendations and the summary compute lies in [0, 1]. *)
Theorem simple_graph_density (g : Graph) :
  simple_graph g →
  (0 <= graph_density (F := Q) g ∧ graph_density (F := Q) g <= 1)%Q.
Proof.
  intros Hsimple. split; [apply graph_density_nonneg |].
  apply simple_graph_edges in Hsimple. unfold graph_density. q_unfold.
  set (n := length (nodes g)) in *. set (e := length (edges g)) in *.
  destruct (Z.ltb_spec 1 (Z.of_nat n)) as [Hn|Hn].
  - assert (0 < Z.of_nat n * (Z.of_nat n - 1))%Z as Hpos by nia.
    destruct (Z.ltb_spec 0 (Z.of_nat n * (Z.of_nat n - 1))); [| lia].
    apply Qdiv_le_1; [| by apply inject_Z_pos].
    rewrite <- Zle_Qle. nia.
  - cbn [Z.ltb Z.compare]. apply Qdiv_le_1; [| reflexivity].
    rewrite <- Zle_Qle. nia.
Qed.

Lemma simple_graph_density_witness :
  simple_graph triangle
  ∧ (0 <= graph_density (F := Q) triangle ∧ graph_density (F := Q) triangle <= 1)%Q.
Proof.
  assert (simple_graph triangle) as Hsimple
    by (apply (bool_decide_unpack _); vm_compute; exact I).
  split; [exact Hsimple | exact (simple_graph_density triangle Hsimple)].
Defined.

(** X17. [calculate_impact_ratio] never reads [targets]; for a positive
    [total_nodes] it grows with the impacted set, and it is 1 exactly when
    the impacted set has [total_nodes] elements. *)
Theorem impact_ratio_monotone (self : GraphInsights Q) (targets targets' : list string)
    (impacted impacted' : gset string) (total_nodes : Z) :
  (0 < total_nodes)%Z →
  impacted ⊆ impacted' →
  (calculate_impact_ratio self targets impacted total_nodes
   <= calculate_impact_ratio self targets' impacted' total_nodes)%Q
  ∧ ((calculate_impact_ratio self targets impacted total_nodes == 1)%Q
     ↔ Z.of_nat (size impacted) = total_nodes).
Proof.
  intros Hpos Hsub. unfold calculate_impact_ratio. q_unfold.
  destruct (Z.eqb_spec total_nodes 0) as [-> | _]; [lia |].
  assert (0 < inject_Z total_nodes)%Q as Ht by (by apply inject_Z_pos).
  apply subseteq_size in Hsub. split.
  - unfold Qdiv. apply Qmult_le_compat_r.
    + rewrite <- Zle_Qle. lia.
    + by apply Qlt_le_weak, Qinv_lt_0_compat.
  - split.
    + intros Heq. apply inject_Z_injective.
      apply (Qmult_inj_r _ _ (/ inject_Z total_nodes)%Q).
      * intros Hz. assert (0 < / inject_Z total_nodes)%Q by (by apply Qinv_lt_0_compat).
        lra.
      * unfold Qdiv in Heq. rewrite Heq. rewrite Qmult_inv_r; [done | lra].
    + intros ->. apply Qmult_inv_r. lra.
Qed.

Lemma impact_ratio_monotone_witness :
  (0 < 4)%Z
  ∧ ({["a"]} : gset string) ⊆ {["a"; "b"]}
  ∧ (calculate_impact_ratio (F := Q) (__init__ None) ["a"] {["a"]} 4
     <= calculate_impact_ratio (F := Q) (__init__ None) [] {["a"; "b"]} 4)%Q
  ∧ ((calculate_impact_ratio (F := Q) (__init__ None) ["a"] {["a"]} 4 == 1)%Q
     ↔ Z.of_nat (size ({["a"]} : gset string)) = 4%Z).
Proof.
  assert (0 < 4)%Z as Hpos by lia.
  assert (({["a"]} : gset string) ⊆ {["a"; "b"]}) as Hsub
    by (apply (bool_decide_unpack _); vm_compute; exact I).
  split; [exact Hpos |]. split; [exact Hsub |].
  exact (impact_ratio_monotone (__init__ None) ["a"] [] {["a"]} {["a"; "b"]} 4 Hpos Hsub).
Defined.

(* ===================================================================== *)
(** ** The store: results are new objects *)
(* ===================================================================== *)

Section NewObjects.
Import Store.
Context (n0 : nat).

(** A loop whose accumulator keeps an invariant. *)
Lemma preserves_repeat_for_inv {B} (n : nat) (body : B → M B) (acc : B) (I : B → Prop) :
  (∀ acc, I acc → preserves n0 (body acc) I) →
  I acc → preserves n0 (repeat_for n body acc) I.
Proof.
  intros Hbody. revert acc. induction n as [|n IH]; intros acc Hacc; simpl.
  - by apply preserves_ret.
  - eapply preserves_bind; [by apply Hbody | intros acc' Hacc'; by apply IH].
Qed.

Lemma preserves_ret_new (l : loc) :
  n0 ≤ l → preserves n0 (mret (VRef l)) (new_object n0).
Proof. intros Hl. apply preserves_ret. by exists l. Qed.
End NewObjects.

(** As [frame], keeping track of where the returned object was made. *)
Ltac frame_new :=
  repeat (cbv beta zeta;
    lazymatch goal with
    | |- Store.preserves ?n (mbind ?k (Store.alloc ?o)) _ =>
        apply (preserves_bind n (Store.alloc o) k (λ l, n ≤ l));
        [apply preserves_alloc | intros ? ?]
    | |- Store.preserves ?n (mbind ?k (Store.repeat_for ?i ?body ?acc)) _ =>
        apply (preserves_bind n (Store.repeat_for i body acc) k (λ l, n ≤ l));
        [apply preserves_repeat_for_inv; [intros ? ? | assumption] | intros ? ?]
    | |- Store.preserves ?n (mbind ?k ?m) _ =>
        apply (preserves_bind n m k (λ _, True)); [| intros ? _]
    | |- Store.preserves _ (match ?x with _ => _ end) _ => destruct x
    | |- Store.preserves _ (mret (Store.VRef _)) (new_object _) =>
        apply preserves_ret_new; assumption
    | |- Store.preserves _ _ _ => first [frame_leaf | solve [auto with frame]]
    end).

Section NewResults.
Import Store.
Context (n0 : nat).

Hint Resolve preserves_load_dict preserves_load_list preserves_dict_get
  preserves_getitem preserves_setitem preserves_dd_int_getitem preserves_list_append
  preserves_list_head preserves_adj_append preserves_adj_getitem preserves_set_add
  preserves_set_elements preserves_len preserves_truthy preserves_graph_items
  preserves_or_zero preserves_node_score preserves_count_degrees
  preserves_sort_desc_by preserves_calculate_centrality preserves_graph_density
  preserves_count_above : frame.

Lemma new_calculate_centrality graph :
  preserves n0 (_calculate_centrality graph) (new_object n0).
Proof. unfold _calculate_centrality. frame_new. Qed.

Lemma new_rank_hotspots self import_graph call_graph :
  preserves n0 (rank_hotspots self import_graph call_graph) (new_object n0).
Proof. unfold rank_hotspots. frame_new. Qed.

Lemma new_calculate_health_metrics self import_graph cycles hotspots layers :
  preserves n0 (calculate_health_metrics self import_graph cycles hotspots layers)
    (new_object n0).
Proof. unfold calculate_health_metrics. frame_new. Qed.

Lemma new_generate_recommendations self import_graph cycles hotspots layers :
  preserves n0 (generate_recommendations self import_graph cycles hotspots layers)
    (new_object n0).
Proof. unfold generate_recommendations. frame_new. Qed.
End NewResults.

(** X18. Each of the four analysis methods returns an object it made
    itself: the ranking, the centrality dictionary, the metrics record and
    the recommendation list are references to objects that were not in the
    store before the call, so none is, or shares its identity with, an
    argument. *)
Theorem results_are_new_objects (h : list Store.obj) :
  (∀ self import_graph call_graph r h',
      Store.rank_hotspots self import_graph call_graph h = Some (r, h') →
      new_object (length h) r)
  ∧ (∀ graph r h',
      Store._calculate_centrality graph h = Some (r, h') → new_object (length h) r)
  ∧ (∀ self import_graph cycles hotspots layers r h',
      Store.calculate_health_metrics self import_graph cycles hotspots layers h
        = Some (r, h') →
      new_object (length h) r)
  ∧ (∀ self import_graph cycles hotspots layers r h',
      Store.generate_recommendations self import_graph cycles hotspots layers h
        = Some (r, h') →
      new_object (length h) r).
Proof.
  repeat split; intros.
  - by eapply (new_rank_hotspots (length h)).
  - by eapply (new_calculate_centrality (length h)).
  - by eapply (new_calculate_health_metrics (length h)).
  - by eapply (new_generate_recommendations (length h)).
Qed.

Lemma results_are_new_objects_witness :
  ∃ r h',
    Store.rank_hotspots Store.ranking_weights Store.ranking_graph Store.VNone
      Store.ranking_store = Some (r, h')
    ∧ new_object (length Store.ranking_store) r.
Proof.
  destruct (Store.rank_hotspots Store.ranking_weights Store.ranking_graph Store.VNone
              Store.ranking_store) as [[r h']|] eqn:Hrun;
    [| vm_compute in Hrun; discriminate].
  exists r, h'. split; [reflexivity |].
  destruct (results_are_new_objects Store.ranking_store) as (Hrank & _).
  exact (Hrank _ _ _ r h' Hrun).
Defined.

(* ===================================================================== *)
(** ** Enrichment: repeated calls, and the labels it derives *)
(* ===================================================================== *)

Section Overwrite.
Import Store.

Lemma dict_set_dict_set k v v' d : dict_set k v (dict_set k v' d) = dict_set k v d.
Proof.
  induction d as [|[k' w] d IH]; cbn [dict_set].
  - by rewrite decide_True.
  - destruct (decide (k = k')) as [-> | Hne]; cbn [dict_set].
    + by rewrite decide_True.
    + by rewrite decide_False, IH.
Qed.

Lemma dict_set_keys k v v' d : (dict_set k v d).*1 = (dict_set k v' d).*1.
Proof.
  induction d as [|[k' w] d IH]; cbn [dict_set]; [done |].
  destruct (decide (k = k')); [done |]. cbn. by rewrite IH.
Qed.
End Overwrite.

(** X19. Enriching the same summary twice leaves one
    [architectural_insights] entry: the second call replaces the reference
    stored by the first with a reference to a newer object, the keys of
    the summary and their order stay those after the first call, and both
    calls return the summary itself. *)
Theorem enrichment_overwrites (h h1 h2 : list Store.obj) (self : Store.val)
    (target : nat) (r1 r2 : Store.val) :
  target < length h →
  Store.interpret_graph_summary self (Store.VRef target) h = Some (r1, h1) →
  Store.interpret_graph_summary self r1 h1 = Some (r2, h2) →
  r1 = Store.VRef target ∧ r2 = Store.VRef target
  ∧ ∃ d first second,
      h !! target = Some (Store.ODict d)
      ∧ h1 !! target
        = Some (Store.ODict
                  (Store.dict_set (KStr "architectural_insights") (Store.VRef first) d))
      ∧ h2 !! target
        = Some (Store.ODict
                  (Store.dict_set (KStr "architectural_insights") (Store.VRef second) d))
      ∧ length h ≤ first ∧ length h1 ≤ second
      ∧ (Store.dict_set (KStr "architectural_insights") (Store.VRef second) d).*1
        = (Store.dict_set (KStr "architectural_insights") (Store.VRef first) d).*1.
Proof.
  intros Htarget Hrun1 Hrun2.
  destruct (interpret_graph_summary_frame self target h r1 h1 Htarget Hrun1)
    as (-> & d & ins1 & Hd & Hins1 & Hh1 & _).
  assert (target < length h1) as Htarget1 by (by eapply lookup_lt_Some).
  destruct (interpret_graph_summary_frame self target h1 r2 h2 Htarget1 Hrun2)
    as (-> & d1 & ins2 & Hd1 & Hins2 & Hh2 & _).
  split; [done |]. split; [done |]. exists d, ins1, ins2.
  rewrite Hh1 in Hd1. apply (inj Some) in Hd1. injection Hd1 as <-.
  rewrite dict_set_dict_set in Hh2.
  split; [done |]. split; [done |]. split; [done |]. split; [done |]. split; [done |].
  apply dict_set_keys.
Qed.

Lemma enrichment_overwrites_witness :
  ∃ h1 h2 r1 r2,
    Store.summary_loc < length Store.summary_store
    ∧ Store.interpret_graph_summary Store.VNone (Store.VRef Store.summary_loc)
        Store.summary_store = Some (r1, h1)
    ∧ Store.interpret_graph_summary Store.VNone r1 h1 = Some (r2, h2)
    ∧ r1 = Store.VRef Store.summary_loc ∧ r2 = Store.VRef Store.summary_loc
    ∧ ∃ d first second,
        Store.summary_store !! Store.summary_loc = Some (Store.ODict d)
        ∧ h1 !! Store.summary_loc
          = Some (Store.ODict
                    (Store.dict_set (KStr "architectural_insights") (Store.VRef first) d))
        ∧ h2 !! Store.summary_loc
          = Some (Store.ODict
                    (Store.dict_set (KStr "architectural_insights") (Store.VRef second) d))
        ∧ length Store.summary_store ≤ first ∧ length h1 ≤ second
        ∧ (Store.dict_set (KStr "architectural_insights") (Store.VRef second) d).*1
          = (Store.dict_set (KStr "architectural_insights") (Store.VRef first) d).*1.
Proof.
  assert (Store.summary_loc < length Store.summary_store) as Htarget
    by (vm_compute; lia).
  destruct (Store.interpret_graph_summary Store.VNone (Store.VRef Store.summary_loc)
              Store.summary_store) as [[r1 h1]|] eqn:Hrun1;
    [| vm_compute in Hrun1; discriminate].
  destruct (Store.interpret_graph_summary Store.VNone r1 h1) as [[r2 h2]|] eqn:Hrun2;
    [| vm_compute in Hrun1; injection Hrun1 as <- <-; vm_compute in Hrun2; discriminate].
  exists h1, h2, r1, r2. split; [exact Htarget |]. split; [reflexivity |].
  split; [exact Hrun2 |].
  exact (enrichment_overwrites Store.summary_store h1 h2 Store.VNone Store.summary_loc
           r1 r2 Htarget Hrun1 Hrun2).
Defined.

(** The functional reading of the enrichment and its replay on the store
    give the same insights for the rendered summary. *)
Example architectural_insights_agrees :
  ∃ h' insights,
    Store.interpret_graph_summary Store.VNone (Store.VRef Store.summary_loc)
      Store.summary_store = Some (Store.VRef Store.summary_loc, h')
    ∧ Store.dict_lookup (KStr "architectural_insights")
        (match h' !! Store.summary_loc with Some (Store.ODict d) => d | _ => [] end)
      = Some (Store.VRef insights)
    ∧ h' !! insights
      = Some (Store.ODict
                [(KStr "coupling_level",
                  Store.VStr (coupling_level
                                (interpret_graph_summary (__init__ None) rendered_summary).2));
                 (KStr "potential_god_objects",
                  Store.VInt (Z.of_nat (potential_god_objects
                                (interpret_graph_summary (__init__ None) rendered_summary).2)));
                 (KStr "highly_connected",
                  Store.VInt (Z.of_nat (highly_connected
                                (interpret_graph_summary (__init__ None) rendered_summary).2)))]).
Proof. exists (default [] (snd <$> Store.interpret_graph_summary Store.VNone
                             (Store.VRef Store.summary_loc) Store.summary_store)), 9.
  vm_compute. by repeat split.
Qed.

Lemma coupling_reduction_fired (self : GraphInsights Q) g cycles hotspots layers :
  coupling_reduction (F := Q) (graph_density g)
    ∈ generate_recommendations self g cycles hotspots layers
  ↔ flt (lit 3 10) (graph_density (F := Q) g) = true.
Proof.
  rewrite generate_recommendations_rules. unfold fired, recommendation_rules.
  rewrite list_elem_of_fmap. split.
  - intros ([b s] & Hs & [Hb Hin]%list_elem_of_filter). cbn in Hs, Hb. subst b s.
    repeat (apply elem_of_cons in Hin as [Hin | Hin]).
    + injection Hin as _ Hs. unfold coupling_reduction, cycle_breaking in Hs.
      cbn [String.append] in Hs. discriminate.
    + by injection Hin as ->.
    + destruct (top_hotspot hotspots) as [h0|]; [| discriminate].
      injection Hin as _ Hs. unfold coupling_reduction, hotspot_refactor in Hs.
      cbn [String.append] in Hs. discriminate.
    + injection Hin as _ Hs. unfold coupling_reduction, layering_suggestion in Hs.
      cbn [String.append] in Hs. discriminate.
    + by apply elem_of_nil in Hin.
  - intros Hd. exists (true, coupling_reduction (F := Q) (graph_density g)).
    split; [done |].
    apply list_elem_of_filter. split; [done |]. rewrite Hd. right. left.
Qed.

(** X20. The coupling label of the enrichment agrees with the other
    methods on the same density: it is one of [high], [medium], [low];
    it is [high] exactly when [generate_recommendations] asks to reduce
    coupling; [low] implies the flag [loosely_coupled], which in turn
    excludes [high]. *)
Theorem coupling_level_consistent (self : GraphInsights Q) (g : Graph)
    (cycles : option (list Cycle)) (hotspots : option (list (Hotspot Q)))
    (layers : option Layers) (r : HealthMetrics Q) (tops : list SummaryHotspot) :
  calculate_health_metrics self g cycles hotspots layers = Some r →
  let insights :=
    (interpret_graph_summary self
       {| gd_graph_density := Some (hm_density r); gd_top_hotspots := tops |}).2 in
  coupling_level insights ∈ ["high"; "medium"; "low"]
  ∧ (coupling_level insights = "high"
     ↔ coupling_reduction (hm_density r)
         ∈ generate_recommendations self g cycles hotspots layers)
  ∧ (coupling_level insights = "low" → loosely_coupled r = true)
  ∧ (loosely_coupled r = true → coupling_level insights ≠ "high").
Proof.
  unfold calculate_health_metrics. intros Hr.
  destruct (compute_well_layered layers) as [wl|]; [| done].
  cbn [mbind option_bind] in Hr. apply (inj Some) in Hr. subst r.
  cbn [hm_density loosely_coupled interpret_graph_summary snd architectural_insights
       coupling_level gd_graph_density default].
  rewrite coupling_reduction_fired.
  unfold id. set (d := graph_density g). clearbody d. q_unfold.
  change (inject_Z 3 / inject_Z 10)%Q with (3 # 10)%Q.
  change (inject_Z 2 / inject_Z 10)%Q with (2 # 10)%Q.
  change (inject_Z 1 / inject_Z 10)%Q with (1 # 10)%Q.
  pose proof (Qltb_spec (3 # 10) d) as H3. pose proof (Qltb_spec (1 # 10) d) as H1.
  pose proof (Qltb_spec d (2 # 10)) as H2.
  destruct (Qltb (3 # 10) d), (Qltb (1 # 10) d), (Qltb d (2 # 10));
    (split; [first [by left | by right; left | by right; right; left] |]);
    (split; [split; done |]); split; try done; try lra.
Qed.

Lemma coupling_level_consistent_witness :
  ∃ r : HealthMetrics Q,
    calculate_health_metrics (__init__ None) triangle None None None = Some r
    ∧ let insights :=
        (interpret_graph_summary (__init__ None)
           {| gd_graph_density := Some (hm_density r); gd_top_hotspots := [] |}).2 in
      coupling_level insights ∈ ["high"; "medium"; "low"]
      ∧ (coupling_level insights = "high"
         ↔ coupling_reduction (hm_density r)
             ∈ generate_recommendations (__init__ None) triangle None None None)
      ∧ (coupling_level insights = "low" → loosely_coupled r = true)
      ∧ (loosely_coupled r = true → coupling_level insights ≠ "high").
Proof.
  assert (is_Some (calculate_health_metrics (F := Q) (__init__ None) triangle None None None))
    as [r Hr] by (vm_compute; eexists; reflexivity).
  exists r. split; [exact Hr |].
  exact (coupling_level_consistent (__init__ None) triangle None None None r [] Hr).
Defined.

Section RankedInsights.
Context {F : Type} `{PyFloat F}.

Lemma hotspot_refactor_fired (self : GraphInsights F) g cycles hotspots layers h0 :
  top_hotspot hotspots = Some h0 →
  hotspot_refactor h0 ∈ generate_recommendations self g cycles hotspots layers →
  (30 < h_in_degree h0)%Z.
Proof.
  intros Htop. rewrite generate_recommendations_rules. unfold fired, recommendation_rules.
  rewrite Htop. cbv beta iota. rewrite list_elem_of_fmap.
  intros ([b s] & Hs & [Hb Hin]%list_elem_of_filter). cbn in Hs, Hb. subst b s.
  repeat (apply elem_of_cons in Hin as [Hin | Hin]).
  - injection Hin as _ Hs. unfold hotspot_refactor, cycle_breaking in Hs.
    cbn [String.append] in Hs. discriminate.
  - injection Hin as _ Hs. unfold hotspot_refactor, coupling_reduction in Hs.
    cbn [String.append] in Hs. discriminate.
  - injection Hin as Hb. symmetry in Hb. by apply Z.ltb_lt in Hb.
  - injection Hin as _ Hs. unfold hotspot_refactor, layering_suggestion in Hs.
    cbn [String.append] in Hs. discriminate.
  - by apply elem_of_nil in Hin.
Qed.

(** X21. Enriching a summary whose [top_hotspots] are records as
    [rank_hotspots] builds them: the records carry no key
    [total_connections], so [highly_connected] is 0 whatever the degrees;
    [potential_god_objects] counts every record of in-degree above 30, and
    is at least 1 whenever [generate_recommendations] asks to refactor the
    top hotspot of that list. *)
Theorem ranked_hotspots_insights (density : option F) (hs : list (Hotspot F)) :
  let insights :=
    architectural_insights
      {| gd_graph_density := density; gd_top_hotspots := rendered <$> hs |} in
  highly_connected insights = 0%nat
  ∧ potential_god_objects insights = length (filter (λ h, (30 < h_in_degree h)%Z) hs)
  ∧ ∀ (self : GraphInsights F) g cycles layers h0,
      top_hotspot (Some hs) = Some h0 →
      hotspot_refactor h0 ∈ generate_recommendations self g cycles (Some hs) layers →
      (1 ≤ potential_god_objects insights)%nat.
Proof.
  cbv zeta. unfold architectural_insights.
  cbn [highly_connected potential_god_objects gd_top_hotspots].
  assert (∀ l : list (Hotspot F),
            length (filter (λ h, (30 < default 0 (sh_in_degree h))%Z) (rendered <$> l))
            = length (filter (λ h, (30 < h_in_degree h)%Z) l)) as Hgod.
  { induction l as [|h l IH]; [done |].
    rewrite fmap_cons.
    destruct (decide (30 < h_in_degree h)%Z);
      [rewrite !filter_cons_True by (cbn; lia) | rewrite !filter_cons_False by (cbn; lia)];
      cbn [length]; by rewrite IH. }
  split; [| split].
  - induction hs as [|h hs IH]; [done |].
    rewrite fmap_cons, filter_cons_False; [done |].
    cbn [rendered sh_total_connections default]. lia.
  - apply Hgod.
  - intros self g cycles layers h0 Htop Hrec. rewrite Hgod.
    pose proof (hotspot_refactor_fired _ _ _ _ _ _ Htop Hrec) as Hin.
    destruct hs as [|h hs']; [done |]. cbn in Htop. apply (inj Some) in Htop. subst h.
    rewrite filter_cons_True by done. cbn [length]. lia.
Qed.
End RankedInsights.
